(** * Unreliable and its Daemon: a shallow embedding

    The repository wraps a resource that may die at any moment
    ([Unreliable], [src/Unreliable.ts]) and supervises it with a bounded
    restart loop ([Daemon], [src/Daemon.ts]).  Both are event driven: every
    method runs to its next [await] without interruption, and what it is
    waiting for arrives later as a separate reaction.

    The embedding follows that shape.  A [World] holds the fields of one
    [Daemon] and of the [Unreliable] it owns, together with the pieces of
    the JavaScript runtime the code talks to (live timers, listeners,
    suspended [async] calls).  Each method is a function in a small
    state-and-exception monad; each uninterrupted run of code is one
    [step] of the transition system; everything the code does is appended
    to a trace of [Effect]s in program order.

    Outside the embedding: the timeout and the abort signal of
    [EventBarrier.waitFor]; [abortOnDeath(job)], which only races a
    promise of the caller against the death; stopOnExit.ts, whose
    listeners live on the Node [process]; the bodies of the methods
    that [eventHandlers] names, and a name that names no method; an
    [error] emitted with no listener; callbacks of outside observers that throw.  Attempt numbers
    and delays are integers, where the code has doubles.

    The two build scripts are pure list and string code; they are embedded
    as functions of the directory listing, with [path.join] left as a
    parameter. *)

From Stdlib Require Import ZArith List String Bool Lia.
Import ListNotations.
Local Open Scope string_scope.
Local Open Scope list_scope.
Local Open Scope Z_scope.

(** ** Daemon.h.ts *)

Module DaemonEvents.

Inductive t := STARTING | START_FAILED | RUNNING | RETRY_SCHEDULED | DIED.

End DaemonEvents.

Module DaemonStatus.

Inductive t := INIT | STARTING | RUNNING | RETRY_SCHEDULED | DEAD.

Definition eqb (a b : t) : bool :=
  match a, b with
  | INIT, INIT | STARTING, STARTING | RUNNING, RUNNING
  | RETRY_SCHEDULED, RETRY_SCHEDULED | DEAD, DEAD => true
  | _, _ => false
  end.

End DaemonStatus.

(** An underlying object is known by its identity; the raw arguments of the
    events it emits are opaque values. *)
Definition Handle := nat.
Definition Arg := nat.

(** Everything that is thrown or used as a rejection reason.
    [UnreliableDeathError] is from Unreliable.h.ts; [cls] is the
    [deathErrorClass] of the meta table when it overrides the default. *)
Inductive Error :=
| HookError (tag : nat)
| AssertionError (message : string)
| UnreliableDeathError (cls : option string) (unreliable : option Handle) (reason : list Arg)
| EmittedError (arg : option Arg).

Record StartFailureError := {
  cause : Error;
  nthAttempt : Z;
  retryIn : Z }.

Module EventArgs.

Inductive t :=
| Starting (n : Z)
| StartFailed (e : StartFailureError)
| Running
| RetryScheduled (nth : Z) (delay : Z).

End EventArgs.

(** ** Unreliable.h.ts *)

Inductive Extra :=
| NoExtra
| StartFailureReason (err : Error)
| StopReason (reason : list Arg).

Record StateChange := {
  oldState : string;
  extra : Extra }.

Record States := {
  init : string;
  starting : string;
  startFailed : string;
  running : string;
  stopping : string;
  stopped : string }.

Record StateConf := {
  startable : list string;
  stoppable : list string;
  abortOnStartFailure : list string;
  abortOnDeath : list string }.

(** [eventHandlers] is kept in the order [for ... in] enumerates it. *)
Record UnreliableMeta := {
  states : States;
  stateConf : StateConf;
  eventHandlers : list (string * string);
  deathEvents : list string;
  deathErrorClass : option string }.

(** [Set.prototype.has] on a set of state names. *)
Definition has (s : list string) (x : string) : bool :=
  existsb (String.eqb x) s.

(** ** The runtime around the two objects *)

Inductive Outcome (A : Type) :=
| Returns (a : A)
| Throws (e : Error).
Arguments Returns {A} a.
Arguments Throws {A} e.

(** The three listeners [Unreliable._start] attaches to a fresh handle. *)
Inductive Handler :=
| OnError
| OnDeath
| Method (name : string).

(** One [on(obj, event, handler)] of disposable-events.ts. *)
Record Sub := {
  s_id : nat;
  s_obj : Handle;
  s_event : string;
  s_handler : Handler }.

(** Who awaits an [it.start()]: the daemon's [_start(nthAttempt)], or code
    outside the two classes. *)
Inductive Caller :=
| ByDaemon (nth : Z)
| ByUser.

(** Where a suspended [it.start()] stands.
    - [AwaitCreate]: [Unreliable._start] waits for [_createAndCheck()].
    - [AwaitStart r]: [Unreliable._start] has settled with [r];
      [Unreliable.start] resumes next.
    - [AwaitCaller r]: [Unreliable.start] has settled with [r]; the caller
      resumes next. *)
Inductive Stage :=
| AwaitCreate
| AwaitStart (r : Outcome Handle)
| AwaitCaller (r : Outcome unit).

Record Task := {
  t_id : nat;
  t_caller : Caller;
  t_stage : Stage }.

(** What a subclass's [_stop()] does when called: return, throw, or (as the
    test suite's FakeProcess) emit an event on the handle before returning. *)
Inductive StopBehaviour :=
| StopReturns
| StopThrows (e : Error)
| StopEmits (event : string) (args : list Arg).

(** The trace.  [seen] in a broadcast is the value the [state] getter
    returns while the listeners of that broadcast run; [resolved] and
    [rejected] list the waiters the call settles. *)
Inductive Effect :=
| ItNotify (state : string) (change : StateChange) (seen : string) (resolved : list nat)
| ItAssign (newState : string)
| ItAbort (event : string) (err : Error) (rejected : list nat)
| ItAbortAll (err : Error) (rejected : list nat)
| ItObj (obj : option Handle)
| ItOn (sub : Sub)
| ItDispose (sub : nat)
| ItCreateAndCheck (task : nat)
| ItStopHook
| ItMethod (name : string) (args : list Arg)
| ItSettled (task : nat) (r : Outcome unit)
| ItThrown (e : Error)
| DNotify (event : DaemonEvents.t) (arg : EventArgs.t) (seen : DaemonStatus.t)
| DAssign (status : DaemonStatus.t)
| DAbort (event : DaemonEvents.t) (err : StartFailureError)
| DOnce (listener : nat) (event : string)
| DDispose (listener : nat)
| SetTimeout (timer : nat) (nth : Z) (delay : Z)
| ClearTimeout (timer : nat).

Record World := {
  (* the Unreliable *)
  it_state : string;
  it_uObj : option Handle;
  it_disposables : list Sub;
  it_waiters : list (string * nat);
  it_listeners : list (nat * string);
  (* the Daemon *)
  d_state : DaemonStatus.t;
  d_retryTimer : option nat;
  d_disposables : list (nat * string);
  (* the runtime *)
  obj_listeners : list Sub;
  timers : list (nat * Z);
  pending : list Task;
  next_id : nat;
  log : list Effect }.

Definition set_it_state v w :=
  {| it_state := v; it_uObj := it_uObj w; it_disposables := it_disposables w;
     it_waiters := it_waiters w; it_listeners := it_listeners w;
     d_state := d_state w; d_retryTimer := d_retryTimer w;
     d_disposables := d_disposables w; obj_listeners := obj_listeners w;
     timers := timers w; pending := pending w; next_id := next_id w;
     log := log w |}.
Definition set_it_uObj v w :=
  {| it_state := it_state w; it_uObj := v; it_disposables := it_disposables w;
     it_waiters := it_waiters w; it_listeners := it_listeners w;
     d_state := d_state w; d_retryTimer := d_retryTimer w;
     d_disposables := d_disposables w; obj_listeners := obj_listeners w;
     timers := timers w; pending := pending w; next_id := next_id w;
     log := log w |}.
Definition set_it_disposables v w :=
  {| it_state := it_state w; it_uObj := it_uObj w; it_disposables := v;
     it_waiters := it_waiters w; it_listeners := it_listeners w;
     d_state := d_state w; d_retryTimer := d_retryTimer w;
     d_disposables := d_disposables w; obj_listeners := obj_listeners w;
     timers := timers w; pending := pending w; next_id := next_id w;
     log := log w |}.
Definition set_it_waiters v w :=
  {| it_state := it_state w; it_uObj := it_uObj w; it_disposables := it_disposables w;
     it_waiters := v; it_listeners := it_listeners w;
     d_state := d_state w; d_retryTimer := d_retryTimer w;
     d_disposables := d_disposables w; obj_listeners := obj_listeners w;
     timers := timers w; pending := pending w; next_id := next_id w;
     log := log w |}.
Definition set_it_listeners v w :=
  {| it_state := it_state w; it_uObj := it_uObj w; it_disposables := it_disposables w;
     it_waiters := it_waiters w; it_listeners := v;
     d_state := d_state w; d_retryTimer := d_retryTimer w;
     d_disposables := d_disposables w; obj_listeners := obj_listeners w;
     timers := timers w; pending := pending w; next_id := next_id w;
     log := log w |}.
Definition set_d_state v w :=
  {| it_state := it_state w; it_uObj := it_uObj w; it_disposables := it_disposables w;
     it_waiters := it_waiters w; it_listeners := it_listeners w;
     d_state := v; d_retryTimer := d_retryTimer w;
     d_disposables := d_disposables w; obj_listeners := obj_listeners w;
     timers := timers w; pending := pending w; next_id := next_id w;
     log := log w |}.
Definition set_d_retryTimer v w :=
  {| it_state := it_state w; it_uObj := it_uObj w; it_disposables := it_disposables w;
     it_waiters := it_waiters w; it_listeners := it_listeners w;
     d_state := d_state w; d_retryTimer := v;
     d_disposables := d_disposables w; obj_listeners := obj_listeners w;
     timers := timers w; pending := pending w; next_id := next_id w;
     log := log w |}.
Definition set_d_disposables v w :=
  {| it_state := it_state w; it_uObj := it_uObj w; it_disposables := it_disposables w;
     it_waiters := it_waiters w; it_listeners := it_listeners w;
     d_state := d_state w; d_retryTimer := d_retryTimer w;
     d_disposables := v; obj_listeners := obj_listeners w;
     timers := timers w; pending := pending w; next_id := next_id w;
     log := log w |}.
Definition set_obj_listeners v w :=
  {| it_state := it_state w; it_uObj := it_uObj w; it_disposables := it_disposables w;
     it_waiters := it_waiters w; it_listeners := it_listeners w;
     d_state := d_state w; d_retryTimer := d_retryTimer w;
     d_disposables := d_disposables w; obj_listeners := v;
     timers := timers w; pending := pending w; next_id := next_id w;
     log := log w |}.
Definition set_timers v w :=
  {| it_state := it_state w; it_uObj := it_uObj w; it_disposables := it_disposables w;
     it_waiters := it_waiters w; it_listeners := it_listeners w;
     d_state := d_state w; d_retryTimer := d_retryTimer w;
     d_disposables := d_disposables w; obj_listeners := obj_listeners w;
     timers := v; pending := pending w; next_id := next_id w;
     log := log w |}.
Definition set_pending v w :=
  {| it_state := it_state w; it_uObj := it_uObj w; it_disposables := it_disposables w;
     it_waiters := it_waiters w; it_listeners := it_listeners w;
     d_state := d_state w; d_retryTimer := d_retryTimer w;
     d_disposables := d_disposables w; obj_listeners := obj_listeners w;
     timers := timers w; pending := v; next_id := next_id w;
     log := log w |}.
Definition set_next_id v w :=
  {| it_state := it_state w; it_uObj := it_uObj w; it_disposables := it_disposables w;
     it_waiters := it_waiters w; it_listeners := it_listeners w;
     d_state := d_state w; d_retryTimer := d_retryTimer w;
     d_disposables := d_disposables w; obj_listeners := obj_listeners w;
     timers := timers w; pending := pending w; next_id := v;
     log := log w |}.
Definition set_log v w :=
  {| it_state := it_state w; it_uObj := it_uObj w; it_disposables := it_disposables w;
     it_waiters := it_waiters w; it_listeners := it_listeners w;
     d_state := d_state w; d_retryTimer := d_retryTimer w;
     d_disposables := d_disposables w; obj_listeners := obj_listeners w;
     timers := timers w; pending := pending w; next_id := next_id w;
     log := v |}.

(** ** A state-and-exception monad for method bodies *)

Definition M (A : Type) : Type := World -> Outcome A * World.

Definition ret {A} (a : A) : M A := fun w => (Returns a, w).

Definition bind {A B} (m : M A) (k : A -> M B) : M B :=
  fun w =>
    match m w with
    | (Returns a, w') => k a w'
    | (Throws e, w') => (Throws e, w')
    end.

Definition throw {A} (e : Error) : M A := fun w => (Throws e, w).

(** [try { m } catch (err) { h err }] *)
Definition tryCatch {A} (m : M A) (h : Error -> M A) : M A :=
  fun w =>
    match m w with
    | (Returns a, w') => (Returns a, w')
    | (Throws e, w') => h e w'
    end.

Definition get : M World := fun w => (Returns w, w).

Definition modify (f : World -> World) : M unit := fun w => (Returns tt, f w).

Declare Scope m_scope.
Delimit Scope m_scope with M.
Notation "x <- m ;; k" := (bind m (fun x => k))
  (at level 61, m at next level, right associativity) : m_scope.
Notation "m ;; k" := (bind m (fun _ => k))
  (at level 61, right associativity) : m_scope.
Local Open Scope m_scope.

(** [for (const x of xs) body(x)] *)
Fixpoint forEach {A} (xs : list A) (body : A -> M unit) : M unit :=
  match xs with
  | [] => ret tt
  | x :: rest => body x ;; forEach rest body
  end.

Definition exec {A} (m : M A) (w : World) : World := snd (m w).

Definition tell (e : Effect) : M unit :=
  modify (fun w => set_log (log w ++ [e]) w).

Definition fresh : M nat :=
  fun w => (Returns (next_id w), set_next_id (S (next_id w)) w).

Definition assert (c : bool) (message : string) : M unit :=
  if c then ret tt else throw (AssertionError message).


(** The meta table of the test suite's FakeProcess (Daemon.test.ts). *)
Definition FakeProcess_meta : UnreliableMeta :=
  {| states :=
       {| init := "init"; starting := "starting"; startFailed := "start-failed";
          running := "running"; stopping := "stopping"; stopped := "stopped" |};
     stateConf :=
       {| startable := ["init"; "start-failed"; "stopped"];
          stoppable := ["running"; "stopping"];
          abortOnStartFailure := ["running"; "stopped"];
          abortOnDeath := ["starting"; "running"] |};
     eventHandlers := [];
     deathEvents := ["exit"];
     deathErrorClass := None |}.

(** Its [_stop()] emits [exit] on the handle. *)
Definition FakeProcess_stop : StopBehaviour := StopEmits "exit" [].

(** ** The build scripts: scripts/entry.ts and scripts/gen-exports.ts *)

(** File names are strings; [endsWith], [includes], [startsWith] and
    [substring] work position by position, so the alphabet plays no part. *)
Definition endsWith (s search : string) : bool :=
  (String.length search <=? String.length s)%nat &&
  String.eqb
    (substring (String.length s - String.length search) (String.length search) s)
    search.

Fixpoint includes (s search : string) : bool :=
  prefix search s ||
  match s with
  | EmptyString => false
  | String _ rest => includes rest search
  end.

Definition startsWith (s search : string) : bool := prefix search s.

(** [mods] of entry.ts, as a function of what [readdir(srcPrefix)] returned. *)
Definition mods (files : list string) : list string :=
  map (fun file => substring 0 (String.length file - String.length ".ts") file)
    (filter (fun file => endsWith file ".ts" && negb (includes file ".test.")) files).

(** One value of the [exports] object of package.json. *)
Record ExportTarget := {
  types : string;
  import : string;
  require : string }.

(** A JavaScript object with string keys, in insertion order. *)
Definition Exports := list (string * ExportTarget).

(** [o[key] = v] *)
Fixpoint obj_set (key : string) (v : ExportTarget) (o : Exports) : Exports :=
  match o with
  | [] => [(key, v)]
  | (k, x) :: rest =>
      if String.eqb k key then (k, v) :: rest else (k, x) :: obj_set key v rest
  end.

(** [delete o[key]] *)
Definition obj_delete (key : string) (o : Exports) : Exports :=
  filter (fun kv => negb (String.eqb (fst kv) key)) o.

(** [o[key]] *)
Definition obj_get (key : string) (o : Exports) : option ExportTarget :=
  option_map snd (find (fun kv => String.eqb (fst kv) key) o).

Section Paths.

(** [path.join] of two segments, from Node's [path/posix]. *)
Variable join : string -> string -> string.

Definition srcPrefix : string := "./src/".

Definition entry (files : list string) : list string :=
  map (fun mod_ => join srcPrefix (mod_ ++ ".ts")%string) (mods files).

Definition modPath (builtMod : string) : string :=
  let relPath := join "./build" builtMod in
  if startsWith relPath "./" then relPath else ("./" ++ relPath)%string.

(** The [exports] that [main] of gen-exports.ts writes back into
    package.json; the other fields of the file pass through unchanged. *)
Definition main (mods : list string) : Exports :=
  obj_delete "./index"
    (fold_left
       (fun exports mod_ =>
          obj_set ("./" ++ mod_)%string
            {| types := modPath (mod_ ++ ".d.ts")%string;
               import := modPath (mod_ ++ ".js")%string;
               require := modPath (mod_ ++ ".cjs")%string |}
            exports)
       mods
       [(".", {| types := "./build/index.d.ts";
                 import := "./build/index.js";
                 require := "./build/index.cjs" |})]).

(** The loop of [main] alone, and what it stores for one module. *)
Definition target (m : string) : ExportTarget :=
  {| types := modPath (m ++ ".d.ts")%string;
     import := modPath (m ++ ".js")%string;
     require := modPath (m ++ ".cjs")%string |}.

Definition collect (ms : list string) (o : Exports) : Exports :=
  fold_left (fun exports m => obj_set ("./" ++ m)%string (target m) exports) ms o.

End Paths.

(** The value of the key [.] of [exports]. *)
Definition root : ExportTarget :=
  {| types := "./build/index.d.ts";
     import := "./build/index.js";
     require := "./build/index.cjs" |}.

(** A target that Node resolves inside the package. *)
Definition relative (t : ExportTarget) : Prop :=
  startsWith (types t) "./" = true /\
  startsWith (import t) "./" = true /\
  startsWith (require t) "./" = true.
(** ** The broadcast/wait primitive and the timers *)

Section Supervisor.

(** The static [meta] of the Unreliable subclass, the behaviour of its
    [_stop()] hook, and the two options of the Daemon. *)
Variable meta : UnreliableMeta.
Variable stopHook : StopBehaviour.
Variable maxAttempt : Z.
Variable retryDelay : Z.

Definition startable_now (w : World) : bool :=
  has (startable (stateConf meta)) (it_state w).

Definition stoppable_now (w : World) : bool :=
  has (stoppable (stateConf meta)) (it_state w).

Definition dead (w : World) : bool :=
  DaemonStatus.eqb (d_state w) DaemonStatus.DEAD.

Definition waiting_on (event : string) (ws : list (string * nat)) : list nat :=
  map snd (filter (fun x => String.eqb (fst x) event) ws).

Definition not_waiting_on (event : string) (ws : list (string * nat)) :=
  filter (fun x => negb (String.eqb (fst x) event)) ws.

Definition clearTimeout (timer : nat) : M unit :=
  modify (fun w =>
    set_timers (filter (fun x => negb (Nat.eqb (fst x) timer)) (timers w)) w) ;;
  tell (ClearTimeout timer).

(** [setTimeout(() => { this._retryTimer = null; this._start(nthAttempt) }, delay)]:
    the only callback the code ever arms, so a live timer is its identity
    and the [nthAttempt] its closure captured. *)
Definition setTimeout (nth : Z) (delay : Z) : M nat :=
  timer <- fresh ;;
  modify (fun w => set_timers (timers w ++ [(timer, nth)]) w) ;;
  tell (SetTimeout timer nth delay) ;;
  ret timer.

(** Modelled from the spec: the EventBarrier base class of both objects,
    which the repository imports from another package.  [notify] resolves
    every waiter of the event and calls the event's listeners before it
    returns; [abort] rejects every waiter of one event, [abortAll] of all
    events; [waitFor] registers one waiter.  The Daemon's own waiters play
    no part in what follows, so its [notify] and [abort] only leave their
    mark in the trace. *)
Definition D_notify (event : DaemonEvents.t) (arg : EventArgs.t) : M unit :=
  w <- get ;;
  tell (DNotify event arg (d_state w)).

Definition D_abort (event : DaemonEvents.t) (err : StartFailureError) : M unit :=
  tell (DAbort event err).

Definition D_assign (status : DaemonStatus.t) : M unit :=
  modify (set_d_state status) ;;
  tell (DAssign status).

Definition It_abort (event : string) (err : Error) : M unit :=
  w <- get ;;
  modify (set_it_waiters (not_waiting_on event (it_waiters w))) ;;
  tell (ItAbort event err (waiting_on event (it_waiters w))).

Definition It_abortAll (err : Error) : M unit :=
  w <- get ;;
  modify (set_it_waiters []) ;;
  tell (ItAbortAll err (map snd (it_waiters w))).

Definition It_waitFor (event : string) : M nat :=
  waiter <- fresh ;;
  modify (fun w => set_it_waiters (it_waiters w ++ [(event, waiter)]) w) ;;
  ret waiter.

(** ** Daemon.ts, the parts that never suspend *)

(** [dispose()] of a [once(it, event, handler)]. *)
Definition D_dispose (d : nat * string) : M unit :=
  modify (fun w =>
    set_it_listeners
      (filter (fun l => negb (Nat.eqb (fst l) (fst d))) (it_listeners w)) w) ;;
  tell (DDispose (fst d)).

Definition clearRetryTimer : M unit :=
  w <- get ;;
  match d_retryTimer w with
  | Some timer => clearTimeout timer ;; modify (set_d_retryTimer None)
  | None => ret tt
  end.

Definition D__cleanUp : M unit :=
  w <- get ;;
  forEach (d_disposables w) D_dispose ;;
  modify (set_d_disposables []) ;;
  clearRetryTimer.

Definition D__scheduleRetry (nth : Z) : M unit :=
  w <- get ;;
  match d_retryTimer w with
  | Some timer => clearTimeout timer
  | None => ret tt
  end ;;
  D_notify DaemonEvents.RETRY_SCHEDULED (EventArgs.RetryScheduled nth retryDelay) ;;
  D_assign DaemonStatus.RETRY_SCHEDULED ;;
  timer <- setTimeout nth retryDelay ;;
  modify (set_d_retryTimer (Some timer)).

(** The callback [_start] registers once on the resource's [stopped] state. *)
Definition D_onStopped : M unit :=
  D__cleanUp ;;
  w <- get ;;
  if dead w then ret tt else D__scheduleRetry 1.

(** ** Unreliable.ts *)

(** [it.emit(event, ...)] as [notify] performs it: the listeners on [it]
    are the daemon's [once] callbacks; the list is copied before the first
    one runs, and each is unregistered just before it is called. *)
Definition It_emit (event : string) : M unit :=
  w <- get ;;
  forEach (filter (fun l => String.eqb (snd l) event) (it_listeners w))
    (fun l =>
       modify (fun w' =>
         set_it_listeners
           (filter (fun l' => negb (Nat.eqb (fst l') (fst l))) (it_listeners w')) w') ;;
       D_onStopped).

Definition It_notify (state : string) (change : StateChange) : M unit :=
  w <- get ;;
  modify (set_it_waiters (not_waiting_on state (it_waiters w))) ;;
  tell (ItNotify state change (it_state w) (waiting_on state (it_waiters w))) ;;
  It_emit state.

Definition It__setState (newState : string) (extra : Extra) : M unit :=
  w <- get ;;
  It_notify newState {| oldState := it_state w; extra := extra |} ;;
  modify (set_it_state newState) ;;
  tell (ItAssign newState).

Definition It_setObj (obj : option Handle) : M unit :=
  modify (set_it_uObj obj) ;;
  tell (ItObj obj).

(** [disposables.push(on(obj, event, handler))] *)
Definition It_on (obj : Handle) (event : string) (handler : Handler) : M unit :=
  id <- fresh ;;
  let sub := {| s_id := id; s_obj := obj; s_event := event; s_handler := handler |} in
  modify (fun w => set_obj_listeners (obj_listeners w ++ [sub]) w) ;;
  modify (fun w => set_it_disposables (it_disposables w ++ [sub]) w) ;;
  tell (ItOn sub).

Definition It_dispose (sub : Sub) : M unit :=
  modify (fun w =>
    set_obj_listeners
      (filter (fun s => negb (Nat.eqb (s_id s) (s_id sub))) (obj_listeners w)) w) ;;
  tell (ItDispose (s_id sub)).

Definition It__onError (args : list Arg) : M unit :=
  It_abortAll (EmittedError (hd_error args)).

Definition It__onDeath (reason : list Arg) : M unit :=
  w <- get ;;
  let err := UnreliableDeathError (deathErrorClass meta) (it_uObj w) reason in
  It__setState (stopped (states meta)) (StopReason reason) ;;
  It_setObj None ;;
  w' <- get ;;
  forEach (it_disposables w') It_dispose ;;
  modify (set_it_disposables []) ;;
  forEach (abortOnDeath (stateConf meta)) (fun event => It_abort event err).

(** A method named in [eventHandlers] is looked up on the instance when the
    listener is attached; its body is code of the subclass, and the trace
    records the call and no more.  What such a method does when it runs
    (it may be any method, one of the base class as well) is outside the
    embedding: the properties of [stop()] that depend on the listeners of
    an emitted event take events to which none is bound. *)
Definition run_handler (h : Handler) (args : list Arg) : M unit :=
  match h with
  | OnError => It__onError args
  | OnDeath => It__onDeath args
  | Method name => tell (ItMethod name args)
  end.

(** [obj.emit(event, ...args)]: the listeners registered at the time of the
    call, in registration order. *)
Definition Obj_emit (obj : Handle) (event : string) (args : list Arg) : M unit :=
  w <- get ;;
  forEach
    (filter (fun s => Nat.eqb (s_obj s) obj && String.eqb (s_event s) event)
       (obj_listeners w))
    (fun s => run_handler (s_handler s) args).

Definition It__stop : M unit :=
  tell ItStopHook ;;
  match stopHook with
  | StopReturns => ret tt
  | StopThrows e => throw e
  | StopEmits event args =>
      w <- get ;;
      match it_uObj w with
      | Some obj => Obj_emit obj event args
      | None => ret tt
      end
  end.

Definition It_stop : M unit :=
  w <- get ;;
  assert (stoppable_now w) ("Cannot stop in state: " ++ it_state w)%string ;;
  assert (match it_uObj w with Some _ => true | None => false end) "Invalid state" ;;
  It__setState (stopping (states meta)) NoExtra ;;
  It__stop.

(** [Unreliable._start] up to [await this._createAndCheck()]. *)
Definition It__start_head (task : nat) : M unit :=
  w <- get ;;
  assert (startable_now w) "Not startable" ;;
  assert (match it_uObj w with Some _ => false | None => true end) "Invalid state" ;;
  It__setState (starting (states meta)) NoExtra ;;
  tell (ItCreateAndCheck task).

(** [Unreliable._start] from the point where [_createAndCheck()] settles. *)
Definition It__start_tail (r : Outcome Handle) : M Handle :=
  match r with
  | Throws e => throw e
  | Returns obj =>
      It_setObj (Some obj) ;;
      It__setState (running (states meta)) NoExtra ;;
      It_on obj "error" OnError ;;
      forEach (deathEvents meta) (fun deathEvent => It_on obj deathEvent OnDeath) ;;
      forEach (eventHandlers meta) (fun eh => It_on obj (fst eh) (Method (snd eh))) ;;
      ret obj
  end.

(** [Unreliable.start] from the point where [this._start()] settles. *)
Definition It_start_tail (r : Outcome Handle) : M unit :=
  match r with
  | Returns _ => ret tt
  | Throws err =>
      forEach (abortOnStartFailure (stateConf meta)) (fun event => It_abort event err) ;;
      It__setState (startFailed (states meta)) (StartFailureReason err) ;;
      throw err
  end.

(** A call of [it.start()]: it runs [_start] to its first suspension point
    and leaves the rest as a pending task of the caller. *)
Definition It_start (caller : Caller) : M unit :=
  task <- fresh ;;
  fun w =>
    let '(r, w') := It__start_head task w in
    let stage :=
      match r with
      | Returns _ => AwaitCreate
      | Throws e => AwaitStart (Throws e)
      end in
    (Returns tt,
     set_pending
       (pending w' ++ [{| t_id := task; t_caller := caller; t_stage := stage |}]) w').

(** What [waitForState] hands back: [undefined] at once, or the promise of
    a registered waiter. *)
Inductive Waited :=
| Undefined
| Awaiting (waiter : nat).

Definition It_waitForState (dstState : string) : M Waited :=
  w <- get ;;
  if String.eqb (it_state w) dstState then ret Undefined
  else waiter <- It_waitFor dstState ;; ret (Awaiting waiter).

(** ** Daemon.ts, the attempt loop *)

(** [Daemon._start] up to [await it.start()]. *)
Definition D__start (nth : Z) : M unit :=
  w <- get ;;
  if dead w then ret tt
  else
    clearRetryTimer ;;
    D__cleanUp ;;
    D_notify DaemonEvents.STARTING (EventArgs.Starting nth) ;;
    D_assign DaemonStatus.STARTING ;;
    It_start (ByDaemon nth).

(** [Daemon._start] from the point where [it.start()] settles. *)
Definition D__start_tail (nth : Z) (r : Outcome unit) : M unit :=
  match r with
  | Returns _ =>
      D_notify DaemonEvents.RUNNING EventArgs.Running ;;
      D_assign DaemonStatus.RUNNING ;;
      id <- fresh ;;
      let l := (id, stopped (states meta)) in
      modify (fun w => set_it_listeners (it_listeners w ++ [l]) w) ;;
      modify (fun w => set_d_disposables (d_disposables w ++ [l]) w) ;;
      tell (DOnce id (stopped (states meta)))
  | Throws err =>
      w <- get ;;
      (if stoppable_now w then tryCatch It_stop (fun _ => ret tt) else ret tt) ;;
      if nth >=? maxAttempt then
        let startFailure := {| cause := err; nthAttempt := nth; retryIn := -1 |} in
        D_notify DaemonEvents.START_FAILED (EventArgs.StartFailed startFailure) ;;
        D_assign DaemonStatus.DEAD ;;
        D_abort DaemonEvents.RUNNING startFailure
      else
        w' <- get ;;
        if dead w' then ret tt
        else
          D_notify DaemonEvents.START_FAILED
            (EventArgs.StartFailed
               {| cause := err; nthAttempt := nth; retryIn := retryDelay |}) ;;
          D__scheduleRetry (nth + 1)
  end.

Definition D_start : M unit :=
  D_assign DaemonStatus.INIT ;;
  D__start 1.

Definition D_stop : M unit :=
  D_assign DaemonStatus.DEAD ;;
  D__cleanUp ;;
  clearRetryTimer ;;
  tryCatch It_stop (fun _ => ret tt).

Definition D_waitForDeath : M Waited :=
  w <- get ;;
  if stoppable_now w then It_waitForState (stopped (states meta))
  else ret Undefined.

(** ** The transition system *)

Inductive Event :=
| CallDaemonStart
| CallDaemonStop
| CallItStart
| CallItStop
| CallWaitForState (dstState : string)
| Settle (task : nat) (r : Outcome Handle)
| Resume (task : nat)
| TimerFires (timer : nat)
| Emit (obj : Handle) (event : string) (args : list Arg).

Definition find_task (task : nat) (w : World) : option Task :=
  find (fun t => Nat.eqb (t_id t) task) (pending w).

Definition remove_task (task : nat) (w : World) : World :=
  set_pending (filter (fun t => negb (Nat.eqb (t_id t) task)) (pending w)) w.

Definition set_stage (task : nat) (stage : Stage) (w : World) : World :=
  set_pending
    (map (fun t =>
            if Nat.eqb (t_id t) task
            then {| t_id := t_id t; t_caller := t_caller t; t_stage := stage |}
            else t)
       (pending w)) w.

Definition find_timer (timer : nat) (w : World) : option Z :=
  option_map snd (find (fun x => Nat.eqb (fst x) timer) (timers w)).

Definition remove_timer (timer : nat) (w : World) : World :=
  set_timers (filter (fun x => negb (Nat.eqb (fst x) timer)) (timers w)) w.

(** One uninterrupted run of code.  An event that is not enabled (no such
    task or timer) leaves the world as it is. *)
Definition step (ev : Event) (w : World) : World :=
  match ev with
  | CallDaemonStart => exec D_start w
  | CallDaemonStop => exec D_stop w
  | CallItStart => exec (It_start ByUser) w
  | CallItStop => exec (tryCatch It_stop (fun e => tell (ItThrown e))) w
  | CallWaitForState dstState => exec (It_waitForState dstState) w
  | Settle task r =>
      match find_task task w with
      | Some t =>
          match t_stage t with
          | AwaitCreate =>
              let '(r', w') := It__start_tail r w in
              set_stage task (AwaitStart r') w'
          | _ => w
          end
      | None => w
      end
  | Resume task =>
      match find_task task w with
      | Some t =>
          match t_stage t with
          | AwaitCreate => w
          | AwaitStart r =>
              let '(r', w') := It_start_tail r w in
              set_stage task (AwaitCaller r') w'
          | AwaitCaller r =>
              match t_caller t with
              | ByDaemon nth => exec (D__start_tail nth r) (remove_task task w)
              | ByUser => exec (tell (ItSettled task r)) (remove_task task w)
              end
          end
      | None => w
      end
  | TimerFires timer =>
      match find_timer timer w with
      | Some nth =>
          exec (modify (set_d_retryTimer None) ;; D__start nth) (remove_timer timer w)
      | None => w
      end
  | Emit obj event args => exec (Obj_emit obj event args) w
  end.

Definition run (evs : list Event) (w : World) : World :=
  fold_left (fun w ev => step ev w) evs w.

(** The two objects as their constructors leave them. *)
Definition new_world : World :=
  {| it_state := init (states meta); it_uObj := None; it_disposables := [];
     it_waiters := []; it_listeners := [];
     d_state := DaemonStatus.INIT; d_retryTimer := None; d_disposables := [];
     obj_listeners := []; timers := []; pending := []; next_id := 0%nat;
     log := [] |}.


(** * What the properties speak about *)

(** A method keeps an invariant. *)
Definition keeps (I : World -> Prop) {A} (m : M A) : Prop :=
  forall w, I w -> I (snd (m w)).

(** Code that always returns. *)
Definition never_throws {A} (m : M A) : Prop :=
  forall w, exists a, m w = (Returns a, exec m w).

(** The listeners and subscriptions that survive a round of [dispose()]. *)
Definition undisposed (ds : list (nat * string)) (l : nat * string) : bool :=
  negb (existsb (Nat.eqb (fst l)) (map fst ds)).

Definition undisposed_sub (subs : list Sub) (s : Sub) : bool :=
  negb (existsb (Nat.eqb (s_id s)) (map s_id subs)).

(** The world right after [notify] has recorded a broadcast and resolved
    its waiters, before the listeners run. *)
Definition broadcast (s : string) (x : Extra) (w : World) : World :=
  set_log
    (log w ++
     [ItNotify s {| oldState := it_state w; extra := x |} (it_state w)
        (waiting_on s (it_waiters w))])
    (set_it_waiters (not_waiting_on s (it_waiters w)) w).

(** The [_retryTimer] field names every live timer. *)
Definition timer_inv (w : World) : Prop :=
  map fst (timers w) =
  match d_retryTimer w with Some timer => [timer] | None => [] end.

(** Every listener still registered on [it] is among the daemon's
    disposables. *)
Definition listeners_inv (w : World) : Prop :=
  forall l, In l (it_listeners w) -> In (fst l) (map fst (d_disposables w)).

(** Nothing of the daemon is armed: no timer, no listener. *)
Definition disarmed (w : World) : Prop :=
  it_listeners w = [] /\ timers w = [] /\ d_retryTimer w = None.

(** Effects of the Daemon's own code. *)
Definition daemon_effect (e : Effect) : Prop :=
  match e with
  | DNotify _ _ _ | DAssign _ | DAbort _ _ | DOnce _ _ | DDispose _
  | SetTimeout _ _ _ | ClearTimeout _ => True
  | _ => False
  end.

(** What code of the Daemon leaves alone: every field of the Unreliable,
    the listeners on the handles and the pending calls; the trace only
    grows by daemon effects. *)
Definition it_frame (w0 w : World) : Prop :=
  it_state w = it_state w0 /\
  it_uObj w = it_uObj w0 /\
  it_disposables w = it_disposables w0 /\
  it_waiters w = it_waiters w0 /\
  obj_listeners w = obj_listeners w0 /\
  pending w = pending w0 /\
  exists L, log w = log w0 ++ L /\ Forall daemon_effect L.

(** [for (const event of events) this.abort(event, err)] on the waiters
    [ws]: the trace it leaves and the waiters that remain. *)
Fixpoint abort_trace (events : list string) (err : Error) (ws : list (string * nat))
  : list Effect :=
  match events with
  | [] => []
  | event :: rest =>
      ItAbort event err (waiting_on event ws)
      :: abort_trace rest err (not_waiting_on event ws)
  end.

Fixpoint after_aborts (events : list string) (ws : list (string * nat))
  : list (string * nat) :=
  match events with
  | [] => ws
  | event :: rest => after_aborts rest (not_waiting_on event ws)
  end.

(** The listeners of [event] on the handle [obj]. *)
Definition listening (obj : Handle) (event : string) (w : World) : list Sub :=
  filter (fun s => Nat.eqb (s_obj s) obj && String.eqb (s_event s) event)
    (obj_listeners w).

(** Identifiers of pending calls are older than the next fresh one, and
    no two pending calls share one. *)
Definition tasks_fresh (w : World) : Prop :=
  forall t, In t (pending w) -> (t_id t < next_id w)%nat.

(** The trace only grows. *)
Definition log_grows (w0 w : World) : Prop :=
  exists d, log w = log w0 ++ d.

(** Effects of [_cleanUp]. *)
Definition cleanup_effect (e : Effect) : Prop :=
  match e with
  | DDispose _ | ClearTimeout _ => True
  | _ => False
  end.

(** A broadcast of [retry-scheduled] for an attempt other than [nth]. *)
Definition retry_for_other (nth : Z) (e : Effect) : Prop :=
  match e with
  | DNotify DaemonEvents.RETRY_SCHEDULED (EventArgs.RetryScheduled n _) _ => n <> nth
  | _ => False
  end.

(** The daemon has scheduled a retry at attempt [nth] since [w0]: the
    status, the one live timer and the broadcast agree on it, and no other
    attempt number was announced on the way. *)
Definition retry_armed (nth : Z) (w0 w : World) : Prop :=
  d_state w = DaemonStatus.RETRY_SCHEDULED /\
  d_disposables w = [] /\
  (exists timer, d_retryTimer w = Some timer /\ timers w = [(timer, nth)]) /\
  exists d,
    log w = log w0 ++ d /\
    (exists seen,
       In (DNotify DaemonEvents.RETRY_SCHEDULED
             (EventArgs.RetryScheduled nth retryDelay) seen) d) /\
    Forall (fun e => ~ retry_for_other nth e) d.

Definition alive (w : World) : Prop := dead w = false.

(** The best-effort [it.stop()] that opens the catch block of
    [Daemon._start]. *)
Definition best_effort_stop : M unit :=
  w <- get ;;
  if stoppable_now w then tryCatch It_stop (fun _ => ret tt) else ret tt.

(** What [it.emit] does with one [once] listener: unregister it, call it. *)
Definition once_body (l : nat * string) : M unit :=
  modify (fun w' =>
    set_it_listeners
      (filter (fun l' => negb (Nat.eqb (fst l') (fst l))) (it_listeners w')) w') ;;
  D_onStopped.


(** [_start] of a daemon that is not dead, up to the call of [it.start()]. *)
Definition announced (nth : Z) (w : World) : World :=
  let w2 := exec D__cleanUp (exec clearRetryTimer w) in
  set_log
    (log w2 ++
     [DNotify DaemonEvents.STARTING (EventArgs.Starting nth) (d_state w2);
      DAssign DaemonStatus.STARTING])
    (set_d_state DaemonStatus.STARTING w2).


(** What an observer of the daemon sees, without the causes of failures:
    its broadcasts and the values its status takes. *)
Inductive Seen :=
| SawStarting (nth : Z)
| SawStartFailed (nth : Z) (retryIn : Z)
| SawRunning
| SawRetryScheduled (nth : Z) (delay : Z)
| SawStatus (s : DaemonStatus.t).

Definition observe (e : Effect) : option Seen :=
  match e with
  | DNotify _ (EventArgs.Starting n) _ => Some (SawStarting n)
  | DNotify _ (EventArgs.StartFailed f) _ =>
      Some (SawStartFailed (nthAttempt f) (retryIn f))
  | DNotify _ EventArgs.Running _ => Some SawRunning
  | DNotify _ (EventArgs.RetryScheduled n d) _ => Some (SawRetryScheduled n d)
  | DAssign s => Some (SawStatus s)
  | _ => None
  end.

Fixpoint observations (l : list Effect) : list Seen :=
  match l with
  | [] => []
  | e :: rest =>
      match observe e with
      | Some s => s :: observations rest
      | None => observations rest
      end
  end.

(** The broadcasts alone. *)
Fixpoint broadcasts (l : list Effect) : list (DaemonEvents.t * EventArgs.t) :=
  match l with
  | [] => []
  | DNotify ev arg _ :: rest => (ev, arg) :: broadcasts rest
  | _ :: rest => broadcasts rest
  end.

Definition is_start_failed (s : Seen) : bool :=
  match s with SawStartFailed _ _ => true | _ => false end.

(** What is seen when attempt [nth] and the [more] attempts after it all
    fail. *)
Fixpoint failing_trace (more : nat) (nth : Z) : list Seen :=
  match more with
  | O =>
      [SawStarting nth; SawStatus DaemonStatus.STARTING;
       SawStartFailed nth (-1); SawStatus DaemonStatus.DEAD]
  | S more' =>
      [SawStarting nth; SawStatus DaemonStatus.STARTING;
       SawStartFailed nth retryDelay;
       SawRetryScheduled (nth + 1) retryDelay;
       SawStatus DaemonStatus.RETRY_SCHEDULED]
      ++ failing_trace more' (nth + 1)
  end.

(** The environment of a resource that cannot be created: every pending
    [_createAndCheck()] fails, with [fail task]; suspended calls resume;
    a live timer fires when nothing else is left to do. *)
Definition next_event (fail : nat -> Error) (w : World) : option Event :=
  match pending w with
  | t :: _ =>
      match t_stage t with
      | AwaitCreate => Some (Settle (t_id t) (Throws (fail (t_id t))))
      | _ => Some (Resume (t_id t))
      end
  | [] =>
      match timers w with
      | (timer, _) :: _ => Some (TimerFires timer)
      | [] => None
      end
  end.

Fixpoint drive (fail : nat -> Error) (fuel : nat) (w : World) : World :=
  match fuel with
  | O => w
  | S fuel' =>
      match next_event fail w with
      | Some ev => drive fail fuel' (step ev w)
      | None => w
      end
  end.

(** Between two attempts of a resource that was never created. *)
Definition idle (w : World) : Prop :=
  pending w = [] /\ it_listeners w = [] /\ it_uObj w = None /\
  d_disposables w = [].

(** The daemon has given up and nothing of it is left in the runtime. *)
Definition given_up (w : World) : Prop :=
  dead w = true /\ disarmed w /\
  forall t, In t (pending w) -> t_caller t = ByUser.

(** A daemon whose resource was never created, between two reactions:
    the pending calls, the daemon's status, its timer field, the live
    timers and what has been seen so far. *)
Definition resting (ts : list Task) (ds : DaemonStatus.t) (field : option nat)
    (live : list (nat * Z)) (obs : list Seen) (w : World) : Prop :=
  pending w = ts /\ it_listeners w = [] /\ it_uObj w = None /\
  d_disposables w = [] /\ d_state w = ds /\ d_retryTimer w = field /\
  timers w = live /\ observations (log w) = obs.

(** The catch block of [Daemon._start] after the best-effort stop. *)
Definition give_up_or_retry (nth : Z) (err : Error) : M unit :=
  if nth >=? maxAttempt then
    let startFailure := {| cause := err; nthAttempt := nth; retryIn := -1 |} in
    D_notify DaemonEvents.START_FAILED (EventArgs.StartFailed startFailure) ;;
    D_assign DaemonStatus.DEAD ;;
    D_abort DaemonEvents.RUNNING startFailure
  else
    w' <- get ;;
    if dead w' then ret tt
    else
      D_notify DaemonEvents.START_FAILED
        (EventArgs.StartFailed
           {| cause := err; nthAttempt := nth; retryIn := retryDelay |}) ;;
      D__scheduleRetry (nth + 1).

(** The daemon has given up, and has broadcast [said] so far. *)
Definition silent (said : list (DaemonEvents.t * EventArgs.t)) (w : World) : Prop :=
  given_up w /\ broadcasts (log w) = said.

(** ** Broadcasts and the fields behind the getters *)

(** The status a daemon broadcast announces. *)
Definition status_of (ev : DaemonEvents.t) : option DaemonStatus.t :=
  match ev with
  | DaemonEvents.STARTING => Some DaemonStatus.STARTING
  | DaemonEvents.RUNNING => Some DaemonStatus.RUNNING
  | DaemonEvents.RETRY_SCHEDULED => Some DaemonStatus.RETRY_SCHEDULED
  | _ => None
  end.

(** A listener that runs inside the broadcast of a transition and reads the
    getter there reads the value the broadcast announces. *)
Definition reads_new (e : Effect) : Prop :=
  match e with
  | DNotify ev _ seen =>
      match status_of ev with Some s => seen = s | None => True end
  | ItNotify state _ seen _ => seen = state
  | _ => True
  end.

(** In a stretch of trace, every daemon broadcast that announces a status
    is followed by the assignment of that status before the daemon does
    anything else.  [expect] is the assignment still owed. *)
Fixpoint d_paired (expect : option DaemonStatus.t) (l : list Effect) : bool :=
  match l with
  | [] => match expect with None => true | Some _ => false end
  | e :: rest =>
      match e with
      | DNotify ev _ _ =>
          match expect with
          | None => d_paired (status_of ev) rest
          | Some _ => false
          end
      | DAssign s' =>
          match expect with
          | None => d_paired None rest
          | Some s => DaemonStatus.eqb s s' && d_paired None rest
          end
      | DAbort _ _ | DOnce _ _ | DDispose _ | SetTimeout _ _ _ | ClearTimeout _ =>
          match expect with
          | None => d_paired None rest
          | Some _ => false
          end
      | _ => d_paired expect rest
      end
  end.

(** Likewise for the Unreliable: every broadcast of a state is followed by
    the assignment of that state before the Unreliable does anything else,
    and a listener of the broadcast reads the [oldState] of its payload. *)
Fixpoint it_paired (expect : option string) (l : list Effect) : bool :=
  match l with
  | [] => match expect with None => true | Some _ => false end
  | e :: rest =>
      match e with
      | ItNotify s change seen _ =>
          match expect with
          | None => String.eqb seen (oldState change) && it_paired (Some s) rest
          | Some _ => false
          end
      | ItAssign s' =>
          match expect with
          | None => it_paired None rest
          | Some s => String.eqb s s' && it_paired None rest
          end
      | DNotify _ _ _ | DAssign _ | DAbort _ _ | DOnce _ _ | DDispose _
      | SetTimeout _ _ _ | ClearTimeout _ => it_paired expect rest
      | _ =>
          match expect with
          | None => it_paired None rest
          | Some _ => false
          end
      end
  end.

(** Every listener that reads a getter inside a broadcast reads the value
    assigned last, starting from the status [ds] and the state [st]; the
    payload of an Unreliable broadcast carries that same value as its
    [oldState]. *)
Fixpoint reads_current (ds : DaemonStatus.t) (st : string) (l : list Effect) : Prop :=
  match l with
  | [] => True
  | DNotify _ _ seen :: rest => seen = ds /\ reads_current ds st rest
  | DAssign s :: rest => reads_current s st rest
  | ItNotify _ change seen _ :: rest =>
      seen = st /\ oldState change = st /\ reads_current ds st rest
  | ItAssign s :: rest => reads_current ds s rest
  | _ :: rest => reads_current ds st rest
  end.

Fixpoint last_status (ds : DaemonStatus.t) (l : list Effect) : DaemonStatus.t :=
  match l with
  | [] => ds
  | DAssign s :: rest => last_status s rest
  | _ :: rest => last_status ds rest
  end.

Fixpoint last_state (st : string) (l : list Effect) : string :=
  match l with
  | [] => st
  | ItAssign s :: rest => last_state s rest
  | _ :: rest => last_state st rest
  end.

(** The stretch of trace [L] between two worlds: broadcasts are paired
    with their assignments, listeners read what was assigned last, and the
    two fields end up as the trace says. *)
Definition orderly (w0 w : World) (L : list Effect) : Prop :=
  log w = log w0 ++ L /\
  d_paired None L = true /\
  it_paired None L = true /\
  reads_current (d_state w0) (it_state w0) L /\
  d_state w = last_status (d_state w0) L /\
  it_state w = last_state (it_state w0) L.

Definition paired_since (w0 w : World) : Prop :=
  exists L, orderly w0 w L.

Definition d_paired_since (w0 w : World) : Prop :=
  exists L, orderly w0 w L /\ Forall daemon_effect L.

(** The handle [obj] has an [_onDeath] listener for [event], and the
    Unreliable holds its disposable. *)
Definition death_watched (obj : Handle) (event : string) (w : World) : Prop :=
  exists sub,
    In sub (listening obj event w) /\ In sub (it_disposables w) /\
    s_handler sub = OnDeath.

(** ** The rest of the two classes *)

(** No start attempt of the daemon is suspended. *)
Definition user_only (w : World) : Prop :=
  forall t, In t (pending w) -> t_caller t = ByUser.

(** The Unreliable after a death: stopped, no handle, nothing to dispose. *)
Definition laid_to_rest (w : World) : Prop :=
  it_state w = stopped (states meta) /\ it_uObj w = None /\
  it_disposables w = [].

(** The listeners on handles are the subscriptions the Unreliable holds,
    and it holds none while it has no handle. *)
Definition subscriptions_held (w : World) : Prop :=
  obj_listeners w = it_disposables w /\
  (it_uObj w = None -> it_disposables w = []).

(** What code of the Unreliable leaves alone while the daemon has no
    callback registered on it: the daemon's fields, the timers and the
    pending calls; the trace grows without a daemon broadcast. *)
Definition d_frame (w0 w : World) : Prop :=
  it_listeners w = [] /\
  d_state w = d_state w0 /\ d_retryTimer w = d_retryTimer w0 /\
  d_disposables w = d_disposables w0 /\ timers w = timers w0 /\
  pending w = pending w0 /\
  exists L, log w = log w0 ++ L /\ broadcasts L = [].

(** While the status is [running] the daemon has its [stopped] callback on
    the Unreliable. *)
Definition supervised (w : World) : Prop :=
  d_state w = DaemonStatus.RUNNING ->
  exists l, In l (it_listeners w) /\ snd l = stopped (states meta).

Definition not_running (w : World) : Prop :=
  d_state w <> DaemonStatus.RUNNING.

(** Attempt numbers lie between 1 and [maxAttempt]; a [start-failed]
    carries [retryIn = -1] on the last attempt and [retryDelay] before. *)
Definition in_range (n : Z) : Prop := 1 <= n <= maxAttempt.

Definition numbered (e : Effect) : Prop :=
  match e with
  | DNotify _ (EventArgs.Starting n) _ => in_range n
  | DNotify _ (EventArgs.RetryScheduled n _) _ => in_range n
  | DNotify _ (EventArgs.StartFailed f) _ =>
      in_range (nthAttempt f) /\
      (retryIn f = -1 /\ nthAttempt f = maxAttempt \/
       retryIn f = retryDelay /\ nthAttempt f < maxAttempt)
  | SetTimeout _ n _ => in_range n
  | _ => True
  end.

Definition bounded (w : World) : Prop :=
  Forall numbered (log w) /\
  (forall timer n, In (timer, n) (timers w) -> in_range n) /\
  (forall t n, In t (pending w) -> t_caller t = ByDaemon n -> in_range n).

(** Every listener of [event] on the handle [obj] is one of the two
    handlers of the base class: no method named in [eventHandlers] is bound
    to that event. *)
Definition base_handled (obj : Handle) (event : string) (w : World) : Prop :=
  forall s, In s (listening obj event w) ->
    s_handler s = OnDeath \/ s_handler s = OnError.

(** What can happen without a call from outside: a pending hook settles, a
    suspended call resumes, a timer fires, a handle emits. *)
Definition spontaneous (ev : Event) : Prop :=
  match ev with
  | Settle _ _ | Resume _ | TimerFires _ | Emit _ _ _ => True
  | _ => False
  end.

(** * Reasoning about method bodies *)

(** ** Invariants carried through monadic code *)

Section Keeps.

Variable I : World -> Prop.

Lemma keeps_ret {A} (a : A) : keeps I (ret a).
Proof. intros w H; exact H. Qed.

Lemma keeps_throw {A} (e : Error) : keeps I (@throw A e).
Proof. intros w H; exact H. Qed.

Lemma keeps_get : keeps I get.
Proof. intros w H; exact H. Qed.

Lemma keeps_bind {A B} (m : M A) (k : A -> M B) :
  keeps I m -> (forall a, keeps I (k a)) -> keeps I (bind m k).
Proof.
  intros Hm Hk w H. unfold bind.
  specialize (Hm w H). destruct (m w) as [[a | e] w']; simpl in *.
  - apply Hk, Hm.
  - exact Hm.
Qed.

Lemma keeps_tryCatch {A} (m : M A) (h : Error -> M A) :
  keeps I m -> (forall e, keeps I (h e)) -> keeps I (tryCatch m h).
Proof.
  intros Hm Hh w H. unfold tryCatch.
  specialize (Hm w H). destruct (m w) as [[a | e] w']; simpl in *.
  - exact Hm.
  - apply Hh, Hm.
Qed.

Lemma keeps_forEach {A} (xs : list A) (body : A -> M unit) :
  (forall x, keeps I (body x)) -> keeps I (forEach xs body).
Proof.
  intros Hb. induction xs as [| x xs IH]; simpl.
  - apply keeps_ret.
  - apply keeps_bind; [apply Hb | intros _; exact IH].
Qed.

Lemma keeps_modify (f : World -> World) :
  (forall w, I w -> I (f w)) -> keeps I (modify f).
Proof. intros Hf w H; simpl; auto. Qed.

Lemma keeps_assert (c : bool) (msg : string) : keeps I (assert c msg).
Proof. destruct c; [apply keeps_ret | apply keeps_throw]. Qed.

Lemma keeps_exec {A} (m : M A) (w : World) : keeps I m -> I w -> I (exec m w).
Proof. intros Hm H; apply Hm, H. Qed.

Lemma keeps_It_start (caller : Caller) :
  (forall w n, I w -> I (set_next_id n w)) ->
  (forall w p, I w -> I (set_pending p w)) ->
  (forall task, keeps I (It__start_head task)) ->
  keeps I (It_start caller).
Proof.
  intros Hn Hp Hh w H. unfold It_start, bind, fresh.
  specialize (Hh (next_id w) _ (Hn w (S (next_id w)) H)).
  destruct (It__start_head (next_id w) (set_next_id (S (next_id w)) w)) as [r w'].
  simpl in *. apply Hp, Hh.
Qed.

(** An invariant that every method keeps is kept by every step. *)
Lemma keeps_every_step :
  (forall w task stage, I w -> I (set_stage task stage w)) ->
  (forall w task, I w -> I (remove_task task w)) ->
  keeps I D_start ->
  keeps I D_stop ->
  (forall caller, keeps I (It_start caller)) ->
  keeps I It_stop ->
  (forall e, keeps I (tell (ItThrown e))) ->
  (forall task r, keeps I (tell (ItSettled task r))) ->
  (forall dst, keeps I (It_waitForState dst)) ->
  (forall r, keeps I (It__start_tail r)) ->
  (forall r, keeps I (It_start_tail r)) ->
  (forall nth r, keeps I (D__start_tail nth r)) ->
  (forall timer nth w, I w -> find_timer timer w = Some nth ->
     I (exec (modify (set_d_retryTimer None) ;; D__start nth) (remove_timer timer w))) ->
  (forall obj event args, keeps I (Obj_emit obj event args)) ->
  forall ev w, I w -> I (step ev w).
Proof.
  intros Hp Hr Hds Hdp His Hip Hth Hse Hwf Hst Hsu Hdt Htf Hem ev w H.
  destruct ev; simpl.
  - apply Hds, H.
  - apply Hdp, H.
  - apply His, H.
  - unfold exec. apply keeps_tryCatch; auto.
  - apply Hwf, H.
  - destruct (find_task task w) as [[id c [| r0 | r0]] |]; simpl; try exact H.
    specialize (Hst r w H). destruct (It__start_tail r w) as [r' w']; simpl in *.
    apply Hp, Hst.
  - destruct (find_task task w) as [[id c [| r0 | r0]] |]; simpl; try exact H.
    + specialize (Hsu r0 w H). destruct (It_start_tail r0 w) as [r' w']; simpl in *.
      apply Hp, Hsu.
    + destruct c.
      * apply Hdt, Hr, H.
      * apply Hse, Hr, H.
  - destruct (find_timer timer w) as [nth |] eqn:E; [| exact H].
    apply Htf; assumption.
  - apply Hem, H.
Qed.

Lemma keeps_run :
  (forall ev w, I w -> I (step ev w)) -> forall evs w, I w -> I (run evs w).
Proof.
  intros Hs evs. unfold run.
  induction evs as [| ev evs IH]; simpl; intros w H; [exact H |].
  apply IH, Hs, H.
Qed.

End Keeps.

(** Splits a method body along its binds, loops and tests; what remains are
    the field updates and the calls of other methods. *)
Ltac keeps_step :=
  match goal with
  | |- keeps _ (bind _ _) => apply keeps_bind; [| intro]
  | |- keeps _ (ret _) => apply keeps_ret
  | |- keeps _ (throw _) => apply keeps_throw
  | |- keeps _ get => apply keeps_get
  | |- keeps _ (assert _ _) => apply keeps_assert
  | |- keeps _ (tryCatch _ _) => apply keeps_tryCatch; [| intro]
  | |- keeps _ (forEach _ _) => apply keeps_forEach; intro
  | |- keeps _ (if ?c then _ else _) => destruct c
  | |- keeps _ (match ?x with Some _ => _ | None => _ end) => destruct x
  | |- keeps _ (match ?x with Returns _ => _ | Throws _ => _ end) => destruct x
  | |- keeps _ (match ?x with StopReturns => _ | StopThrows _ => _ | StopEmits _ _ => _ end) =>
      destruct x
  | |- keeps _ (match ?x with OnError => _ | OnDeath => _ | Method _ => _ end) =>
      destruct x
  end.

Ltac keeps_leaf :=
  match goal with
  | |- keeps _ (modify _) => apply keeps_modify; intros ? ?
  | |- keeps _ (tell _) => apply keeps_modify; intros ? ?
  | |- keeps _ fresh => intros ? ?
  end.

Create HintDb keeps.

(** ** At most one live timer *)

Lemma timer_inv_clearRetryTimer : keeps timer_inv clearRetryTimer.
Proof.
  intros w H. unfold clearRetryTimer, bind, get.
  destruct (d_retryTimer w) as [t |] eqn:E; simpl; [| exact H].
  unfold timer_inv in *; simpl. rewrite E in H.
  destruct (timers w) as [| [t1 n1] [| x rest]]; simpl in *; try discriminate.
  injection H as ->. now rewrite Nat.eqb_refl.
Qed.

Lemma timer_inv_scheduleRetry nth : keeps timer_inv (D__scheduleRetry nth).
Proof.
  intros w H. unfold D__scheduleRetry, bind, get. unfold timer_inv in *.
  destruct (d_retryTimer w) as [t |] eqn:E; simpl.
  - destruct (timers w) as [| [t1 n1] [| x rest]]; simpl in *; try discriminate.
    injection H as ->. now rewrite Nat.eqb_refl.
  - destruct (timers w); simpl in *; [reflexivity | discriminate].
Qed.

#[local] Hint Resolve timer_inv_clearRetryTimer timer_inv_scheduleRetry : keeps.

Ltac keeps_fields :=
  repeat first
    [ keeps_step
    | solve [auto with keeps]
    | keeps_leaf; solve [auto] ].

Lemma timer_inv_D_dispose d : keeps timer_inv (D_dispose d).
Proof. unfold D_dispose. keeps_fields. Qed.

Lemma timer_inv_cleanUp : keeps timer_inv D__cleanUp.
Proof.
  pose proof timer_inv_D_dispose.
  unfold D__cleanUp. keeps_fields.
Qed.
#[local] Hint Resolve timer_inv_cleanUp : keeps.

Lemma timer_inv_onStopped : keeps timer_inv D_onStopped.
Proof. unfold D_onStopped. keeps_fields. Qed.
#[local] Hint Resolve timer_inv_onStopped : keeps.

Lemma timer_inv_setState s x : keeps timer_inv (It__setState s x).
Proof. unfold It__setState, It_notify, It_emit. keeps_fields. Qed.
#[local] Hint Resolve timer_inv_setState : keeps.

Lemma timer_inv_abort ev err : keeps timer_inv (It_abort ev err).
Proof. unfold It_abort. keeps_fields. Qed.
#[local] Hint Resolve timer_inv_abort : keeps.

Lemma timer_inv_onDeath reason : keeps timer_inv (It__onDeath reason).
Proof. unfold It__onDeath, It_setObj, It_dispose. keeps_fields. Qed.
#[local] Hint Resolve timer_inv_onDeath : keeps.

Lemma timer_inv_Obj_emit obj ev args : keeps timer_inv (Obj_emit obj ev args).
Proof.
  unfold Obj_emit, run_handler, It__onError, It_abortAll. keeps_fields.
Qed.
#[local] Hint Resolve timer_inv_Obj_emit : keeps.

Lemma timer_inv_It_stop : keeps timer_inv It_stop.
Proof. unfold It_stop, It__stop. keeps_fields. Qed.
#[local] Hint Resolve timer_inv_It_stop : keeps.

Lemma timer_inv_start_head task : keeps timer_inv (It__start_head task).
Proof. unfold It__start_head. keeps_fields. Qed.

Lemma timer_inv_It_start caller : keeps timer_inv (It_start caller).
Proof. apply keeps_It_start; auto using timer_inv_start_head. Qed.
#[local] Hint Resolve timer_inv_It_start : keeps.

Lemma timer_inv_D__start nth : keeps timer_inv (D__start nth).
Proof. unfold D__start, D_notify, D_assign. keeps_fields. Qed.
#[local] Hint Resolve timer_inv_D__start : keeps.

Lemma timer_inv_D__start_tail nth r : keeps timer_inv (D__start_tail nth r).
Proof. unfold D__start_tail, D_notify, D_assign, D_abort. keeps_fields. Qed.

Lemma timer_inv_It__start_tail r : keeps timer_inv (It__start_tail r).
Proof. unfold It__start_tail, It_setObj, It_on. keeps_fields. Qed.

Lemma timer_inv_It_start_tail r : keeps timer_inv (It_start_tail r).
Proof. unfold It_start_tail. keeps_fields. Qed.

Lemma timer_inv_fire timer nth w :
  timer_inv w -> find_timer timer w = Some nth ->
  timer_inv (exec (modify (set_d_retryTimer None) ;; D__start nth) (remove_timer timer w)).
Proof.
  intros H E. unfold exec, bind, modify; simpl. apply timer_inv_D__start.
  unfold timer_inv, find_timer in *; simpl.
  destruct (d_retryTimer w);
    destruct (timers w) as [| [t1 n1] [| x rest]]; simpl in *; try discriminate.
  destruct (Nat.eqb t1 timer); simpl in *; [reflexivity | discriminate].
Qed.

Lemma timer_inv_step ev w : timer_inv w -> timer_inv (step ev w).
Proof.
  apply keeps_every_step; auto with keeps;
    auto using timer_inv_D__start_tail, timer_inv_It__start_tail,
      timer_inv_It_start_tail, timer_inv_fire.
  - unfold D_start, D_assign. keeps_fields.
  - unfold D_stop, D_assign. keeps_fields.
  - intro. keeps_fields.
  - intros. keeps_fields.
  - intro. unfold It_waitForState, It_waitFor. keeps_fields.
Qed.

(** ** Listeners on [it] and the daemon's disposables *)

Lemma filter_filter {A} (f g : A -> bool) (l : list A) :
  filter f (filter g l) = filter (fun x => g x && f x) l.
Proof.
  induction l as [| x l IH]; simpl; [reflexivity |].
  destruct (g x); simpl; [destruct (f x) |]; now rewrite IH.
Qed.

Lemma filter_all {A} (f : A -> bool) (l : list A) :
  (forall x, In x l -> f x = true) -> filter f l = l.
Proof.
  induction l as [| x l IH]; simpl; intros H; [reflexivity |].
  rewrite (H x) by now left. f_equal. apply IH. intros; apply H; now right.
Qed.

Lemma filter_none {A} (f : A -> bool) (l : list A) :
  (forall x, In x l -> f x = false) -> filter f l = [].
Proof.
  induction l as [| x l IH]; simpl; intros H; [reflexivity |].
  rewrite (H x) by now left. apply IH. intros; apply H; now right.
Qed.

Lemma forEach_D_dispose ds : forall w,
  forEach ds D_dispose w =
  (Returns tt,
   set_log (log w ++ map (fun d => DDispose (fst d)) ds)
     (set_it_listeners (filter (undisposed ds) (it_listeners w)) w)).
Proof.
  induction ds as [| d ds IH]; intros w.
  - simpl. rewrite app_nil_r, filter_all by reflexivity. now destruct w.
  - simpl. unfold bind, D_dispose at 1, bind, modify, tell, modify; simpl.
    rewrite IH; simpl. rewrite filter_filter, <- app_assoc; simpl.
    unfold set_log, set_it_listeners; simpl. do 2 f_equal.
    apply filter_ext. intros l. unfold undisposed; simpl.
    now rewrite negb_orb.
Qed.

Lemma listeners_inv_undisposed w :
  listeners_inv w -> filter (undisposed (d_disposables w)) (it_listeners w) = [].
Proof.
  intros H. apply filter_none. intros l Hl. unfold undisposed.
  apply negb_false_iff, existsb_exists. exists (fst l).
  split; [apply H, Hl | apply Nat.eqb_refl].
Qed.

Lemma cleanUp_disarms w :
  timer_inv w -> listeners_inv w ->
  disarmed (exec D__cleanUp w) /\ d_disposables (exec D__cleanUp w) = [].
Proof.
  intros Ht Hl. unfold exec, D__cleanUp, bind, get.
  rewrite forEach_D_dispose; simpl.
  unfold clearRetryTimer, bind, get; simpl.
  rewrite (listeners_inv_undisposed _ Hl).
  unfold timer_inv, disarmed in *.
  destruct (d_retryTimer w) as [t |] eqn:E; simpl; rewrite ?E.
  - destruct (timers w) as [| [t1 n1] [| x rest]]; simpl in *; try discriminate.
    injection Ht as ->. rewrite Nat.eqb_refl; simpl. auto.
  - destruct (timers w); simpl in *; [auto | discriminate].
Qed.

Lemma listeners_inv_cleanUp : keeps listeners_inv D__cleanUp.
Proof.
  intros w H. unfold D__cleanUp, bind, get.
  rewrite forEach_D_dispose; simpl.
  assert (E : it_listeners
            (snd (clearRetryTimer
               (set_d_disposables []
                  (set_log (log w ++ map (fun d => DDispose (fst d)) (d_disposables w))
                     (set_it_listeners
                        (filter (undisposed (d_disposables w)) (it_listeners w)) w)))))
          = []).
  { unfold clearRetryTimer, bind, get; simpl.
    rewrite (listeners_inv_undisposed _ H). now destruct (d_retryTimer w). }
  intros l Hl. rewrite E in Hl. destruct Hl.
Qed.
#[local] Hint Resolve listeners_inv_cleanUp : keeps.

Lemma listeners_inv_filter f w :
  listeners_inv w -> listeners_inv (set_it_listeners (filter f (it_listeners w)) w).
Proof.
  intros H l Hl; simpl in *. apply filter_In in Hl. apply H, Hl.
Qed.

Lemma listeners_inv_scheduleRetry nth : keeps listeners_inv (D__scheduleRetry nth).
Proof.
  unfold D__scheduleRetry, clearTimeout, D_notify, D_assign, setTimeout.
  keeps_fields.
Qed.
#[local] Hint Resolve listeners_inv_scheduleRetry : keeps.

Lemma listeners_inv_onStopped : keeps listeners_inv D_onStopped.
Proof. unfold D_onStopped. keeps_fields. Qed.
#[local] Hint Resolve listeners_inv_onStopped : keeps.

Lemma listeners_inv_setState s x : keeps listeners_inv (It__setState s x).
Proof.
  unfold It__setState, It_notify, It_emit.
  keeps_fields; try (keeps_leaf; solve [auto using listeners_inv_filter]).
Qed.
#[local] Hint Resolve listeners_inv_setState : keeps.

Lemma listeners_inv_abort ev err : keeps listeners_inv (It_abort ev err).
Proof. unfold It_abort. keeps_fields. Qed.
#[local] Hint Resolve listeners_inv_abort : keeps.

Lemma listeners_inv_onDeath reason : keeps listeners_inv (It__onDeath reason).
Proof. unfold It__onDeath, It_setObj, It_dispose. keeps_fields. Qed.
#[local] Hint Resolve listeners_inv_onDeath : keeps.

Lemma listeners_inv_Obj_emit obj ev args : keeps listeners_inv (Obj_emit obj ev args).
Proof.
  unfold Obj_emit, run_handler, It__onError, It_abortAll. keeps_fields.
Qed.
#[local] Hint Resolve listeners_inv_Obj_emit : keeps.

Lemma listeners_inv_It_stop : keeps listeners_inv It_stop.
Proof. unfold It_stop, It__stop. keeps_fields. Qed.
#[local] Hint Resolve listeners_inv_It_stop : keeps.

Lemma listeners_inv_start_head task : keeps listeners_inv (It__start_head task).
Proof. unfold It__start_head. keeps_fields. Qed.

Lemma listeners_inv_It_start caller : keeps listeners_inv (It_start caller).
Proof. apply keeps_It_start; auto using listeners_inv_start_head. Qed.
#[local] Hint Resolve listeners_inv_It_start : keeps.

Lemma listeners_inv_clearRetryTimer : keeps listeners_inv clearRetryTimer.
Proof. unfold clearRetryTimer, clearTimeout. keeps_fields. Qed.
#[local] Hint Resolve listeners_inv_clearRetryTimer : keeps.

Lemma listeners_inv_D__start nth : keeps listeners_inv (D__start nth).
Proof. unfold D__start, D_notify, D_assign. keeps_fields. Qed.
#[local] Hint Resolve listeners_inv_D__start : keeps.

Lemma listeners_inv_register l w :
  listeners_inv w ->
  listeners_inv
    (set_d_disposables (d_disposables w ++ [l])
       (set_it_listeners (it_listeners w ++ [l]) w)).
Proof.
  intros H x Hx; simpl in *. rewrite map_app, in_app_iff.
  apply in_app_iff in Hx as [Hx | [<- | []]]; [left; apply H, Hx | right; now left].
Qed.

Lemma listeners_inv_D__start_tail nth r : keeps listeners_inv (D__start_tail nth r).
Proof.
  destruct r as [[] | err].
  - intros w H. unfold D__start_tail, D_notify, D_assign, bind, get, modify, tell, fresh;
      simpl.
    intros x Hx; simpl in *. rewrite map_app, in_app_iff.
    apply in_app_iff in Hx as [Hx | [<- | []]]; [left; apply H, Hx | right; now left].
  - unfold D__start_tail, D_notify, D_assign, D_abort. keeps_fields.
Qed.

Lemma listeners_inv_It__start_tail r : keeps listeners_inv (It__start_tail r).
Proof. unfold It__start_tail, It_setObj, It_on. keeps_fields. Qed.

Lemma listeners_inv_It_start_tail r : keeps listeners_inv (It_start_tail r).
Proof. unfold It_start_tail. keeps_fields. Qed.

Lemma listeners_inv_step ev w : listeners_inv w -> listeners_inv (step ev w).
Proof.
  apply keeps_every_step; auto with keeps;
    auto using listeners_inv_D__start_tail, listeners_inv_It__start_tail,
      listeners_inv_It_start_tail.
  - unfold D_start, D_assign. keeps_fields.
  - unfold D_stop, D_assign. keeps_fields.
  - intro. keeps_fields.
  - intros. keeps_fields.
  - intro. unfold It_waitForState, It_waitFor. keeps_fields.
  - intros timer nth w' H _. unfold exec, bind, modify; simpl.
    apply listeners_inv_D__start. exact H.
Qed.

(** ** With nothing armed, the Unreliable cannot reach the daemon *)

Lemma disarmed_It_emit ev : keeps disarmed (It_emit ev).
Proof.
  intros w H. unfold It_emit, bind, get.
  destruct H as (E & H). rewrite E; simpl. split; assumption.
Qed.
#[local] Hint Resolve disarmed_It_emit : keeps.

Lemma disarmed_setState s x : keeps disarmed (It__setState s x).
Proof. unfold It__setState, It_notify. keeps_fields. Qed.
#[local] Hint Resolve disarmed_setState : keeps.

Lemma disarmed_abort ev err : keeps disarmed (It_abort ev err).
Proof. unfold It_abort. keeps_fields. Qed.
#[local] Hint Resolve disarmed_abort : keeps.

Lemma disarmed_onDeath reason : keeps disarmed (It__onDeath reason).
Proof. unfold It__onDeath, It_setObj, It_dispose. keeps_fields. Qed.
#[local] Hint Resolve disarmed_onDeath : keeps.

Lemma disarmed_Obj_emit obj ev args : keeps disarmed (Obj_emit obj ev args).
Proof.
  unfold Obj_emit, run_handler, It__onError, It_abortAll. keeps_fields.
Qed.
#[local] Hint Resolve disarmed_Obj_emit : keeps.

Lemma disarmed_It_stop : keeps disarmed It_stop.
Proof. unfold It_stop, It__stop. keeps_fields. Qed.
#[local] Hint Resolve disarmed_It_stop : keeps.

Lemma disarmed_start_head task : keeps disarmed (It__start_head task).
Proof. unfold It__start_head. keeps_fields. Qed.

Lemma disarmed_It_start caller : keeps disarmed (It_start caller).
Proof. apply keeps_It_start; auto using disarmed_start_head. Qed.
#[local] Hint Resolve disarmed_It_start : keeps.

(** ** Methods that never throw *)

Lemma bind_returns {A B} (m : M A) (k : A -> M B) (a : A) (w : World) :
  m w = (Returns a, exec m w) -> bind m k w = k a (exec m w).
Proof. intros E. unfold bind. now rewrite E. Qed.

Lemma clearRetryTimer_returns w :
  clearRetryTimer w = (Returns tt, exec clearRetryTimer w).
Proof.
  unfold exec, clearRetryTimer, bind, get. now destruct (d_retryTimer w).
Qed.

Lemma cleanUp_returns w : D__cleanUp w = (Returns tt, exec D__cleanUp w).
Proof.
  unfold exec, D__cleanUp, bind, get. rewrite forEach_D_dispose; simpl.
  now rewrite clearRetryTimer_returns.
Qed.

Lemma reachable_inv evs :
  timer_inv (run evs new_world) /\ listeners_inv (run evs new_world).
Proof.
  apply keeps_run with (I := fun w => timer_inv w /\ listeners_inv w).
  - intros ev w [H1 H2]. split; [apply timer_inv_step | apply listeners_inv_step];
      assumption.
  - split; [reflexivity | intros l []].
Qed.

Lemma timer_inv_disarmed w : timer_inv w -> timers w = [] -> d_retryTimer w = None.
Proof.
  unfold timer_inv. intros H E. rewrite E in H.
  now destruct (d_retryTimer w).
Qed.

Lemma D__start_disarms nth w :
  timer_inv w -> listeners_inv w -> dead w = false ->
  disarmed (exec (D__start nth) w).
Proof.
  intros Ht Hl Hd. unfold exec, D__start, bind at 1, get. rewrite Hd.
  erewrite bind_returns by apply (clearRetryTimer_returns w).
  assert (Ht1 : timer_inv (exec clearRetryTimer w))
    by (apply timer_inv_clearRetryTimer, Ht).
  assert (Hl1 : listeners_inv (exec clearRetryTimer w))
    by (apply listeners_inv_clearRetryTimer, Hl).
  set (w1 := exec clearRetryTimer w) in *.
  erewrite bind_returns by apply (cleanUp_returns w1).
  destruct (cleanUp_disarms _ Ht1 Hl1) as [Hdis _].
  set (w2 := exec D__cleanUp w1) in *.
  unfold D_notify, D_assign, bind, get, tell, modify; simpl.
  apply disarmed_It_start. exact Hdis.
Qed.

Lemma scheduleRetry_arms nth w :
  timer_inv w ->
  timers (exec (D__scheduleRetry nth) w) = [(next_id w, nth)] /\
  d_retryTimer (exec (D__scheduleRetry nth) w) = Some (next_id w).
Proof.
  intros H. unfold exec, D__scheduleRetry, bind, get. unfold timer_inv in H.
  destruct (d_retryTimer w) as [t |]; simpl.
  - destruct (timers w) as [| [t1 n1] [| x rest]]; simpl in *; try discriminate.
    injection H as ->. now rewrite Nat.eqb_refl.
  - destruct (timers w); simpl in *; [auto | discriminate].
Qed.

Lemma D_stop_disarms w :
  timer_inv w -> listeners_inv w -> disarmed (exec D_stop w).
Proof.
  intros Ht Hl. unfold exec, D_stop, D_assign, bind at 1 2, modify, tell, modify; simpl.
  set (w0 := set_log _ _).
  assert (Ht0 : timer_inv w0) by exact Ht.
  assert (Hl0 : listeners_inv w0) by exact Hl.
  erewrite bind_returns by apply (cleanUp_returns w0).
  destruct (cleanUp_disarms _ Ht0 Hl0) as [Hdis _].
  set (w1 := exec D__cleanUp w0) in *.
  erewrite bind_returns by apply (clearRetryTimer_returns w1).
  apply keeps_tryCatch; [apply disarmed_It_stop | intro; apply keeps_ret |].
  fold (exec clearRetryTimer w1). apply keeps_exec; [| exact Hdis].
  unfold clearRetryTimer, clearTimeout. keeps_fields;
    keeps_leaf;
    match goal with H : disarmed _ |- _ => destruct H as (? & E & ?) end;
    repeat split; simpl; rewrite ?E; auto.
Qed.

(** ** Loops over waiters and subscriptions *)

Lemma forEach_It_abort events err : forall w,
  forEach events (fun event => It_abort event err) w =
  (Returns tt,
   set_log (log w ++ abort_trace events err (it_waiters w))
     (set_it_waiters (after_aborts events (it_waiters w)) w)).
Proof.
  induction events as [| ev events IH]; intros w.
  - simpl. rewrite app_nil_r. now destruct w.
  - simpl. unfold bind, It_abort at 1, bind, get, modify, tell, modify; simpl.
    rewrite IH; simpl. rewrite <- app_assoc; simpl. reflexivity.
Qed.

Lemma waiting_on_not_waiting_on ev ev' ws :
  waiting_on ev (not_waiting_on ev' ws) =
  if String.eqb ev ev' then [] else waiting_on ev ws.
Proof.
  unfold waiting_on, not_waiting_on. rewrite filter_filter.
  destruct (String.eqb_spec ev ev') as [-> | Hne].
  - rewrite filter_none; [reflexivity |].
    intros x _. now destruct (String.eqb (fst x) ev').
  - f_equal. apply filter_ext. intros x.
    destruct (String.eqb_spec (fst x) ev'), (String.eqb_spec (fst x) ev);
      simpl; congruence.
Qed.

Lemma waiting_on_after_aborts ev events ws :
  waiting_on ev (after_aborts events ws) =
  if has events ev then [] else waiting_on ev ws.
Proof.
  revert ws. induction events as [| e events IH]; intros ws; simpl; [reflexivity |].
  rewrite IH, waiting_on_not_waiting_on.
  destruct (String.eqb ev e); simpl; [| reflexivity].
  now destruct (has events ev).
Qed.

(** Every waiter of a listed event is rejected, with [err], by one of the
    [abort] calls. *)
Lemma abort_trace_rejects events err ws ev waiter :
  In ev events -> In (ev, waiter) ws ->
  exists rejected,
    In (ItAbort ev err rejected) (abort_trace events err ws) /\ In waiter rejected.
Proof.
  revert ws. induction events as [| e events IH]; intros ws Hev Hw; [destruct Hev |].
  simpl. destruct (String.eqb_spec e ev) as [-> | Hne].
  - exists (waiting_on ev ws). split; [now left |].
    unfold waiting_on. apply in_map_iff. exists (ev, waiter). split; [reflexivity |].
    apply filter_In. split; [exact Hw | apply String.eqb_refl].
  - destruct Hev as [-> | Hev]; [congruence |].
    destruct (IH (not_waiting_on e ws) Hev) as (rej & H1 & H2).
    + unfold not_waiting_on. apply filter_In. split; [exact Hw |]. simpl.
      apply negb_true_iff. apply String.eqb_neq. congruence.
    + exists rej. split; [now right | exact H2].
Qed.

Lemma forEach_It_dispose subs : forall w,
  forEach subs It_dispose w =
  (Returns tt,
   set_log (log w ++ map (fun s => ItDispose (s_id s)) subs)
     (set_obj_listeners (filter (undisposed_sub subs) (obj_listeners w)) w)).
Proof.
  induction subs as [| d subs IH]; intros w.
  - simpl. rewrite app_nil_r, filter_all by reflexivity. now destruct w.
  - simpl. unfold bind, It_dispose at 1, bind, modify, tell, modify; simpl.
    rewrite IH; simpl. rewrite filter_filter, <- app_assoc; simpl.
    unfold set_log, set_obj_listeners; simpl. do 2 f_equal.
    apply filter_ext. intros l. unfold undisposed_sub; simpl.
    now rewrite negb_orb.
Qed.

Lemma undisposed_sub_self subs s : In s subs -> undisposed_sub subs s = false.
Proof.
  intros H. unfold undisposed_sub. apply negb_false_iff, existsb_exists.
  exists (s_id s). split; [now apply in_map | apply Nat.eqb_refl].
Qed.

(** ** What daemon code leaves alone *)

Lemma it_frame_refl w : it_frame w w.
Proof.
  repeat split. exists []. now rewrite app_nil_r.
Qed.

Ltac it_frame_leaf :=
  keeps_leaf;
  match goal with
  | H : it_frame _ _ |- _ =>
      destruct H as (? & ? & ? & ? & ? & ? & ? & ? & ?)
  end;
  repeat split; simpl; try assumption;
  match goal with
  | HL : log _ = _ ++ ?L |- _ =>
      first
        [ exists L; split; assumption
        | eexists; split;
          [ rewrite HL, <- app_assoc; reflexivity
          | apply Forall_app; split; [assumption | repeat constructor] ] ]
  end.

Ltac it_frame_auto :=
  repeat first [ keeps_step | solve [auto with keeps] | it_frame_leaf ].

Lemma it_frame_cleanUp w0 : keeps (it_frame w0) D__cleanUp.
Proof.
  unfold D__cleanUp, D_dispose, clearRetryTimer, clearTimeout. it_frame_auto.
Qed.

Lemma it_frame_scheduleRetry w0 nth : keeps (it_frame w0) (D__scheduleRetry nth).
Proof.
  unfold D__scheduleRetry, clearTimeout, D_notify, D_assign, setTimeout. it_frame_auto.
Qed.

Lemma it_frame_onStopped w0 : keeps (it_frame w0) D_onStopped.
Proof.
  pose proof (it_frame_cleanUp w0). pose proof (it_frame_scheduleRetry w0).
  unfold D_onStopped. it_frame_auto.
Qed.

Lemma it_frame_It_emit w0 ev : keeps (it_frame w0) (It_emit ev).
Proof.
  pose proof (it_frame_onStopped w0).
  unfold It_emit. it_frame_auto.
Qed.

(** ** Code that always returns *)

Lemma nt_ret {A} (a : A) : never_throws (ret a).
Proof. intros w. now exists a. Qed.

Lemma nt_get : never_throws get.
Proof. intros w. now exists w. Qed.

Lemma nt_modify f : never_throws (modify f).
Proof. intros w. now exists tt. Qed.

Lemma nt_fresh : never_throws fresh.
Proof. intros w. now exists (next_id w). Qed.

Lemma nt_bind {A B} (m : M A) (k : A -> M B) :
  never_throws m -> (forall a, never_throws (k a)) -> never_throws (bind m k).
Proof.
  intros Hm Hk w. destruct (Hm w) as [a Ea].
  destruct (Hk a (exec m w)) as [b Eb]. exists b.
  unfold exec, bind in *. rewrite Ea; simpl. exact Eb.
Qed.

Lemma nt_forEach {A} (xs : list A) (body : A -> M unit) :
  (forall x, never_throws (body x)) -> never_throws (forEach xs body).
Proof.
  intros Hb. induction xs as [| x xs IH]; simpl.
  - apply nt_ret.
  - apply nt_bind; [apply Hb | intros _; exact IH].
Qed.

Lemma nt_tryCatch {A} (m : M A) (h : Error -> M A) :
  (forall e, never_throws (h e)) -> never_throws (tryCatch m h).
Proof.
  intros Hh w. unfold exec, tryCatch.
  destruct (m w) as [[a | e] w'] eqn:E.
  - now exists a.
  - destruct (Hh e w') as [a Ea]. exists a. now rewrite Ea.
Qed.

Lemma nt_unit (m : M unit) w : never_throws m -> m w = (Returns tt, exec m w).
Proof. intros H. destruct (H w) as [[] E]. exact E. Qed.

Ltac nt_auto :=
  repeat first
    [ apply nt_ret | apply nt_get | apply nt_modify | apply nt_fresh
    | apply nt_bind; [| intro]
    | apply nt_forEach; intro
    | apply nt_tryCatch; intro
    | match goal with
      | |- never_throws (if ?c then _ else _) => destruct c
      | |- never_throws (match ?x with Some _ => _ | None => _ end) => destruct x
      end
    | solve [auto with nt] ].

Create HintDb nt.

Lemma nt_cleanUp : never_throws D__cleanUp.
Proof.
  unfold D__cleanUp, D_dispose, clearRetryTimer, clearTimeout, tell. nt_auto.
Qed.

Lemma nt_scheduleRetry nth : never_throws (D__scheduleRetry nth).
Proof.
  unfold D__scheduleRetry, clearTimeout, D_notify, D_assign, setTimeout, tell. nt_auto.
Qed.
#[local] Hint Resolve nt_cleanUp nt_scheduleRetry : nt.

Lemma nt_onStopped : never_throws D_onStopped.
Proof. unfold D_onStopped. nt_auto. Qed.
#[local] Hint Resolve nt_onStopped : nt.

Lemma nt_It_emit ev : never_throws (It_emit ev).
Proof. unfold It_emit. nt_auto. Qed.
#[local] Hint Resolve nt_It_emit : nt.

(** ** [_setState]: broadcast, listeners, assignment *)

Lemma setState_unfold s x w :
  It__setState s x w =
  (Returns tt,
   let w1 := exec (It_emit s) (broadcast s x w) in
   set_log (log w1 ++ [ItAssign s]) (set_it_state s w1)).
Proof.
  unfold It__setState, It_notify, bind at 1 2 3 4, get, modify, tell, modify; simpl.
  fold (broadcast s x w).
  unfold bind. rewrite (nt_unit _ _ (nt_It_emit s)). reflexivity.
Qed.

Lemma nt_setState s x : never_throws (It__setState s x).
Proof. intros w. exists tt. unfold exec. now rewrite setState_unfold. Qed.
#[local] Hint Resolve nt_setState : nt.

Lemma emit_frame s w : it_frame w (exec (It_emit s) w).
Proof. apply it_frame_It_emit, it_frame_refl. Qed.

(** ** [_onDeath] unfolded *)

Lemma onDeath_unfold reason w :
  It__onDeath reason w =
  (Returns tt,
   let st := stopped (states meta) in
   let err := UnreliableDeathError (deathErrorClass meta) (it_uObj w) reason in
   let w1 := exec (It_emit st) (broadcast st (StopReason reason) w) in
   set_log
     (log w1 ++ [ItAssign st; ItObj None]
      ++ map (fun s => ItDispose (s_id s)) (it_disposables w1)
      ++ abort_trace (abortOnDeath (stateConf meta)) err (it_waiters w1))
     (set_it_waiters (after_aborts (abortOnDeath (stateConf meta)) (it_waiters w1))
        (set_it_disposables []
           (set_obj_listeners
              (filter (undisposed_sub (it_disposables w1)) (obj_listeners w1))
              (set_it_uObj None (set_it_state st w1)))))).
Proof.
  unfold It__onDeath, bind at 1 2, get. rewrite setState_unfold.
  cbv zeta. set (w1 := exec (It_emit _) _).
  unfold It_setObj, bind, modify, tell, modify, get; simpl.
  rewrite forEach_It_dispose; simpl.
  rewrite forEach_It_abort; simpl.
  unfold set_log, set_it_waiters; simpl. do 2 f_equal.
  rewrite <- !app_assoc. reflexivity.
Qed.

(** ** [start] after a failed [_start] *)

Lemma start_tail_unfold err w :
  It_start_tail (Throws err) w =
  (Throws err,
   let sf := startFailed (states meta) in
   let events := abortOnStartFailure (stateConf meta) in
   let w0 :=
     set_log (log w ++ abort_trace events err (it_waiters w))
       (set_it_waiters (after_aborts events (it_waiters w)) w) in
   let w1 := exec (It_emit sf) (broadcast sf (StartFailureReason err) w0) in
   set_log (log w1 ++ [ItAssign sf]) (set_it_state sf w1)).
Proof.
  unfold It_start_tail, bind at 1. rewrite forEach_It_abort.
  unfold bind at 1. rewrite setState_unfold. reflexivity.
Qed.

(** ** Pending tasks *)

Lemma find_task_set_stage task stage w t :
  find_task task w = Some t ->
  find_task task (set_stage task stage w) =
  Some {| t_id := t_id t; t_caller := t_caller t; t_stage := stage |}.
Proof.
  unfold find_task, set_stage; simpl.
  induction (pending w) as [| x l IH]; simpl; [discriminate |].
  destruct (Nat.eqb (t_id x) task) eqn:E; simpl; rewrite E.
  - now intros [= ->].
  - exact IH.
Qed.

Lemma find_task_pending task w w' :
  pending w' = pending w -> find_task task w' = find_task task w.
Proof. unfold find_task. now intros ->. Qed.

Lemma find_task_new task caller stage w :
  tasks_fresh w ->
  task = next_id w ->
  find_task task
    (set_pending
       (pending w ++ [{| t_id := task; t_caller := caller; t_stage := stage |}]) w) =
  Some {| t_id := task; t_caller := caller; t_stage := stage |}.
Proof.
  intros Hf ->. unfold find_task; simpl. unfold tasks_fresh in Hf.
  induction (pending w) as [| x l IH]; simpl.
  - now rewrite Nat.eqb_refl.
  - replace (Nat.eqb (t_id x) (next_id w)) with false.
    + apply IH. intros t Ht. apply Hf. now right.
    + symmetry. apply Nat.eqb_neq. specialize (Hf x (or_introl eq_refl)). lia.
Qed.

(** [start] resuming on a failed [_start]: one step. *)
Lemma resume_failed_start (wa : World) (task : nat) (t : Task) (err : Error) :
  find_task task wa = Some t ->
  t_stage t = AwaitStart (Throws err) ->
  let sf := startFailed (states meta) in
  let events := abortOnStartFailure (stateConf meta) in
  let w' := step (Resume task) wa in
  (exists L,
     Forall daemon_effect L /\
     log w' =
       log wa
       ++ abort_trace events err (it_waiters wa)
       ++ [ItNotify sf {| oldState := it_state wa; extra := StartFailureReason err |}
             (it_state wa) (waiting_on sf (after_aborts events (it_waiters wa)))]
       ++ L
       ++ [ItAssign sf]) /\
  it_state w' = sf /\
  it_waiters w' = not_waiting_on sf (after_aborts events (it_waiters wa)) /\
  (forall ev waiter,
     In ev events -> In (ev, waiter) (it_waiters wa) ->
     exists rejected, In (ItAbort ev err rejected) (log w') /\ In waiter rejected) /\
  find_task task w' =
    Some {| t_id := t_id t; t_caller := t_caller t; t_stage := AwaitCaller (Throws err) |} /\
  (t_caller t = ByUser ->
   log (step (Resume task) w') = log w' ++ [ItSettled task (Throws err)]).
Proof.
  intros Ha Hstage sf events w'.
  set (w0 := set_log (log wa ++ abort_trace events err (it_waiters wa))
               (set_it_waiters (after_aborts events (it_waiters wa)) wa)).
  set (w1 := exec (It_emit sf) (broadcast sf (StartFailureReason err) w0)).
  set (w2 := set_log (log w1 ++ [ItAssign sf]) (set_it_state sf w1)).
  assert (E : w' = set_stage task (AwaitCaller (Throws err)) w2).
  { unfold w', step. rewrite Ha, Hstage.
    rewrite start_tail_unfold. reflexivity. }
  clearbody w'.
  destruct (emit_frame sf (broadcast sf (StartFailureReason err) w0))
    as (F1 & F2 & F3 & F4 & F5 & F6 & L & FL & FD).
  fold w1 in F1, F2, F3, F4, F5, F6, FL. simpl in F1, F2, F3, F4, F5, F6, FL.
  assert (Elog : log w' =
       log wa
       ++ abort_trace events err (it_waiters wa)
       ++ [ItNotify sf {| oldState := it_state wa; extra := StartFailureReason err |}
             (it_state wa) (waiting_on sf (after_aborts events (it_waiters wa)))]
       ++ L
       ++ [ItAssign sf]).
  { rewrite E; simpl. rewrite FL. rewrite <- !app_assoc. reflexivity. }
  assert (Ef : find_task task w' =
    Some {| t_id := t_id t; t_caller := t_caller t;
            t_stage := AwaitCaller (Throws err) |}).
  { rewrite E. apply find_task_set_stage.
    rewrite <- Ha. apply find_task_pending. simpl. exact F6. }
  split; [exists L; split; assumption |].
  split; [rewrite E; reflexivity |].
  split; [rewrite E; simpl; exact F4 |].
  split; [| split; [exact Ef |]].
  - intros ev waiter Hev Hw.
    destruct (abort_trace_rejects events err (it_waiters wa) ev waiter Hev Hw)
      as (rej & H1 & H2).
    exists rej. split; [| exact H2]. rewrite Elog, !in_app_iff. tauto.
  - intros Hc. unfold step. rewrite Ef; simpl. rewrite Hc. reflexivity.
Qed.

Lemma has_true l x : In x l -> has l x = true.
Proof.
  intros H. apply existsb_exists. exists x. split; [exact H | apply String.eqb_refl].
Qed.

(** ** The trace only grows *)

Lemma log_grows_refl w : log_grows w w.
Proof. exists []. now rewrite app_nil_r. Qed.

Ltac log_grows_leaf :=
  keeps_leaf;
  match goal with
  | H : log_grows _ _ |- _ =>
      let E := fresh "E" in
      destruct H as [? E];
      first
        [ eexists; simpl; exact E
        | eexists; simpl; rewrite E, <- app_assoc; reflexivity ]
  end.

Ltac log_grows_auto :=
  repeat first [ keeps_step | solve [auto with keeps] | log_grows_leaf ].

Lemma log_grows_cleanUp w0 : keeps (log_grows w0) D__cleanUp.
Proof.
  unfold D__cleanUp, D_dispose, clearRetryTimer, clearTimeout. log_grows_auto.
Qed.

Lemma log_grows_scheduleRetry w0 nth : keeps (log_grows w0) (D__scheduleRetry nth).
Proof.
  unfold D__scheduleRetry, clearTimeout, D_notify, D_assign, setTimeout. log_grows_auto.
Qed.

Lemma log_grows_setState w0 s x : keeps (log_grows w0) (It__setState s x).
Proof.
  pose proof (log_grows_cleanUp w0). pose proof (log_grows_scheduleRetry w0).
  unfold It__setState, It_notify, It_emit, D_onStopped. log_grows_auto.
Qed.

Lemma log_grows_onDeath w0 reason : keeps (log_grows w0) (It__onDeath reason).
Proof.
  pose proof (log_grows_setState w0).
  unfold It__onDeath, It_setObj, It_dispose, It_abort. log_grows_auto.
Qed.

Lemma log_grows_Obj_emit w0 obj ev args : keeps (log_grows w0) (Obj_emit obj ev args).
Proof.
  pose proof (log_grows_onDeath w0).
  unfold Obj_emit, run_handler, It__onError, It_abortAll. log_grows_auto.
Qed.

Lemma log_grows_It_stop w0 : keeps (log_grows w0) It_stop.
Proof.
  pose proof (log_grows_setState w0). pose proof (log_grows_Obj_emit w0).
  unfold It_stop, It__stop. log_grows_auto.
Qed.

Lemma log_grows_start_head w0 task : keeps (log_grows w0) (It__start_head task).
Proof.
  pose proof (log_grows_setState w0).
  unfold It__start_head. log_grows_auto.
Qed.

Lemma log_grows_It_start w0 caller : keeps (log_grows w0) (It_start caller).
Proof. apply keeps_It_start; auto using log_grows_start_head. Qed.

(** ** A listener never kills the daemon *)

Ltac alive_auto :=
  repeat first
    [ keeps_step
    | solve [auto with keeps]
    | keeps_leaf; unfold alive in *; solve [auto] ].

Lemma alive_cleanUp : keeps alive D__cleanUp.
Proof.
  unfold D__cleanUp, D_dispose, clearRetryTimer, clearTimeout. alive_auto.
Qed.

Lemma alive_scheduleRetry nth : keeps alive (D__scheduleRetry nth).
Proof.
  unfold D__scheduleRetry, clearTimeout, D_notify, D_assign, setTimeout. alive_auto.
Qed.

Lemma alive_setState s x : keeps alive (It__setState s x).
Proof.
  pose proof alive_cleanUp. pose proof alive_scheduleRetry.
  unfold It__setState, It_notify, It_emit, D_onStopped. alive_auto.
Qed.

Lemma alive_onDeath reason : keeps alive (It__onDeath reason).
Proof.
  pose proof alive_setState.
  unfold It__onDeath, It_setObj, It_dispose, It_abort. alive_auto.
Qed.

Lemma alive_Obj_emit obj ev args : keeps alive (Obj_emit obj ev args).
Proof.
  pose proof alive_onDeath.
  unfold Obj_emit, run_handler, It__onError, It_abortAll. alive_auto.
Qed.

Lemma alive_It_stop : keeps alive It_stop.
Proof.
  pose proof alive_setState. pose proof alive_Obj_emit.
  unfold It_stop, It__stop. alive_auto.
Qed.

Lemma nt_best_effort_stop : never_throws best_effort_stop.
Proof. unfold best_effort_stop. nt_auto. Qed.

Lemma catch_block_stop (w : World) (k : unit -> M unit) :
  exists w1,
    bind (if stoppable_now w then tryCatch It_stop (fun _ => ret tt) else ret tt) k w
    = k tt w1 /\
    log_grows w w1 /\
    (alive w -> alive w1) /\
    (it_uObj w = None -> w1 = w).
Proof.
  destruct (stoppable_now w) eqn:Es.
  - exists (exec (tryCatch It_stop (fun _ => ret tt)) w). split; [| split; [| split]].
    + unfold bind. rewrite (nt_unit (tryCatch It_stop (fun _ => ret tt)) w);
        [reflexivity |].
      apply nt_tryCatch. intro. apply nt_ret.
    + apply (keeps_exec (log_grows w)); [| apply log_grows_refl].
      apply keeps_tryCatch; [apply log_grows_It_stop | intro; apply keeps_ret].
    + apply (keeps_exec alive).
      apply keeps_tryCatch; [apply alive_It_stop | intro; apply keeps_ret].
    + intros Hobj. unfold exec, tryCatch, It_stop, bind at 1, get. rewrite Es. simpl.
      unfold bind at 1. simpl. rewrite Hobj. reflexivity.
  - exists w. repeat split; [apply log_grows_refl | auto].
Qed.

(** ** The [stopped] callback of the daemon *)

Lemma cleanUp_spec w :
  timer_inv w ->
  let w' := exec D__cleanUp w in
  timers w' = [] /\ d_retryTimer w' = None /\ d_disposables w' = [] /\
  d_state w' = d_state w /\
  exists d, log w' = log w ++ d /\ Forall cleanup_effect d.
Proof.
  intros Ht. unfold exec, D__cleanUp, bind, get.
  rewrite forEach_D_dispose; simpl.
  unfold clearRetryTimer, bind, get; simpl. unfold timer_inv in Ht.
  assert (Hd : Forall cleanup_effect
                 (map (fun d => DDispose (fst d)) (d_disposables w))).
  { apply Forall_forall. intros e He. apply in_map_iff in He as (x & <- & _).
    exact I. }
  destruct (d_retryTimer w) as [t |] eqn:E; simpl; rewrite ?E.
  - destruct (timers w) as [| [t1 n1] [| x rest]]; simpl in *; try discriminate.
    injection Ht as ->. rewrite Nat.eqb_refl; simpl. repeat split.
    eexists. split; [rewrite <- app_assoc; reflexivity |].
    apply Forall_app. split; [exact Hd | repeat constructor].
  - destruct (timers w); simpl in *; [| discriminate]. repeat split.
    eexists. split; [reflexivity | exact Hd].
Qed.

Lemma cleanup_not_retry nth d :
  Forall cleanup_effect d -> Forall (fun e => ~ retry_for_other nth e) d.
Proof.
  intros H. eapply Forall_impl; [| exact H].
  intros [] Hc Hr; simpl in *; auto.
Qed.

Lemma onStopped_spec w :
  alive w -> timer_inv w -> retry_armed 1 w (exec D_onStopped w).
Proof.
  intros Ha Ht. unfold exec, D_onStopped.
  rewrite (bind_returns _ _ tt w (nt_unit _ _ nt_cleanUp)).
  destruct (cleanUp_spec w Ht) as (C1 & C2 & C3 & C4 & d & C5 & C6).
  set (w1 := exec D__cleanUp w) in *.
  unfold bind at 1, get.
  assert (Hd : dead w1 = false) by (unfold dead; rewrite C4; exact Ha).
  rewrite Hd. unfold D__scheduleRetry, bind at 1, get. rewrite C2.
  unfold D_notify, D_assign, setTimeout, bind, get, tell, modify, fresh; simpl.
  unfold retry_armed; simpl. rewrite C1, C3. repeat split; simpl.
  - eexists. split; reflexivity.
  - eexists. split; [rewrite C5, <- !app_assoc; reflexivity |]. split.
    + eexists. apply in_app_iff. right. left. reflexivity.
    + apply Forall_app. split; [apply cleanup_not_retry, C6 |].
      repeat constructor; simpl; auto.
Qed.

Lemma retry_armed_alive nth w0 w : retry_armed nth w0 w -> alive w /\ timer_inv w.
Proof.
  intros (H1 & _ & (t & H2 & H3) & _). split.
  - unfold alive, dead. now rewrite H1.
  - unfold timer_inv. now rewrite H2, H3.
Qed.

Lemma retry_armed_after nth w0 w w1 :
  (exists d, log w = log w0 ++ d /\ Forall (fun e => ~ retry_for_other nth e) d) ->
  retry_armed nth w w1 -> retry_armed nth w0 w1.
Proof.
  intros (d0 & E0 & F0) (H1 & H2 & H3 & d & E & (seen & Hin) & F).
  repeat split; try assumption.
  exists (d0 ++ d). split; [rewrite E, E0, app_assoc; reflexivity |]. split.
  - exists seen. apply in_app_iff. now right.
  - apply Forall_app. split; assumption.
Qed.

Lemma once_body_spec l w :
  alive w -> timer_inv w -> retry_armed 1 w (exec (once_body l) w).
Proof.
  intros Ha Ht. unfold exec, once_body, bind at 1, modify.
  apply (onStopped_spec
           (set_it_listeners
              (filter (fun l' => negb (Nat.eqb (fst l') (fst l))) (it_listeners w)) w));
    assumption.
Qed.

Lemma once_body_keeps w0 l : keeps (retry_armed 1 w0) (once_body l).
Proof.
  intros w H. destruct (retry_armed_alive _ _ _ H) as [Ha Ht].
  apply (retry_armed_after 1 w0 w).
  - destruct H as (_ & _ & _ & d & E & _ & F). exists d. split; assumption.
  - apply once_body_spec; assumption.
Qed.

Lemma nt_once_body l : never_throws (once_body l).
Proof. unfold once_body. nt_auto. Qed.

Lemma emit_retries st w :
  alive w -> timer_inv w ->
  (exists l, In l (it_listeners w) /\ snd l = st) ->
  retry_armed 1 w (exec (It_emit st) w).
Proof.
  intros Ha Ht (l & Hl & Hs).
  unfold exec, It_emit, bind at 1, get. fold once_body.
  destruct (filter (fun l0 => String.eqb (snd l0) st) (it_listeners w))
    as [| x xs] eqn:Ef.
  - exfalso. assert (Hin : In l (filter (fun l0 => String.eqb (snd l0) st) (it_listeners w))).
    { apply filter_In. split; [exact Hl |]. rewrite Hs. apply String.eqb_refl. }
    rewrite Ef in Hin. destruct Hin.
  - simpl. rewrite (bind_returns _ _ tt w (nt_unit _ _ (nt_once_body x))).
    apply keeps_forEach.
    + intro. apply once_body_keeps.
    + apply once_body_spec; assumption.
Qed.

Lemma abort_trace_not_retry nth events err ws :
  Forall (fun e => ~ retry_for_other nth e) (abort_trace events err ws).
Proof.
  revert ws. induction events as [| ev events IH]; intros ws; simpl; constructor; auto.
Qed.

Lemma dispose_trace_not_retry nth (subs : list Sub) :
  Forall (fun e => ~ retry_for_other nth e)
    (map (fun s => ItDispose (s_id s)) subs).
Proof.
  apply Forall_forall. intros e He. apply in_map_iff in He as (x & <- & _). auto.
Qed.

Lemma log_grows_clearRetryTimer w0 : keeps (log_grows w0) clearRetryTimer.
Proof. unfold clearRetryTimer, clearTimeout. log_grows_auto. Qed.

Lemma D__start_unfold nth w :
  alive w -> D__start nth w = It_start (ByDaemon nth) (announced nth w).
Proof.
  intros Ha. unfold D__start, bind at 1, get. rewrite Ha.
  rewrite (bind_returns _ _ tt w (clearRetryTimer_returns w)).
  rewrite (bind_returns _ _ tt _ (cleanUp_returns (exec clearRetryTimer w))).
  unfold announced, D_notify, D_assign, bind, get, tell, modify; simpl.
  rewrite <- app_assoc. reflexivity.
Qed.

(** An attempt of a daemon that is not dead announces itself. *)
Lemma D__start_announces nth w :
  alive w ->
  exists seen d,
    log (exec (D__start nth) w) = log w ++ d /\
    In (DNotify DaemonEvents.STARTING (EventArgs.Starting nth) seen) d.
Proof.
  intros Ha. unfold exec. rewrite (D__start_unfold nth w Ha).
  assert (G1 : log_grows w (exec clearRetryTimer w))
    by (apply log_grows_clearRetryTimer, log_grows_refl).
  assert (G2 : log_grows w (exec D__cleanUp (exec clearRetryTimer w)))
    by (apply log_grows_cleanUp, G1).
  assert (G3 : log_grows (announced nth w) (snd (It_start (ByDaemon nth) (announced nth w))))
    by (apply log_grows_It_start, log_grows_refl).
  destruct G2 as [d2 E2]. destruct G3 as [d3 E3].
  exists (d_state (exec D__cleanUp (exec clearRetryTimer w))).
  exists (d2 ++ [DNotify DaemonEvents.STARTING (EventArgs.Starting nth)
                   (d_state (exec D__cleanUp (exec clearRetryTimer w)));
                 DAssign DaemonStatus.STARTING] ++ d3).
  split.
  - rewrite E3. unfold announced; simpl. rewrite E2, <- !app_assoc. reflexivity.
  - rewrite !in_app_iff. right. left. now left.
Qed.

(** ** A resource that cannot be created *)

Lemma It_emit_nil ev w : it_listeners w = [] -> It_emit ev w = (Returns tt, w).
Proof. intros H. unfold It_emit, bind, get. rewrite H. reflexivity. Qed.

Lemma setState_quiet s x w :
  it_listeners w = [] ->
  It__setState s x w =
  (Returns tt,
   set_log (log w ++
            [ItNotify s {| oldState := it_state w; extra := x |} (it_state w)
               (waiting_on s (it_waiters w));
             ItAssign s])
     (set_it_state s (set_it_waiters (not_waiting_on s (it_waiters w)) w))).
Proof.
  intros H. rewrite setState_unfold. cbv zeta. unfold exec.
  rewrite It_emit_nil by exact H. unfold broadcast; simpl.
  rewrite <- app_assoc. reflexivity.
Qed.

Lemma observations_app l1 l2 :
  observations (l1 ++ l2) = observations l1 ++ observations l2.
Proof.
  induction l1 as [| e l1 IH]; simpl; [reflexivity |].
  destruct (observe e); simpl; now rewrite IH.
Qed.

Lemma observations_aborts events err ws :
  observations (abort_trace events err ws) = [].
Proof.
  revert ws. induction events as [| e events IH]; intros ws; simpl; auto.
Qed.

Ltac obs_simpl :=
  rewrite ?observations_app; simpl;
  rewrite ?observations_aborts; simpl;
  rewrite <- ?app_assoc; simpl; rewrite ?app_nil_r; try reflexivity.

Ltac resting_world w :=
  match goal with
  | H : resting _ _ _ _ _ w |- _ =>
      destruct H as (? & ? & ? & ? & ? & ? & ? & ?);
      destruct w; simpl in *; subst
  end.

Lemma attempt_begins nth obs ds w :
  resting [] ds None [] obs w ->
  ds <> DaemonStatus.DEAD ->
  exists task stage,
    resting [{| t_id := task; t_caller := ByDaemon nth; t_stage := stage |}]
      DaemonStatus.STARTING None []
      (obs ++ [SawStarting nth; SawStatus DaemonStatus.STARTING])
      (exec (D__start nth) w) /\
    (stage = AwaitCreate \/ exists e, stage = AwaitStart (Throws e)).
Proof.
  intros H Hds.
  assert (Ha : alive w).
  { destruct H as (_ & _ & _ & _ & E & _). unfold alive, dead. rewrite E.
    now destruct ds. }
  unfold exec. rewrite (D__start_unfold nth w Ha).
  resting_world w.
  unfold announced, exec, clearRetryTimer, D__cleanUp, bind, get; simpl.
  unfold It_start, It__start_head, bind, get, fresh; simpl.
  unfold startable_now; simpl.
  destruct (has (startable (stateConf meta)) it_state0); simpl.
  - eexists _, AwaitCreate. split; [| left; reflexivity].
    unfold resting; simpl. repeat split. obs_simpl.
  - eexists _, (AwaitStart (Throws _)). split; [| right; eexists; reflexivity].
    unfold resting; simpl. repeat split. obs_simpl.
Qed.

Lemma find_task_single task c stage w :
  pending w = [{| t_id := task; t_caller := c; t_stage := stage |}] ->
  find_task task w = Some {| t_id := task; t_caller := c; t_stage := stage |}.
Proof. intros H. unfold find_task. rewrite H; simpl. now rewrite Nat.eqb_refl. Qed.

Lemma creation_fails task c e ds field live obs w :
  resting [{| t_id := task; t_caller := c; t_stage := AwaitCreate |}]
    ds field live obs w ->
  resting [{| t_id := task; t_caller := c; t_stage := AwaitStart (Throws e) |}]
    ds field live obs (step (Settle task (Throws e)) w).
Proof.
  intros H. unfold step.
  rewrite (find_task_single task c AwaitCreate w) by apply H.
  resting_world w. unfold resting; simpl. rewrite Nat.eqb_refl. repeat split.
Qed.

Lemma start_gives_up task c e ds field live obs w :
  resting [{| t_id := task; t_caller := c; t_stage := AwaitStart (Throws e) |}]
    ds field live obs w ->
  resting [{| t_id := task; t_caller := c; t_stage := AwaitCaller (Throws e) |}]
    ds field live obs (step (Resume task) w).
Proof.
  intros H. unfold step.
  rewrite (find_task_single task c (AwaitStart (Throws e)) w) by apply H.
  cbn [t_stage]. rewrite start_tail_unfold. cbv zeta. unfold exec.
  rewrite It_emit_nil by apply H.
  resting_world w. unfold resting; simpl. rewrite Nat.eqb_refl. repeat split.
  obs_simpl.
Qed.

Lemma catch_block_unfold nth err w :
  exists w1,
    D__start_tail nth (Throws err) w = give_up_or_retry nth err w1 /\
    log_grows w w1 /\
    (alive w -> alive w1) /\
    (it_uObj w = None -> w1 = w).
Proof.
  unfold D__start_tail, bind at 1, get. cbv beta.
  match goal with
  | |- context [bind (if stoppable_now ?W then _ else _) ?k ?W] =>
      destruct (catch_block_stop W k) as (w1 & E & H)
  end.
  exists w1. split; [rewrite E; reflexivity | exact H].
Qed.

Lemma attempt_fails task nth e obs w :
  resting [{| t_id := task; t_caller := ByDaemon nth; t_stage := AwaitCaller (Throws e) |}]
    DaemonStatus.STARTING None [] obs w ->
  let w' := step (Resume task) w in
  (maxAttempt <= nth ->
   resting [] DaemonStatus.DEAD None []
     (obs ++ [SawStartFailed nth (-1); SawStatus DaemonStatus.DEAD]) w') /\
  (nth < maxAttempt ->
   exists timer,
     resting [] DaemonStatus.RETRY_SCHEDULED (Some timer) [(timer, nth + 1)]
       (obs ++ [SawStartFailed nth retryDelay;
                SawRetryScheduled (nth + 1) retryDelay;
                SawStatus DaemonStatus.RETRY_SCHEDULED]) w').
Proof.
  intros H w'.
  assert (E : w' = exec (give_up_or_retry nth e) (remove_task task w)).
  { unfold w', step.
    rewrite (find_task_single task (ByDaemon nth) (AwaitCaller (Throws e)) w)
      by apply H.
    cbn [t_stage t_caller]. unfold exec.
    destruct (catch_block_unfold nth e (remove_task task w)) as (w1 & E & _ & _ & Hs).
    rewrite E, Hs; [reflexivity | apply H]. }
  clearbody w'. subst w'.
  resting_world w. unfold remove_task; simpl. rewrite Nat.eqb_refl. simpl.
  unfold exec, give_up_or_retry.
  destruct (Z.geb_spec nth maxAttempt) as [Hge | Hlt]; split; intros Hcmp; try lia.
  - unfold resting; simpl. repeat split. obs_simpl.
  - exists next_id0. unfold resting; simpl. repeat split. obs_simpl.
Qed.

Lemma drive_step fail k w ev :
  next_event fail w = Some ev -> drive fail (S k) w = drive fail k (step ev w).
Proof. intros H. simpl. now rewrite H. Qed.

Lemma drive_add fail a b w :
  drive fail (a + b) w = drive fail b (drive fail a w).
Proof.
  revert w. induction a as [| a IH]; intros w; simpl; [reflexivity |].
  destruct (next_event fail w) as [ev |] eqn:E; [apply IH |].
  destruct b; simpl; [reflexivity | now rewrite E].
Qed.

Lemma attempt_runs fail nth obs ds w :
  resting [] ds None [] obs w ->
  ds <> DaemonStatus.DEAD ->
  exists k,
    let w' := drive fail k (exec (D__start nth) w) in
    (maxAttempt <= nth ->
     resting [] DaemonStatus.DEAD None [] (obs ++ failing_trace 0 nth) w') /\
    (nth < maxAttempt ->
     exists timer,
       resting [] DaemonStatus.RETRY_SCHEDULED (Some timer) [(timer, nth + 1)]
         (obs ++ [SawStarting nth; SawStatus DaemonStatus.STARTING;
                  SawStartFailed nth retryDelay;
                  SawRetryScheduled (nth + 1) retryDelay;
                  SawStatus DaemonStatus.RETRY_SCHEDULED]) w').
Proof.
  intros H Hds.
  destruct (attempt_begins nth obs ds w H Hds) as (task & stage & H1 & Hstage).
  set (w1 := exec (D__start nth) w) in *.
  assert (Hend : forall e w3,
            resting [{| t_id := task; t_caller := ByDaemon nth;
                        t_stage := AwaitCaller (Throws e) |}]
              DaemonStatus.STARTING None []
              (obs ++ [SawStarting nth; SawStatus DaemonStatus.STARTING]) w3 ->
            let w' := drive fail 1 w3 in
            (maxAttempt <= nth ->
             resting [] DaemonStatus.DEAD None [] (obs ++ failing_trace 0 nth) w') /\
            (nth < maxAttempt ->
             exists timer,
               resting [] DaemonStatus.RETRY_SCHEDULED (Some timer) [(timer, nth + 1)]
                 (obs ++ [SawStarting nth; SawStatus DaemonStatus.STARTING;
                          SawStartFailed nth retryDelay;
                          SawRetryScheduled (nth + 1) retryDelay;
                          SawStatus DaemonStatus.RETRY_SCHEDULED]) w')).
  { intros e w3 H3 w'.
    assert (E : w' = step (Resume task) w3).
    { unfold w'. rewrite (drive_step fail 0 w3 (Resume task)); [reflexivity |].
      unfold next_event. destruct H3 as (-> & _). reflexivity. }
    rewrite E. destruct (attempt_fails task nth e _ w3 H3) as [A B].
    simpl. rewrite <- !app_assoc in A, B. simpl in A, B. split; assumption. }
  assert (Hmid : forall e w2,
            resting [{| t_id := task; t_caller := ByDaemon nth;
                        t_stage := AwaitStart (Throws e) |}]
              DaemonStatus.STARTING None []
              (obs ++ [SawStarting nth; SawStatus DaemonStatus.STARTING]) w2 ->
            drive fail 2 w2 = drive fail 1 (step (Resume task) w2) /\
            resting [{| t_id := task; t_caller := ByDaemon nth;
                        t_stage := AwaitCaller (Throws e) |}]
              DaemonStatus.STARTING None []
              (obs ++ [SawStarting nth; SawStatus DaemonStatus.STARTING])
              (step (Resume task) w2)).
  { intros e w2 H2. split.
    - apply drive_step. unfold next_event. destruct H2 as (-> & _). reflexivity.
    - apply start_gives_up, H2. }
  destruct Hstage as [-> | [e ->]].
  - exists 3%nat. cbv zeta.
    assert (E : drive fail 3 w1 = drive fail 2 (step (Settle task (Throws (fail task))) w1)).
    { apply drive_step. unfold next_event. destruct H1 as (-> & _). reflexivity. }
    rewrite E.
    destruct (Hmid _ _ (creation_fails task _ (fail task) _ _ _ _ w1 H1)) as [E2 H3].
    rewrite E2. apply (Hend _ _ H3).
  - exists 2%nat. cbv zeta.
    destruct (Hmid _ _ H1) as [E2 H3].
    rewrite E2. apply (Hend _ _ H3).
Qed.

Lemma timer_fires_resting nth timer obs w :
  resting [] DaemonStatus.RETRY_SCHEDULED (Some timer) [(timer, nth)] obs w ->
  exists w0,
    step (TimerFires timer) w = exec (D__start nth) w0 /\
    resting [] DaemonStatus.RETRY_SCHEDULED None [] obs w0.
Proof.
  intros H.
  exists (set_d_retryTimer None (remove_timer timer w)). split.
  - unfold step, find_timer. destruct H as (_ & _ & _ & _ & _ & _ & -> & _).
    simpl. rewrite Nat.eqb_refl. reflexivity.
  - resting_world w. unfold resting, remove_timer; simpl. rewrite Nat.eqb_refl.
    repeat split.
Qed.

Lemma failing_run fail more : forall nth obs ds w,
  resting [] ds None [] obs w ->
  ds <> DaemonStatus.DEAD ->
  maxAttempt = nth + Z.of_nat more ->
  exists fuel,
    resting [] DaemonStatus.DEAD None [] (obs ++ failing_trace more nth)
      (drive fail fuel (exec (D__start nth) w)).
Proof.
  induction more as [| more IH]; intros nth obs ds w H Hds Hmax.
  - destruct (attempt_runs fail nth obs ds w H Hds) as (k & A & _).
    exists k. apply A. lia.
  - destruct (attempt_runs fail nth obs ds w H Hds) as (k & _ & B).
    destruct B as (timer & Hr); [lia |].
    set (w1 := drive fail k (exec (D__start nth) w)) in *.
    destruct (timer_fires_resting (nth + 1) timer _ w1 Hr) as (w0 & E0 & H0).
    destruct (IH (nth + 1) _ _ w0 H0) as (fuel & Hf); [discriminate | lia |].
    exists (k + S fuel)%nat. rewrite drive_add. fold w1.
    rewrite (drive_step fail fuel w1 (TimerFires timer)).
    + rewrite E0. simpl failing_trace. rewrite <- app_assoc in Hf. exact Hf.
    + unfold next_event. destruct Hr as (-> & _ & _ & _ & _ & _ & -> & _).
      reflexivity.
Qed.

Lemma count_failing_trace more nth :
  List.length (filter is_start_failed (failing_trace more nth)) = S more.
Proof.
  revert nth. induction more as [| more IH]; intros nth; simpl; [reflexivity |].
  now rewrite IH.
Qed.

(** ** Dead, with nothing in flight, is final *)

Lemma broadcasts_app l1 l2 : broadcasts (l1 ++ l2) = broadcasts l1 ++ broadcasts l2.
Proof.
  induction l1 as [| e l1 IH]; simpl; [reflexivity |].
  destruct e; simpl; now rewrite ?IH.
Qed.

Ltac silent_leaf :=
  keeps_leaf;
  match goal with
  | H : silent _ _ |- _ =>
      let Hd := fresh "Hd" in
      let Hl := fresh "Hl" in
      let Ht := fresh "Ht" in
      let Hf := fresh "Hf" in
      let Hp := fresh "Hp" in
      let Hb := fresh "Hb" in
      destruct H as ((Hd & (Hl & Ht & Hf) & Hp) & Hb);
      unfold silent, given_up, disarmed, dead in *; simpl;
      rewrite ?Hl, ?Ht, ?Hf, ?broadcasts_app, ?Hb; simpl;
      rewrite ?app_nil_r; repeat split; auto
  end.

Ltac silent_auto :=
  repeat first [ keeps_step | solve [auto with keeps] | silent_leaf ].

Lemma silent_It_emit said ev : keeps (silent said) (It_emit ev).
Proof.
  intros w H. rewrite It_emit_nil; [exact H |]. apply H.
Qed.

Lemma silent_setState said s x : keeps (silent said) (It__setState s x).
Proof.
  pose proof (silent_It_emit said).
  unfold It__setState, It_notify. silent_auto.
Qed.

Lemma silent_onDeath said reason : keeps (silent said) (It__onDeath reason).
Proof.
  pose proof (silent_setState said).
  unfold It__onDeath, It_setObj, It_dispose, It_abort. silent_auto.
Qed.

Lemma silent_Obj_emit said obj ev args : keeps (silent said) (Obj_emit obj ev args).
Proof.
  pose proof (silent_onDeath said).
  unfold Obj_emit, run_handler, It__onError, It_abortAll. silent_auto.
Qed.

Lemma silent_It_stop said : keeps (silent said) It_stop.
Proof.
  pose proof (silent_setState said). pose proof (silent_Obj_emit said).
  unfold It_stop, It__stop. silent_auto.
Qed.

Lemma silent_start_head said task : keeps (silent said) (It__start_head task).
Proof.
  pose proof (silent_setState said).
  unfold It__start_head. silent_auto.
Qed.

Lemma silent_It_start said : keeps (silent said) (It_start ByUser).
Proof.
  intros w H. unfold It_start, bind, fresh.
  assert (H1 : silent said (set_next_id (S (next_id w)) w)) by exact H.
  apply (silent_start_head said (next_id w)) in H1.
  destruct (It__start_head (next_id w) (set_next_id (S (next_id w)) w)) as [r w'].
  simpl in *. destruct H1 as ((Hd & Hdis & Hp) & Hb).
  repeat split; try assumption; try apply Hdis.
  intros t Ht; simpl in Ht. apply in_app_iff in Ht as [Ht | [<- | []]];
    [apply Hp, Ht | reflexivity].
Qed.

Lemma silent_It__start_tail said r : keeps (silent said) (It__start_tail r).
Proof.
  pose proof (silent_setState said).
  unfold It__start_tail, It_setObj, It_on. silent_auto.
Qed.

Lemma silent_It_start_tail said r : keeps (silent said) (It_start_tail r).
Proof.
  pose proof (silent_setState said).
  unfold It_start_tail, It_abort. silent_auto.
Qed.

Lemma silent_D_stop said : keeps (silent said) D_stop.
Proof.
  pose proof (silent_It_stop said).
  unfold D_stop, D_assign, D__cleanUp, D_dispose, clearRetryTimer, clearTimeout.
  silent_auto.
Qed.

Lemma silent_pending said w p :
  (forall t, In t p -> In (t_id t, t_caller t) (map (fun x => (t_id x, t_caller x)) (pending w))) ->
  silent said w -> silent said (set_pending p w).
Proof.
  intros Hsub ((Hd & Hdis & Hp) & Hb). repeat split; try assumption; try apply Hdis.
  intros t Ht. simpl in Ht. apply Hsub in Ht.
  apply in_map_iff in Ht as (x & [= _ E] & Hx). rewrite <- E. apply Hp, Hx.
Qed.

Lemma find_task_In task w t : find_task task w = Some t -> In t (pending w).
Proof. intros H. apply find_some in H. apply H. Qed.

Lemma silent_step said ev w :
  ev <> CallDaemonStart -> silent said w -> silent said (step ev w).
Proof.
  intros Hev H. destruct ev; simpl; try congruence.
  - apply silent_D_stop, H.
  - apply silent_It_start, H.
  - unfold exec. apply keeps_tryCatch; [apply silent_It_stop | | exact H].
    intro. silent_auto.
  - revert H. unfold It_waitForState, It_waitFor. revert w.
    change (keeps (silent said)
              (w <- get ;;
               if String.eqb (it_state w) dstState then ret Undefined
               else waiter <- (waiter <- fresh ;;
                    modify (fun w0 => set_it_waiters (it_waiters w0 ++ [(dstState, waiter)]) w0) ;;
                    ret waiter) ;; ret (Awaiting waiter))).
    silent_auto.
  - destruct (find_task task w) as [[id c [| r0 | r0]] |]; simpl; try exact H.
    pose proof (silent_It__start_tail said r w H) as H1.
    destruct (It__start_tail r w) as [r' w']; simpl in *.
    unfold set_stage. apply silent_pending; [| exact H1].
    intros t Ht. apply in_map_iff in Ht as (x & <- & Hx).
    apply in_map_iff. exists x. split; [| exact Hx].
    destruct (Nat.eqb (t_id x) task); reflexivity.
  - destruct (find_task task w) as [[id c [| r0 | r0]] |] eqn:Ef; simpl; try exact H.
    + pose proof (silent_It_start_tail said r0 w H) as H1.
      destruct (It_start_tail r0 w) as [r' w']; simpl in *.
      unfold set_stage. apply silent_pending; [| exact H1].
      intros t Ht. apply in_map_iff in Ht as (x & <- & Hx).
      apply in_map_iff. exists x. split; [| exact Hx].
      destruct (Nat.eqb (t_id x) task); reflexivity.
    + destruct c as [nth |].
      * exfalso. apply find_task_In in Ef.
        destruct H as ((_ & _ & Hp) & _). specialize (Hp _ Ef). discriminate.
      * assert (H1 : silent said (remove_task task w)).
        { unfold remove_task. apply silent_pending; [| exact H].
          intros t Ht. apply filter_In in Ht as [Ht _].
          apply (in_map (fun x => (t_id x, t_caller x))), Ht. }
        revert H1. generalize (remove_task task w). 
        change (keeps (silent said) (tell (ItSettled task r0))). silent_auto.
  - unfold find_timer. destruct H as ((Hd & (Hl & Ht & Hf) & Hp) & Hb).
    rewrite Ht. simpl. repeat split; assumption.
  - apply silent_Obj_emit, H.
Qed.

Lemma silent_run said evs : forall w,
  ~ In CallDaemonStart evs -> silent said w -> silent said (run evs w).
Proof.
  unfold run. induction evs as [| ev evs IH]; simpl; intros w Hn H; [exact H |].
  apply IH; [tauto |]. apply silent_step; [| exact H].
  intros ->. apply Hn. now left.
Qed.

(** ** Broadcast first, assignment next *)

Lemma d_paired_app a : forall x b,
  d_paired x a = true -> d_paired None b = true -> d_paired x (a ++ b) = true.
Proof.
  induction a as [| e a IH]; intros x b Ha Hb; simpl in *.
  - destruct x; [discriminate | exact Hb].
  - destruct e, x; simpl in *; try discriminate; auto.
    apply andb_true_iff in Ha as [H1 H2]. rewrite H1; simpl. auto.
Qed.

Lemma it_paired_app a : forall x b,
  it_paired x a = true -> it_paired None b = true -> it_paired x (a ++ b) = true.
Proof.
  induction a as [| e a IH]; intros x b Ha Hb; simpl in *.
  - destruct x; [discriminate | exact Hb].
  - destruct e, x; simpl in *; try discriminate; auto;
      apply andb_true_iff in Ha as [H1 H2]; rewrite H1; simpl; auto.
Qed.

Lemma it_paired_daemon L : forall x b,
  Forall daemon_effect L -> it_paired x (L ++ b) = it_paired x b.
Proof.
  induction L as [| e L IH]; intros x b H; simpl; [reflexivity |].
  inversion H as [| ? ? He HL]; subst.
  destruct e; simpl in He; try contradiction; apply IH, HL.
Qed.

Lemma last_status_app a : forall ds b,
  last_status ds (a ++ b) = last_status (last_status ds a) b.
Proof.
  induction a as [| e a IH]; intros ds b; simpl; [reflexivity |].
  destruct e; apply IH.
Qed.

Lemma last_state_app a : forall st b,
  last_state st (a ++ b) = last_state (last_state st a) b.
Proof.
  induction a as [| e a IH]; intros st b; simpl; [reflexivity |].
  destruct e; apply IH.
Qed.

Lemma reads_current_app a : forall ds st b,
  reads_current ds st a ->
  reads_current (last_status ds a) (last_state st a) b ->
  reads_current ds st (a ++ b).
Proof.
  induction a as [| e a IH]; intros ds st b Ha Hb; simpl in *; [exact Hb |].
  destruct e; simpl in *; try (apply IH; assumption).
  - destruct Ha as (H1 & H2 & H3). repeat split; try assumption. now apply IH.
  - destruct Ha as (H1 & H2). split; [assumption | now apply IH].
Qed.

Lemma last_state_daemon L : forall st,
  Forall daemon_effect L -> last_state st L = st.
Proof.
  induction L as [| e L IH]; intros st H; simpl; [reflexivity |].
  inversion H as [| ? ? He HL]; subst.
  destruct e; simpl in He; try contradiction; apply IH, HL.
Qed.

Lemma orderly_nil w : orderly w w [].
Proof. unfold orderly. rewrite app_nil_r. repeat split. Qed.

Lemma orderly_app w0 w1 w2 L1 L2 :
  orderly w0 w1 L1 -> orderly w1 w2 L2 -> orderly w0 w2 (L1 ++ L2).
Proof.
  intros (E1 & D1 & I1 & R1 & S1 & T1) (E2 & D2 & I2 & R2 & S2 & T2).
  unfold orderly. rewrite last_status_app, last_state_app, <- S1, <- T1.
  split; [rewrite E2, E1, app_assoc; reflexivity |].
  split; [apply d_paired_app; assumption |].
  split; [apply it_paired_app; assumption |].
  split; [apply reads_current_app; [assumption | now rewrite <- S1, <- T1] |].
  split; assumption.
Qed.

Lemma paired_since_refl w : paired_since w w.
Proof. exists []. apply orderly_nil. Qed.

Lemma d_paired_since_refl w : d_paired_since w w.
Proof. exists []. split; [apply orderly_nil | constructor]. Qed.

Lemma paired_since_trans w0 w1 w2 :
  paired_since w0 w1 -> paired_since w1 w2 -> paired_since w0 w2.
Proof.
  intros (L1 & H1) (L2 & H2). exists (L1 ++ L2). eapply orderly_app; eassumption.
Qed.

Lemma d_paired_since_trans w0 w1 w2 :
  d_paired_since w0 w1 -> d_paired_since w1 w2 -> d_paired_since w0 w2.
Proof.
  intros (L1 & H1 & F1) (L2 & H2 & F2). exists (L1 ++ L2).
  split; [eapply orderly_app; eassumption | apply Forall_app; split; assumption].
Qed.

(** A stretch of code that relates its start to its end. *)
Lemma keeps_since (R : World -> World -> Prop) {A} (m : M A) :
  (forall a b c, R a b -> R b c -> R a c) ->
  (forall w, R w (snd (m w))) ->
  forall w0, keeps (R w0) m.
Proof. intros Ht Hm w0 w H. eapply Ht; [exact H | apply Hm]. Qed.

Ltac orderly_unit :=
  unfold orderly; simpl;
  repeat match goal with |- _ /\ _ => split end;
  simpl; rewrite ?app_nil_r, <- ?app_assoc; simpl;
  try reflexivity; solve [repeat constructor].

Ltac since_leaf R_trans :=
  match goal with
  | |- keeps _ (tell ?e) =>
      apply (keeps_since _ _ R_trans); intros ?; exists [e]; orderly_unit
  | |- keeps _ _ =>
      apply (keeps_since _ _ R_trans); intros ?; exists []; orderly_unit
  end.

Ltac since_unit :=
  eexists; unfold orderly; simpl;
  repeat match goal with |- _ /\ _ => split end;
  [ rewrite <- ?app_assoc; simpl; reflexivity | .. ];
  simpl; try reflexivity; solve [repeat constructor].

Ltac d_since_auto :=
  repeat first
    [ keeps_step
    | solve [auto with keeps]
    | match goal with
      | |- keeps _ (modify _) => since_leaf d_paired_since_trans
      | |- keeps _ (tell _) => since_leaf d_paired_since_trans
      | |- keeps _ fresh => since_leaf d_paired_since_trans
      end ].

Lemma d_since_cleanUp w0 : keeps (d_paired_since w0) D__cleanUp.
Proof.
  unfold D__cleanUp, D_dispose, clearRetryTimer, clearTimeout. d_since_auto.
Qed.

Lemma d_since_scheduleRetry w0 nth : keeps (d_paired_since w0) (D__scheduleRetry nth).
Proof.
  unfold D__scheduleRetry. apply keeps_bind; [apply keeps_get | intro].
  apply keeps_bind.
  - unfold clearTimeout. d_since_auto.
  - intros _. apply (keeps_since _ _ d_paired_since_trans). intros w.
    unfold D_notify, D_assign, setTimeout, bind, get, tell, modify, fresh; simpl.
    since_unit.
Qed.

Lemma d_since_onStopped w0 : keeps (d_paired_since w0) D_onStopped.
Proof.
  pose proof (d_since_cleanUp w0). pose proof (d_since_scheduleRetry w0).
  unfold D_onStopped. d_since_auto.
Qed.

Lemma d_since_It_emit w0 ev : keeps (d_paired_since w0) (It_emit ev).
Proof.
  pose proof (d_since_onStopped w0).
  unfold It_emit. d_since_auto.
Qed.

Lemma paired_setState s x w : paired_since w (exec (It__setState s x) w).
Proof.
  unfold exec. rewrite setState_unfold. cbv zeta.
  destruct (d_since_It_emit (broadcast s x w) s (broadcast s x w)
              (d_paired_since_refl _)) as (L & (E & Dp & Ip & R & S & T) & F).
  fold (exec (It_emit s) (broadcast s x w)) in E, S, T.
  set (w1 := exec (It_emit s) (broadcast s x w)) in *.
  simpl in R, S, T.
  exists ([ItNotify s {| oldState := it_state w; extra := x |} (it_state w)
             (waiting_on s (it_waiters w))] ++ L ++ [ItAssign s]).
  unfold orderly. simpl.
  split; [rewrite E; unfold broadcast; simpl; rewrite <- !app_assoc; reflexivity |].
  split; [apply d_paired_app; [exact Dp | reflexivity] |].
  split.
  { rewrite String.eqb_refl; simpl.
    rewrite it_paired_daemon by exact F. simpl. now rewrite String.eqb_refl. }
  split.
  { repeat split. apply reads_current_app; [exact R | exact I]. }
  rewrite last_status_app, last_state_app, (last_state_daemon L _ F). simpl.
  split; [exact S | reflexivity].
Qed.

Ltac paired_auto :=
  repeat first
    [ keeps_step
    | solve [auto with keeps]
    | match goal with
      | |- keeps _ (It__setState _ _) =>
          apply (keeps_since _ _ paired_since_trans); intros ?; apply paired_setState
      | |- keeps _ (modify _) => since_leaf paired_since_trans
      | |- keeps _ (tell _) => since_leaf paired_since_trans
      | |- keeps _ fresh => since_leaf paired_since_trans
      end ].

Lemma paired_cleanUp w0 : keeps (paired_since w0) D__cleanUp.
Proof.
  unfold D__cleanUp, D_dispose, clearRetryTimer, clearTimeout. paired_auto.
Qed.

Lemma paired_onDeath w0 reason : keeps (paired_since w0) (It__onDeath reason).
Proof. unfold It__onDeath, It_setObj, It_dispose, It_abort. paired_auto. Qed.

Lemma paired_Obj_emit w0 obj ev args : keeps (paired_since w0) (Obj_emit obj ev args).
Proof.
  pose proof (paired_onDeath w0).
  unfold Obj_emit, run_handler, It__onError, It_abortAll. paired_auto.
Qed.

Lemma paired_It_stop w0 : keeps (paired_since w0) It_stop.
Proof.
  pose proof (paired_Obj_emit w0).
  unfold It_stop, It__stop. paired_auto.
Qed.

Lemma paired_start_head w0 task : keeps (paired_since w0) (It__start_head task).
Proof. unfold It__start_head. paired_auto. Qed.

Lemma paired_It_start w0 caller : keeps (paired_since w0) (It_start caller).
Proof. apply keeps_It_start; auto using paired_start_head. Qed.

Lemma paired_D__start w0 nth : keeps (paired_since w0) (D__start nth).
Proof.
  intros w H. destruct (dead w) eqn:Ed.
  - unfold D__start, bind, get. rewrite Ed. exact H.
  - rewrite (D__start_unfold nth w Ed).
    apply paired_It_start. apply (paired_since_trans w0 w); [exact H |].
    assert (H1 : paired_since w (exec clearRetryTimer w)).
    { apply keeps_exec; [| apply paired_since_refl].
      unfold clearRetryTimer, clearTimeout. paired_auto. }
    assert (H2 : paired_since w (exec D__cleanUp (exec clearRetryTimer w)))
      by (apply paired_cleanUp, H1).
    apply (paired_since_trans _ _ _ H2). unfold announced. since_unit.
Qed.

Lemma paired_scheduleRetry w0 nth : keeps (paired_since w0) (D__scheduleRetry nth).
Proof.
  unfold D__scheduleRetry. apply keeps_bind; [apply keeps_get | intro].
  apply keeps_bind.
  - unfold clearTimeout. paired_auto.
  - intros _. apply (keeps_since _ _ paired_since_trans). intros w.
    unfold D_notify, D_assign, setTimeout, bind, get, tell, modify, fresh; simpl.
    since_unit.
Qed.

Lemma paired_D_notify w0 ev arg :
  status_of ev = None -> keeps (paired_since w0) (D_notify ev arg).
Proof.
  intros Hs. apply (keeps_since _ _ paired_since_trans). intros w.
  exists [DNotify ev arg (d_state w)].
  unfold orderly, D_notify, bind, get, tell, modify; simpl. rewrite Hs.
  repeat split.
Qed.

Lemma paired_D__start_tail w0 nth r : keeps (paired_since w0) (D__start_tail nth r).
Proof.
  pose proof (paired_It_stop w0). pose proof (paired_scheduleRetry w0).
  pose proof (paired_D_notify w0 DaemonEvents.START_FAILED) as Hn.
  destruct r as [[] | err].
  - apply (keeps_since _ _ paired_since_trans). intros w.
    unfold D__start_tail, D_notify, D_assign, bind, get, tell, modify, fresh; simpl.
    since_unit.
  - unfold D__start_tail. apply keeps_bind; [apply keeps_get | intro].
    apply keeps_bind; [paired_auto | intros _].
    destruct (nth >=? maxAttempt).
    + apply (keeps_since _ _ paired_since_trans). intros w.
      unfold D_notify, D_assign, D_abort, bind, get, tell, modify; simpl.
      since_unit.
    + paired_auto; apply Hn; reflexivity.
Qed.

Lemma paired_D_assign w0 s : keeps (paired_since w0) (D_assign s).
Proof.
  apply (keeps_since _ _ paired_since_trans). intros w.
  exists [DAssign s]. unfold orderly, D_assign, bind, tell, modify; simpl.
  repeat split.
Qed.

Lemma paired_step ev w : paired_since w (step ev w).
Proof.
  pose proof (paired_D_assign w).
  apply (keeps_every_step (paired_since w)); try apply paired_since_refl;
    auto using paired_It_start, paired_It_stop, paired_D__start_tail, paired_Obj_emit.
  - pose proof (paired_D__start w). unfold D_start. paired_auto.
  - pose proof (paired_cleanUp w). pose proof (paired_It_stop w).
    unfold D_stop, clearRetryTimer, clearTimeout. paired_auto.
  - intro. paired_auto.
  - intros. paired_auto.
  - intro. unfold It_waitForState, It_waitFor. paired_auto.
  - intro. unfold It__start_tail, It_setObj, It_on. paired_auto.
  - intro. unfold It_start_tail, It_abort. paired_auto.
  - intros timer nth w' Hw _. unfold exec, bind, modify; simpl.
    apply paired_D__start. exact Hw.
Qed.

(** ** What a successful start leaves behind *)

Lemma exec_bind {A B} (m : M A) (k : A -> M B) w :
  never_throws m -> exists a, exec (bind m k) w = exec (k a) (exec m w).
Proof.
  intros H. destruct (H w) as [a E]. exists a. unfold exec, bind. now rewrite E.
Qed.

Lemma nt_It_on obj ev h : never_throws (It_on obj ev h).
Proof. unfold It_on, tell. nt_auto. Qed.
#[local] Hint Resolve nt_It_on : nt.

Lemma death_watched_It_on obj ev obj' ev' h :
  keeps (death_watched obj ev) (It_on obj' ev' h).
Proof.
  intros w (sub & H1 & H2 & H3). exists sub.
  unfold It_on, bind, fresh, modify, tell, modify; simpl.
  unfold listening in *; simpl. rewrite filter_app, !in_app_iff. auto.
Qed.

Lemma It_on_watches obj ev w :
  death_watched obj ev (exec (It_on obj ev OnDeath) w).
Proof.
  exists {| s_id := next_id w; s_obj := obj; s_event := ev; s_handler := OnDeath |}.
  unfold exec, It_on, bind, fresh, modify, tell, modify; simpl.
  unfold listening; simpl. rewrite filter_app, !in_app_iff; simpl.
  rewrite Nat.eqb_refl, String.eqb_refl; simpl. auto.
Qed.

Lemma forEach_watches obj d events : forall w,
  In d events ->
  death_watched obj d (exec (forEach events (fun e => It_on obj e OnDeath)) w).
Proof.
  induction events as [| e events IH]; intros w Hin; [destruct Hin |].
  simpl forEach.
  destruct (exec_bind (It_on obj e OnDeath)
              (fun _ => forEach events (fun e0 => It_on obj e0 OnDeath)) w
              (nt_It_on obj e OnDeath)) as [[] E].
  rewrite E. destruct (string_dec e d) as [-> | Hne].
  - apply (keeps_exec (death_watched obj d)).
    + apply keeps_forEach. intro. apply death_watched_It_on.
    + apply It_on_watches.
  - apply IH. destruct Hin; [contradiction | assumption].
Qed.

Lemma start_watches_death obj d w0 :
  In d (deathEvents meta) ->
  let w1 := exec (It__start_tail (Returns obj)) w0 in
  death_watched obj d w1 /\ it_uObj w1 = Some obj.
Proof.
  intros Hd w1. unfold w1, It__start_tail.
  assert (nt1 : never_throws (It_setObj (Some obj)))
    by (unfold It_setObj, tell; nt_auto).
  destruct (exec_bind (It_setObj (Some obj))
              (fun _ =>
                 It__setState (running (states meta)) NoExtra ;;
                 It_on obj "error" OnError ;;
                 forEach (deathEvents meta) (fun e => It_on obj e OnDeath) ;;
                 forEach (eventHandlers meta)
                   (fun eh => It_on obj (fst eh) (Method (snd eh))) ;;
                 ret obj) w0 nt1) as [[] E1].
  rewrite E1. clear E1. set (wa := exec (It_setObj (Some obj)) w0).
  destruct (exec_bind (It__setState (running (states meta)) NoExtra)
              (fun _ =>
                 It_on obj "error" OnError ;;
                 forEach (deathEvents meta) (fun e => It_on obj e OnDeath) ;;
                 forEach (eventHandlers meta)
                   (fun eh => It_on obj (fst eh) (Method (snd eh))) ;;
                 ret obj) wa (nt_setState _ _)) as [[] E2].
  rewrite E2. clear E2.
  set (wb := exec (It__setState (running (states meta)) NoExtra) wa).
  assert (Hb : it_uObj wb = Some obj).
  { unfold wb, exec. rewrite setState_unfold. cbv zeta; simpl.
    destruct (emit_frame (running (states meta))
                (broadcast (running (states meta)) NoExtra wa)) as (_ & F & _).
    rewrite F. reflexivity. }
  destruct (exec_bind (It_on obj "error" OnError)
              (fun _ =>
                 forEach (deathEvents meta) (fun e => It_on obj e OnDeath) ;;
                 forEach (eventHandlers meta)
                   (fun eh => It_on obj (fst eh) (Method (snd eh))) ;;
                 ret obj) wb (nt_It_on _ _ _)) as [[] E3].
  rewrite E3. clear E3. set (wc := exec (It_on obj "error" OnError) wb).
  assert (Hc : it_uObj wc = Some obj) by exact Hb.
  assert (ntd : never_throws
                  (forEach (deathEvents meta) (fun e => It_on obj e OnDeath)))
    by (apply nt_forEach; intro; apply nt_It_on).
  destruct (exec_bind (forEach (deathEvents meta) (fun e => It_on obj e OnDeath))
              (fun _ =>
                 forEach (eventHandlers meta)
                   (fun eh => It_on obj (fst eh) (Method (snd eh))) ;;
                 ret obj) wc ntd) as [[] E4].
  rewrite E4. clear E4.
  pose proof (forEach_watches obj d (deathEvents meta) wc Hd) as Hw.
  set (wd := exec (forEach (deathEvents meta) (fun e => It_on obj e OnDeath)) wc) in *.
  assert (Hd' : it_uObj wd = Some obj).
  { apply (keeps_exec (fun w => it_uObj w = Some obj)); [| exact Hc].
    apply keeps_forEach. intro. unfold It_on. keeps_fields. }
  apply (keeps_exec (fun w => death_watched obj d w /\ it_uObj w = Some obj));
    [| split; assumption].
  apply keeps_bind; [| intro; apply keeps_ret].
  apply keeps_forEach. intros eh w [H1 H2]. split.
  - apply death_watched_It_on, H1.
  - exact H2.
Qed.

(** ** [Unreliable.stop] through to the death of the handle *)

Lemma onDeath_lays_to_rest reason w : laid_to_rest (exec (It__onDeath reason) w).
Proof. unfold exec. rewrite onDeath_unfold. repeat split. Qed.

Lemma nt_onDeath reason : never_throws (It__onDeath reason).
Proof.
  intro w. exists tt. unfold exec. rewrite onDeath_unfold. reflexivity.
Qed.
#[local] Hint Resolve nt_onDeath : nt.

Lemma nt_run_handler h args : never_throws (run_handler h args).
Proof.
  destruct h; simpl; [| apply nt_onDeath |].
  - unfold It__onError, It_abortAll, tell. nt_auto.
  - unfold tell. nt_auto.
Qed.

Lemma laid_run_handler h args : keeps laid_to_rest (run_handler h args).
Proof.
  destruct h; simpl.
  - unfold It__onError, It_abortAll. keeps_fields.
  - intros w _. apply onDeath_lays_to_rest.
  - keeps_fields.
Qed.

Lemma handlers_lay_to_rest args subs : forall w,
  (exists sub, In sub subs /\ s_handler sub = OnDeath) ->
  laid_to_rest (exec (forEach subs (fun s => run_handler (s_handler s) args)) w).
Proof.
  induction subs as [| s subs IH]; intros w (sub & Hin & Hh); [destruct Hin |].
  simpl forEach.
  destruct (exec_bind (run_handler (s_handler s) args)
              (fun _ => forEach subs (fun s0 => run_handler (s_handler s0) args)) w
              (nt_run_handler _ _)) as [[] E].
  rewrite E. destruct Hin as [-> | Hin].
  - apply (keeps_exec laid_to_rest).
    + apply keeps_forEach. intro. apply laid_run_handler.
    + rewrite Hh. apply onDeath_lays_to_rest.
  - apply IH. exists sub. split; assumption.
Qed.

Lemma nt_Obj_emit obj ev args : never_throws (Obj_emit obj ev args).
Proof.
  unfold Obj_emit. apply nt_bind; [apply nt_get | intro].
  apply nt_forEach. intro. apply nt_run_handler.
Qed.

(** ** [Daemon.stop] with no attempt in flight *)

Lemma broadcasts_cleanup d : Forall cleanup_effect d -> broadcasts d = [].
Proof.
  induction 1 as [| e d He _ IH]; [reflexivity |].
  destruct e; simpl in *; try contradiction; exact IH.
Qed.

Lemma D_stop_silences w :
  timer_inv w -> listeners_inv w -> user_only w ->
  silent (broadcasts (log w)) (exec D_stop w).
Proof.
  intros Ht Hl Hu. unfold exec, D_stop, D_assign, bind at 1 2, modify, tell, modify; simpl.
  set (w0 := set_log _ _).
  assert (Ht0 : timer_inv w0) by exact Ht.
  assert (Hl0 : listeners_inv w0) by exact Hl.
  erewrite bind_returns by apply (cleanUp_returns w0).
  destruct (cleanUp_disarms _ Ht0 Hl0) as [Hdis _].
  destruct (cleanUp_spec w0 Ht0) as (_ & _ & _ & Hst & d & Hlog & Hd).
  pose proof (it_frame_cleanUp w0 w0 (it_frame_refl w0)) as (_ & _ & _ & _ & _ & Hp & _).
  set (w1 := exec D__cleanUp w0) in *.
  assert (Hc : clearRetryTimer w1 = (Returns tt, w1)).
  { unfold clearRetryTimer, bind, get. destruct Hdis as (_ & _ & E). now rewrite E. }
  rewrite (bind_returns _ _ tt w1 (clearRetryTimer_returns w1)).
  replace (exec clearRetryTimer w1) with w1 by (unfold exec; now rewrite Hc).
  apply keeps_tryCatch; [apply silent_It_stop | intro; apply keeps_ret |].
  split; [split; [| split] |].
  - unfold dead. rewrite Hst. reflexivity.
  - exact Hdis.
  - intros t Hin. apply Hu. change (pending w1 = pending w) in Hp.
    rewrite Hp in Hin. exact Hin.
  - rewrite Hlog, broadcasts_app, (broadcasts_cleanup _ Hd), app_nil_r.
    unfold w0; simpl. rewrite broadcasts_app. simpl. apply app_nil_r.
Qed.

(** ** The subscriptions on handles *)

Lemma held_frame w0 w : it_frame w0 w -> subscriptions_held w0 -> subscriptions_held w.
Proof.
  intros (_ & Fo & Fd & _ & Fl & _) [H1 H2]. unfold subscriptions_held.
  rewrite Fo, Fd, Fl. split; assumption.
Qed.

Lemma held_It_emit ev : keeps subscriptions_held (It_emit ev).
Proof.
  intros w H. apply (held_frame w); [| exact H].
  apply it_frame_It_emit, it_frame_refl.
Qed.
#[local] Hint Resolve held_It_emit : keeps.

Ltac held_leaf :=
  keeps_leaf;
  match goal with
  | H : subscriptions_held _ |- _ =>
      let H1 := fresh in
      let H2 := fresh in
      destruct H as [H1 H2]; split; simpl; solve [auto]
  end.

Ltac held_auto :=
  repeat first [ keeps_step | solve [auto with keeps] | held_leaf ].

Lemma held_setState s x : keeps subscriptions_held (It__setState s x).
Proof. unfold It__setState, It_notify. held_auto. Qed.
#[local] Hint Resolve held_setState : keeps.

Lemma held_abort ev err : keeps subscriptions_held (It_abort ev err).
Proof. unfold It_abort. held_auto. Qed.
#[local] Hint Resolve held_abort : keeps.

Lemma held_onDeath reason : keeps subscriptions_held (It__onDeath reason).
Proof.
  intros w [H1 H2]. rewrite onDeath_unfold. cbv zeta; simpl.
  destruct (emit_frame (stopped (states meta))
              (broadcast (stopped (states meta)) (StopReason reason) w))
    as (_ & _ & Fd & _ & Fl & _).
  split; simpl; [| reflexivity].
  rewrite Fd, Fl; simpl. rewrite H1.
  apply filter_none. intros s Hs. apply undisposed_sub_self, Hs.
Qed.
#[local] Hint Resolve held_onDeath : keeps.

Lemma held_Obj_emit obj ev args : keeps subscriptions_held (Obj_emit obj ev args).
Proof. unfold Obj_emit, run_handler, It__onError, It_abortAll. held_auto. Qed.
#[local] Hint Resolve held_Obj_emit : keeps.

Lemma held_It_stop : keeps subscriptions_held It_stop.
Proof. unfold It_stop, It__stop. held_auto. Qed.
#[local] Hint Resolve held_It_stop : keeps.

Lemma held_start_head task : keeps subscriptions_held (It__start_head task).
Proof. unfold It__start_head. held_auto. Qed.

Lemma held_It_start caller : keeps subscriptions_held (It_start caller).
Proof.
  apply keeps_It_start; [| | apply held_start_head];
    intros w ? [H1 H2]; split; assumption.
Qed.
#[local] Hint Resolve held_It_start : keeps.

Lemma held_It__start_tail r : keeps subscriptions_held (It__start_tail r).
Proof.
  destruct r as [obj | e]; [| intros w H; exact H].
  pose (J := fun w : World =>
               obj_listeners w = it_disposables w /\ it_uObj w <> None).
  assert (HJ : forall w, J w -> subscriptions_held w).
  { intros w [H1 H2]. split; [exact H1 | intros E; contradiction]. }
  assert (Hk : keeps J
                 (It__setState (running (states meta)) NoExtra ;;
                  It_on obj "error" OnError ;;
                  forEach (deathEvents meta) (fun e => It_on obj e OnDeath) ;;
                  forEach (eventHandlers meta)
                    (fun eh => It_on obj (fst eh) (Method (snd eh))) ;;
                  ret obj)).
  { assert (Hs : keeps J (It__setState (running (states meta)) NoExtra)).
    { intros w [H1 H2]. rewrite setState_unfold. cbv zeta; simpl.
      destruct (emit_frame (running (states meta))
                  (broadcast (running (states meta)) NoExtra w))
        as (_ & Fo & Fd & _ & Fl & _).
      split; simpl; [rewrite Fd, Fl; exact H1 | rewrite Fo; exact H2]. }
    assert (Ho : forall ev h, keeps J (It_on obj ev h)).
    { intros ev h w [H1 H2]. unfold It_on, bind, fresh, modify, tell, modify; simpl.
      split; simpl; [rewrite H1; reflexivity | exact H2]. }
    keeps_fields. }
  intros w [H1 H2]. apply HJ. unfold It__start_tail, It_setObj.
  unfold bind at 1 2, modify, tell, modify. cbv beta iota.
  apply Hk. split; simpl; [exact H1 | discriminate].
Qed.

Lemma held_It_start_tail r : keeps subscriptions_held (It_start_tail r).
Proof. unfold It_start_tail. held_auto. Qed.

Lemma held_cleanUp : keeps subscriptions_held D__cleanUp.
Proof.
  intros w H. apply (held_frame w); [| exact H].
  apply it_frame_cleanUp, it_frame_refl.
Qed.
#[local] Hint Resolve held_cleanUp : keeps.

Lemma held_scheduleRetry nth : keeps subscriptions_held (D__scheduleRetry nth).
Proof.
  intros w H. apply (held_frame w); [| exact H].
  apply it_frame_scheduleRetry, it_frame_refl.
Qed.
#[local] Hint Resolve held_scheduleRetry : keeps.

Lemma held_clearRetryTimer : keeps subscriptions_held clearRetryTimer.
Proof. unfold clearRetryTimer, clearTimeout. held_auto. Qed.
#[local] Hint Resolve held_clearRetryTimer : keeps.

Lemma held_D__start nth : keeps subscriptions_held (D__start nth).
Proof. unfold D__start, D_notify, D_assign. held_auto. Qed.
#[local] Hint Resolve held_D__start : keeps.

Lemma held_D__start_tail nth r : keeps subscriptions_held (D__start_tail nth r).
Proof. unfold D__start_tail, D_notify, D_assign, D_abort. held_auto. Qed.

Lemma held_step ev w : subscriptions_held w -> subscriptions_held (step ev w).
Proof.
  apply keeps_every_step; auto with keeps;
    auto using held_D__start_tail, held_It__start_tail, held_It_start_tail.
  all: try (intros; held_auto; fail).
  - unfold D_start, D_assign. held_auto.
  - unfold D_stop, D_assign. held_auto.
  - intro. unfold It_waitForState, It_waitFor. held_auto.
  - intros timer nth w' H _. unfold exec, bind, modify; simpl.
    apply held_D__start. destruct H as [H1 H2]. split; assumption.
Qed.

Lemma reachable_held evs : subscriptions_held (run evs new_world).
Proof.
  apply keeps_run; [apply held_step |]. split; [reflexivity | reflexivity].
Qed.

(** ** The Unreliable's code seen from the daemon *)

Lemma d_frame_refl w : it_listeners w = [] -> d_frame w w.
Proof.
  intros H. repeat split; try assumption. exists []. now rewrite app_nil_r.
Qed.

Lemma d_frame_It_emit w0 ev : keeps (d_frame w0) (It_emit ev).
Proof.
  intros w H. destruct H as (E & H). rewrite (It_emit_nil ev w E). split; assumption.
Qed.
#[local] Hint Resolve d_frame_It_emit : keeps.

Ltac d_frame_leaf :=
  keeps_leaf;
  match goal with
  | H : d_frame _ _ |- _ =>
      let L := fresh "L" in
      let HL := fresh "HL" in
      let HB := fresh "HB" in
      destruct H as (? & ? & ? & ? & ? & ? & L & HL & HB);
      repeat split; simpl; try assumption;
      first
        [ exists L; split; assumption
        | eexists; split;
          [ rewrite HL, <- app_assoc; reflexivity
          | rewrite broadcasts_app, HB; reflexivity ] ]
  end.

Ltac d_frame_auto :=
  repeat first [ keeps_step | solve [auto with keeps] | d_frame_leaf ].

Lemma d_frame_setState w0 s x : keeps (d_frame w0) (It__setState s x).
Proof. unfold It__setState, It_notify. d_frame_auto. Qed.
#[local] Hint Resolve d_frame_setState : keeps.

Lemma d_frame_abort w0 ev err : keeps (d_frame w0) (It_abort ev err).
Proof. unfold It_abort. d_frame_auto. Qed.
#[local] Hint Resolve d_frame_abort : keeps.

Lemma d_frame_It_on w0 obj ev h : keeps (d_frame w0) (It_on obj ev h).
Proof. unfold It_on. d_frame_auto. Qed.
#[local] Hint Resolve d_frame_It_on : keeps.

Lemma d_frame_onDeath w0 reason : keeps (d_frame w0) (It__onDeath reason).
Proof. unfold It__onDeath, It_setObj, It_dispose. d_frame_auto. Qed.
#[local] Hint Resolve d_frame_onDeath : keeps.

Lemma d_frame_Obj_emit w0 obj ev args : keeps (d_frame w0) (Obj_emit obj ev args).
Proof. unfold Obj_emit, run_handler, It__onError, It_abortAll. d_frame_auto. Qed.
#[local] Hint Resolve d_frame_Obj_emit : keeps.

Lemma d_frame_It_stop w0 : keeps (d_frame w0) It_stop.
Proof. unfold It_stop, It__stop. d_frame_auto. Qed.
#[local] Hint Resolve d_frame_It_stop : keeps.

Lemma d_frame_start_head w0 task : keeps (d_frame w0) (It__start_head task).
Proof. unfold It__start_head. d_frame_auto. Qed.
#[local] Hint Resolve d_frame_start_head : keeps.

Lemma d_frame_It__start_tail w0 r : keeps (d_frame w0) (It__start_tail r).
Proof. unfold It__start_tail, It_setObj. d_frame_auto. Qed.

Lemma d_frame_It_start_tail w0 r : keeps (d_frame w0) (It_start_tail r).
Proof. unfold It_start_tail. d_frame_auto. Qed.

(** ** The beginning of an attempt *)

Lemma clearRetryTimer_spec w :
  let w' := exec clearRetryTimer w in
  d_state w' = d_state w /\ next_id w' = next_id w /\
  exists c, log w' = log w ++ c /\ Forall cleanup_effect c.
Proof.
  unfold exec, clearRetryTimer, clearTimeout, bind, get, modify, tell, modify.
  destruct (d_retryTimer w) as [timer |]; simpl; repeat split.
  - exists [ClearTimeout timer]. split; [reflexivity | repeat constructor].
  - exists []. split; [now rewrite app_nil_r | constructor].
Qed.

Lemma next_id_cleanUp w : next_id (exec D__cleanUp w) = next_id w.
Proof.
  apply (keeps_exec (fun w' => next_id w' = next_id w)); [| reflexivity].
  unfold D__cleanUp, D_dispose, clearRetryTimer, clearTimeout. keeps_fields.
Qed.

Lemma it_frame_clearRetryTimer w0 : keeps (it_frame w0) clearRetryTimer.
Proof. unfold clearRetryTimer, clearTimeout. it_frame_auto. Qed.

Lemma announced_spec nth w :
  timer_inv w -> listeners_inv w ->
  let wa := announced nth w in
  disarmed wa /\ d_disposables wa = [] /\
  d_state wa = DaemonStatus.STARTING /\
  next_id wa = next_id w /\ pending wa = pending w /\
  it_state wa = it_state w /\ it_uObj wa = it_uObj w /\
  exists c,
    Forall cleanup_effect c /\
    log wa =
      log w ++ c
      ++ [DNotify DaemonEvents.STARTING (EventArgs.Starting nth) (d_state w);
          DAssign DaemonStatus.STARTING].
Proof.
  intros Ht Hl wa.
  set (w1 := exec clearRetryTimer w).
  assert (Ht1 : timer_inv w1)
    by (apply (keeps_exec timer_inv); [apply timer_inv_clearRetryTimer | exact Ht]).
  assert (Hl1 : listeners_inv w1)
    by (apply (keeps_exec listeners_inv); [apply listeners_inv_clearRetryTimer | exact Hl]).
  destruct (clearRetryTimer_spec w) as (S1 & N1 & c1 & L1 & C1). fold w1 in S1, N1, L1.
  destruct (cleanUp_disarms _ Ht1 Hl1) as [(D1 & D2 & D3) D4].
  destruct (cleanUp_spec w1 Ht1) as (_ & _ & _ & S2 & c2 & L2 & C2).
  pose proof (next_id_cleanUp w1) as N2.
  assert (F : it_frame w (exec D__cleanUp w1)).
  { apply (keeps_exec (it_frame w)); [apply it_frame_cleanUp |].
    apply (keeps_exec (it_frame w)); [apply it_frame_clearRetryTimer | apply it_frame_refl]. }
  destruct F as (F1 & F2 & _ & _ & _ & F3 & _).
  unfold wa, announced. fold w1. set (w2 := exec D__cleanUp w1) in *.
  simpl. repeat split; try assumption; try congruence.
  exists (c1 ++ c2). split; [apply Forall_app; split; assumption |].
  rewrite L2, L1, S2, S1, <- !app_assoc. reflexivity.
Qed.

Lemma It_start_quiet caller w :
  it_listeners w = [] ->
  exists stage w1,
    exec (It_start caller) w =
      set_pending
        (pending w ++ [{| t_id := next_id w; t_caller := caller; t_stage := stage |}])
        w1 /\
    d_frame w w1 /\
    (startable_now w = true -> it_uObj w = None ->
     stage = AwaitCreate /\ it_state w1 = starting (states meta) /\
     it_uObj w1 = None /\ next_id w1 = S (next_id w)).
Proof.
  intros Hl. unfold exec, It_start, bind at 1, fresh.
  set (wn := set_next_id (S (next_id w)) w).
  assert (Fn : d_frame w wn).
  { repeat split; try assumption. exists []. simpl. now rewrite app_nil_r. }
  pose proof (d_frame_start_head w (next_id w) wn Fn) as F.
  assert (Eh : exists r w1,
            It__start_head (next_id w) wn = (r, w1) /\
            (startable_now w = true -> it_uObj w = None ->
             r = Returns tt /\
             w1 = set_log
                    (log (exec (It__setState (starting (states meta)) NoExtra) wn)
                     ++ [ItCreateAndCheck (next_id w)])
                    (exec (It__setState (starting (states meta)) NoExtra) wn))).
  { unfold It__start_head, bind at 1, get.
    change (startable_now wn) with (startable_now w).
    change (it_uObj wn) with (it_uObj w).
    destruct (startable_now w); simpl.
    - destruct (it_uObj w); simpl.
      + eexists _, _. split; [reflexivity | intros _ E; discriminate].
      + unfold bind at 1. simpl. unfold bind at 1. simpl.
        rewrite (bind_returns _ _ tt wn (nt_unit _ wn (nt_setState _ _))).
        eexists _, _. split; [reflexivity |]. intros _ _. split; reflexivity.
    - eexists _, _. split; [reflexivity | intros E; discriminate]. }
  destruct Eh as (r & w1 & Eh & Hok). rewrite Eh in F |- *. simpl in F.
  assert (Hp : pending w1 = pending w) by apply F.
  exists (match r with Returns _ => AwaitCreate | Throws e => AwaitStart (Throws e) end), w1.
  split; [simpl; rewrite Hp; reflexivity |]. split; [exact F |].
  intros Es Eo. destruct (Hok Es Eo) as [-> ->]. split; [reflexivity |].
  unfold exec. rewrite setState_quiet by exact Hl. simpl. repeat split. exact Eo.
Qed.

Lemma D_start_spec w :
  timer_inv w -> listeners_inv w ->
  exists stage w1 c rest,
    exec D_start w =
      set_pending
        (pending w ++ [{| t_id := next_id w; t_caller := ByDaemon 1; t_stage := stage |}])
        w1 /\
    it_listeners w1 = [] /\ timers w1 = [] /\ d_retryTimer w1 = None /\
    d_disposables w1 = [] /\ d_state w1 = DaemonStatus.STARTING /\
    Forall cleanup_effect c /\ broadcasts rest = [] /\
    log w1 =
      log w ++ [DAssign DaemonStatus.INIT] ++ c
      ++ [DNotify DaemonEvents.STARTING (EventArgs.Starting 1) DaemonStatus.INIT;
          DAssign DaemonStatus.STARTING]
      ++ rest /\
    (startable_now w = true -> it_uObj w = None ->
     stage = AwaitCreate /\ it_state w1 = starting (states meta) /\
     it_uObj w1 = None /\ next_id w1 = S (next_id w)).
Proof.
  intros Ht Hl.
  set (w0 := set_log (log w ++ [DAssign DaemonStatus.INIT])
               (set_d_state DaemonStatus.INIT w)).
  assert (E0 : exec D_start w = exec (D__start 1) w0) by reflexivity.
  assert (Ha : alive w0) by reflexivity.
  unfold exec in E0. rewrite (D__start_unfold 1 w0 Ha) in E0.
  destruct (announced_spec 1 w0 Ht Hl)
    as ((A1 & A2 & A3) & A4 & A5 & A6 & A7 & A8 & A9 & c & Hc & A10).
  set (wa := announced 1 w0) in *.
  destruct (It_start_quiet (ByDaemon 1) wa A1) as (stage & w1 & E1 & F & Hok).
  destruct F as (F1 & F2 & F3 & F4 & F5 & F6 & rest & F7 & F8).
  change (next_id w0) with (next_id w) in A6.
  change (pending w0) with (pending w) in A7.
  change (it_state w0) with (it_state w) in A8.
  change (it_uObj w0) with (it_uObj w) in A9.
  assert (Hok' : startable_now w = true -> it_uObj w = None ->
                 stage = AwaitCreate /\ it_state w1 = starting (states meta) /\
                 it_uObj w1 = None /\ next_id w1 = S (next_id w)).
  { intros Es Eo. rewrite <- A6. apply Hok; [| congruence].
    unfold startable_now in *. rewrite A8. exact Es. }
  exists stage, w1, c, rest.
  unfold exec in *. rewrite E0, E1, A6, A7.
  split; [reflexivity |].
  split; [exact F1 |]. split; [congruence |]. split; [congruence |].
  split; [congruence |]. split; [congruence |].
  split; [exact Hc |]. split; [exact F8 |]. split; [| exact Hok'].
  rewrite F7, A10. unfold w0; simpl. rewrite <- !app_assoc. reflexivity.
Qed.

(** ** An attempt that succeeds *)

Lemma bind_value {A B} (m : M A) (k : A -> M B) (b : B) w :
  never_throws m ->
  (forall a w', fst (k a w') = Returns b) ->
  fst (bind m k w) = Returns b.
Proof.
  intros N Hk. destruct (N w) as [a E]. unfold bind. rewrite E. apply Hk.
Qed.

Lemma start_tail_returns obj w :
  It__start_tail (Returns obj) w = (Returns obj, exec (It__start_tail (Returns obj)) w).
Proof.
  assert (E : fst (It__start_tail (Returns obj) w) = Returns obj).
  { unfold It__start_tail.
    apply bind_value; [unfold It_setObj, tell; nt_auto | intros _ ?].
    apply bind_value; [apply nt_setState | intros _ ?].
    apply bind_value; [apply nt_It_on | intros _ ?].
    apply bind_value; [apply nt_forEach; intro; apply nt_It_on | intros _ ?].
    apply bind_value; [apply nt_forEach; intro; apply nt_It_on | intros _ ?].
    reflexivity. }
  unfold exec. destruct (It__start_tail (Returns obj) w) as [r w']. simpl in *.
  now rewrite E.
Qed.

Lemma start_tail_running obj w :
  it_state (exec (It__start_tail (Returns obj)) w) = running (states meta).
Proof.
  unfold It__start_tail.
  destruct (exec_bind (It_setObj (Some obj))
              (fun _ =>
                 It__setState (running (states meta)) NoExtra ;;
                 It_on obj "error" OnError ;;
                 forEach (deathEvents meta) (fun e => It_on obj e OnDeath) ;;
                 forEach (eventHandlers meta)
                   (fun eh => It_on obj (fst eh) (Method (snd eh))) ;;
                 ret obj) w) as [[] ->].
  { unfold It_setObj, tell. nt_auto. }
  destruct (exec_bind (It__setState (running (states meta)) NoExtra)
              (fun _ =>
                 It_on obj "error" OnError ;;
                 forEach (deathEvents meta) (fun e => It_on obj e OnDeath) ;;
                 forEach (eventHandlers meta)
                   (fun eh => It_on obj (fst eh) (Method (snd eh))) ;;
                 ret obj) (exec (It_setObj (Some obj)) w) (nt_setState _ _)) as [[] ->].
  apply (keeps_exec (fun w' => it_state w' = running (states meta))).
  - unfold It_on. keeps_fields.
  - unfold exec. rewrite setState_unfold. reflexivity.
Qed.

Lemma find_task_last task w p t :
  pending w = p ++ [t] -> t_id t = task ->
  (forall x, In x p -> (t_id x < task)%nat) ->
  find_task task w = Some t.
Proof.
  intros Hp Hid Hlt. unfold find_task. rewrite Hp. clear Hp.
  induction p as [| x p IH]; simpl.
  - now rewrite Hid, Nat.eqb_refl.
  - assert (Hx : (t_id x < task)%nat) by (apply Hlt; now left).
    destruct (Nat.eqb_spec (t_id x) task) as [E | _]; [lia |].
    apply IH. intros y Hy. apply Hlt. now right.
Qed.

Lemma remove_last_task task (f : Task -> Task) p t :
  (forall x, t_id (f x) = t_id x) ->
  (forall x, t_id x <> task -> f x = x) ->
  t_id t = task ->
  (forall x, In x p -> (t_id x < task)%nat) ->
  filter (fun x => negb (Nat.eqb (t_id x) task)) (map f (p ++ [t])) = p.
Proof.
  intros Hid Hf Ht Hlt. induction p as [| x p IH]; simpl.
  - now rewrite Hid, Ht, Nat.eqb_refl.
  - assert (Hx : (t_id x < task)%nat) by (apply Hlt; now left).
    rewrite Hid. destruct (Nat.eqb_spec (t_id x) task) as [E | Hne]; [lia |].
    simpl. rewrite (Hf x Hne). f_equal. apply IH. intros y Hy. apply Hlt. now right.
Qed.

(** ** The catch block of [Daemon._start] under an invariant *)

Lemma catch_block_keeps (J : World -> Prop) nth err w :
  keeps J It_stop -> J w ->
  exists w1, D__start_tail nth (Throws err) w = give_up_or_retry nth err w1 /\ J w1.
Proof.
  intros Hk Hw. unfold D__start_tail, bind at 1, get. cbv beta.
  destruct (stoppable_now w) eqn:Es.
  - exists (exec (tryCatch It_stop (fun _ => ret tt)) w). split.
    + unfold bind at 1. rewrite (nt_unit (tryCatch It_stop (fun _ => ret tt)) w);
        [reflexivity |].
      apply nt_tryCatch. intro. apply nt_ret.
    + apply (keeps_exec J); [| exact Hw].
      apply keeps_tryCatch; [exact Hk | intro; apply keeps_ret].
  - exists w. split; [reflexivity | exact Hw].
Qed.

(** ** Waiters *)

Lemma after_aborts_incl events : forall ws x,
  In x (after_aborts events ws) -> In x ws.
Proof.
  induction events as [| ev events IH]; intros ws x H; simpl in H; [exact H |].
  apply IH in H. unfold not_waiting_on in H. apply filter_In in H. apply H.
Qed.

(** ** [Unreliable.stop] with a hook that kills at once *)

Lemma It_stop_kills
    (w : World) (obj : Handle) (d : string) (args : list Arg) :
  stopHook = StopEmits d args ->
  stoppable_now w = true ->
  it_uObj w = Some obj ->
  (exists sub, In sub (listening obj d w) /\ s_handler sub = OnDeath) ->
  let w' := exec It_stop w in
  fst (It_stop w) = Returns tt /\
  it_state w' = stopped (states meta) /\
  it_uObj w' = None /\
  it_disposables w' = [] /\
  (exists resolved L,
     log w' =
       log w
       ++ [ItNotify (stopping (states meta))
             {| oldState := it_state w; extra := NoExtra |} (it_state w) resolved]
       ++ L) /\
  It_waitForState (stopped (states meta)) w' = (Returns Undefined, w').
Proof.
  intros Hhook Hs Hobj Hsub w'.
  set (w1 := exec (It__setState (stopping (states meta)) NoExtra) w).
  set (w2 := set_log (log w1 ++ [ItStopHook]) w1).
  assert (E : It_stop w = Obj_emit obj d args w2).
  { unfold It_stop, bind at 1, get. rewrite Hs, Hobj. simpl.
    unfold bind at 1. simpl. unfold bind at 1. simpl.
    rewrite (bind_returns _ _ tt w (nt_unit _ w (nt_setState _ _))).
    fold w1. unfold It__stop. rewrite Hhook.
    unfold bind at 1, tell, modify. fold w2.
    unfold bind at 1, get.
    assert (Eo : it_uObj w2 = Some obj).
    { unfold w2, w1, exec. rewrite setState_unfold. cbv zeta; simpl.
      destruct (emit_frame (stopping (states meta))
                  (broadcast (stopping (states meta)) NoExtra w)) as (_ & F & _).
      rewrite F. exact Hobj. }
    rewrite Eo. reflexivity. }
  assert (El : listening obj d w2 = listening obj d w).
  { unfold listening, w2, w1, exec. rewrite setState_unfold. cbv zeta; simpl.
    destruct (emit_frame (stopping (states meta))
                (broadcast (stopping (states meta)) NoExtra w))
      as (_ & _ & _ & _ & F & _).
    rewrite F. reflexivity. }
  assert (Hrest : laid_to_rest w').
  { unfold w', exec. rewrite E. unfold Obj_emit, bind at 1, get.
    fold (listening obj d w2). rewrite El.
    apply (handlers_lay_to_rest args (listening obj d w) w2 Hsub). }
  assert (Hlog : exists resolved L,
     log w' =
       log w
       ++ [ItNotify (stopping (states meta))
             {| oldState := it_state w; extra := NoExtra |} (it_state w) resolved]
       ++ L).
  { assert (G : log_grows w2 w').
    { unfold w', exec. rewrite E. apply (keeps_exec (log_grows w2));
        [apply log_grows_Obj_emit | apply log_grows_refl]. }
    destruct G as [d2 G].
    destruct (emit_frame (stopping (states meta))
                (broadcast (stopping (states meta)) NoExtra w))
      as (_ & _ & _ & _ & _ & _ & L & FL & _).
    exists (waiting_on (stopping (states meta)) (it_waiters w)).
    exists (L ++ [ItAssign (stopping (states meta))] ++ [ItStopHook] ++ d2).
    rewrite G. unfold w2, w1, exec. rewrite setState_unfold. cbv zeta; simpl.
    rewrite FL. simpl. rewrite <- !app_assoc. reflexivity. }
  destruct Hrest as (R1 & R2 & R3).
  split.
  { rewrite E. destruct (nt_Obj_emit obj d args w2) as [[] EN]. now rewrite EN. }
  repeat split; try assumption.
  unfold It_waitForState, bind, get. rewrite R1, String.eqb_refl. reflexivity.
Qed.

(** ** [Daemon.stop] up to its call of [it.stop()] *)

Lemma D_stop_unfold w :
  exec D_stop w =
  exec (tryCatch It_stop (fun _ => ret tt))
    (exec clearRetryTimer (exec D__cleanUp (exec (D_assign DaemonStatus.DEAD) w))).
Proof.
  assert (Na : never_throws (D_assign DaemonStatus.DEAD))
    by (unfold D_assign, tell; nt_auto).
  assert (Nc : never_throws clearRetryTimer)
    by (unfold clearRetryTimer, clearTimeout, tell; nt_auto).
  unfold D_stop.
  destruct (exec_bind (D_assign DaemonStatus.DEAD)
              (fun _ => D__cleanUp ;; clearRetryTimer ;;
                        tryCatch It_stop (fun _ => ret tt)) w Na) as [[] ->].
  destruct (exec_bind D__cleanUp
              (fun _ => clearRetryTimer ;; tryCatch It_stop (fun _ => ret tt))
              (exec (D_assign DaemonStatus.DEAD) w) nt_cleanUp) as [[] ->].
  destruct (exec_bind clearRetryTimer
              (fun _ => tryCatch It_stop (fun _ => ret tt))
              (exec D__cleanUp (exec (D_assign DaemonStatus.DEAD) w)) Nc) as [[] ->].
  reflexivity.
Qed.

Lemma D_stop_prefix w :
  timer_inv w -> listeners_inv w ->
  let wc :=
    exec clearRetryTimer (exec D__cleanUp (exec (D_assign DaemonStatus.DEAD) w)) in
  disarmed wc /\ d_state wc = DaemonStatus.DEAD /\
  broadcasts (log wc) = broadcasts (log w) /\ it_frame w wc.
Proof.
  intros Ht Hl wc.
  set (w0 := exec (D_assign DaemonStatus.DEAD) w) in *.
  assert (Ht0 : timer_inv w0) by exact Ht.
  assert (Hl0 : listeners_inv w0) by exact Hl.
  destruct (cleanUp_disarms _ Ht0 Hl0) as [Hdis _].
  destruct (cleanUp_spec w0 Ht0) as (_ & _ & _ & Hst & d & Hlog & Hd).
  set (w1 := exec D__cleanUp w0) in *.
  assert (Hc : wc = w1).
  { unfold wc, exec, clearRetryTimer, bind, get. destruct Hdis as (_ & _ & E).
    now rewrite E. }
  rewrite Hc. split; [exact Hdis |]. split; [rewrite Hst; reflexivity |]. split.
  - rewrite Hlog, broadcasts_app, (broadcasts_cleanup _ Hd), app_nil_r.
    unfold w0, exec, D_assign, bind, modify, tell, modify; simpl.
    rewrite broadcasts_app. simpl. apply app_nil_r.
  - apply (keeps_exec (it_frame w)); [apply it_frame_cleanUp |].
    apply (keeps_exec (it_frame w)); [| apply it_frame_refl].
    unfold D_assign. it_frame_auto.
Qed.

(** ** Running means supervised *)

Lemma not_running_supervised w : not_running w -> supervised w.
Proof. intros H E. contradiction. Qed.

Ltac nr_leaf :=
  keeps_leaf; unfold not_running in *; simpl in *;
  solve [assumption | discriminate].

Ltac nr_auto :=
  repeat first [ keeps_step | solve [auto with keeps] | nr_leaf ].

Lemma nr_cleanUp : keeps not_running D__cleanUp.
Proof. unfold D__cleanUp, D_dispose, clearRetryTimer, clearTimeout. nr_auto. Qed.
#[local] Hint Resolve nr_cleanUp : keeps.

Lemma nr_clearRetryTimer : keeps not_running clearRetryTimer.
Proof. unfold clearRetryTimer, clearTimeout. nr_auto. Qed.
#[local] Hint Resolve nr_clearRetryTimer : keeps.

Lemma scheduleRetry_not_running nth w : not_running (exec (D__scheduleRetry nth) w).
Proof.
  unfold exec, D__scheduleRetry, clearTimeout, D_notify, D_assign, setTimeout,
    bind, get, fresh, modify, tell, modify.
  destruct (d_retryTimer w); simpl; discriminate.
Qed.

Lemma onStopped_not_running w : not_running (exec D_onStopped w).
Proof.
  unfold D_onStopped.
  destruct (exec_bind D__cleanUp
              (fun _ => w' <- get ;; if dead w' then ret tt else D__scheduleRetry 1)
              w nt_cleanUp) as [[] ->].
  set (w1 := exec D__cleanUp w). unfold exec, bind at 1, get.
  destruct (dead w1) eqn:E.
  - unfold not_running. simpl. unfold dead in E.
    destruct (d_state w1); simpl in E; congruence.
  - apply scheduleRetry_not_running.
Qed.

Lemma once_body_not_running l w : not_running (exec (once_body l) w).
Proof.
  unfold exec, once_body, bind at 1, modify. apply onStopped_not_running.
Qed.

Lemma nr_It_emit ev : keeps not_running (It_emit ev).
Proof.
  unfold It_emit. apply keeps_bind; [apply keeps_get | intro w0].
  apply keeps_forEach. intros l w _. apply (once_body_not_running l w).
Qed.
#[local] Hint Resolve nr_It_emit : keeps.

Lemma sup_It_emit ev : keeps supervised (It_emit ev).
Proof.
  unfold It_emit. apply keeps_bind; [apply keeps_get | intro w0].
  apply keeps_forEach. intros l w _.
  apply not_running_supervised, (once_body_not_running l w).
Qed.
#[local] Hint Resolve sup_It_emit : keeps.

Ltac sup_leaf :=
  keeps_leaf; unfold supervised in *; simpl in *;
  solve [assumption | intros; discriminate].

Ltac sup_auto :=
  repeat first [ keeps_step | solve [auto with keeps] | sup_leaf ].

Lemma nr_setState s x : keeps not_running (It__setState s x).
Proof. unfold It__setState, It_notify. nr_auto. Qed.
#[local] Hint Resolve nr_setState : keeps.

Lemma sup_setState s x : keeps supervised (It__setState s x).
Proof. unfold It__setState, It_notify. sup_auto. Qed.
#[local] Hint Resolve sup_setState : keeps.

Lemma nr_onDeath reason : keeps not_running (It__onDeath reason).
Proof. unfold It__onDeath, It_setObj, It_dispose, It_abort. nr_auto. Qed.
#[local] Hint Resolve nr_onDeath : keeps.

Lemma sup_onDeath reason : keeps supervised (It__onDeath reason).
Proof. unfold It__onDeath, It_setObj, It_dispose, It_abort. sup_auto. Qed.
#[local] Hint Resolve sup_onDeath : keeps.

Lemma nr_Obj_emit obj ev args : keeps not_running (Obj_emit obj ev args).
Proof. unfold Obj_emit, run_handler, It__onError, It_abortAll. nr_auto. Qed.
#[local] Hint Resolve nr_Obj_emit : keeps.

Lemma sup_Obj_emit obj ev args : keeps supervised (Obj_emit obj ev args).
Proof. unfold Obj_emit, run_handler, It__onError, It_abortAll. sup_auto. Qed.
#[local] Hint Resolve sup_Obj_emit : keeps.

Lemma nr_It_stop : keeps not_running It_stop.
Proof. unfold It_stop, It__stop. nr_auto. Qed.
#[local] Hint Resolve nr_It_stop : keeps.

Lemma sup_It_stop : keeps supervised It_stop.
Proof. unfold It_stop, It__stop. sup_auto. Qed.
#[local] Hint Resolve sup_It_stop : keeps.

Lemma nr_It_start caller : keeps not_running (It_start caller).
Proof.
  apply keeps_It_start; [intros w n H; exact H | intros w p H; exact H |].
  intro. unfold It__start_head. nr_auto.
Qed.
#[local] Hint Resolve nr_It_start : keeps.

Lemma sup_It_start caller : keeps supervised (It_start caller).
Proof.
  apply keeps_It_start; [intros w n H; exact H | intros w p H; exact H |].
  intro. unfold It__start_head. sup_auto.
Qed.
#[local] Hint Resolve sup_It_start : keeps.

Lemma sup_It__start_tail r : keeps supervised (It__start_tail r).
Proof. unfold It__start_tail, It_setObj, It_on. sup_auto. Qed.

Lemma sup_It_start_tail r : keeps supervised (It_start_tail r).
Proof. unfold It_start_tail, It_abort. sup_auto. Qed.

Lemma D__start_supervised nth : keeps supervised (D__start nth).
Proof.
  intros w H. unfold D__start, bind at 1, get.
  destruct (dead w) eqn:E; [exact H |].
  apply not_running_supervised.
  assert (Nc : never_throws clearRetryTimer)
    by (unfold clearRetryTimer, clearTimeout, tell; nt_auto).
  change (not_running
            (exec (clearRetryTimer ;; D__cleanUp ;;
                   D_notify DaemonEvents.STARTING (EventArgs.Starting nth) ;;
                   D_assign DaemonStatus.STARTING ;;
                   It_start (ByDaemon nth)) w)).
  destruct (exec_bind clearRetryTimer
              (fun _ => D__cleanUp ;;
                        D_notify DaemonEvents.STARTING (EventArgs.Starting nth) ;;
                        D_assign DaemonStatus.STARTING ;;
                        It_start (ByDaemon nth)) w Nc) as [[] ->].
  destruct (exec_bind D__cleanUp
              (fun _ => D_notify DaemonEvents.STARTING (EventArgs.Starting nth) ;;
                        D_assign DaemonStatus.STARTING ;;
                        It_start (ByDaemon nth))
              (exec clearRetryTimer w) nt_cleanUp) as [[] ->].
  set (w2 := exec D__cleanUp (exec clearRetryTimer w)).
  unfold exec, D_notify, D_assign, bind at 1 2 3 4, get, modify, tell, modify.
  simpl. apply nr_It_start. unfold not_running. simpl. discriminate.
Qed.

Lemma D_start_supervised : keeps supervised D_start.
Proof.
  intros w _. unfold D_start, D_assign, bind at 1 2, modify, tell, modify. simpl.
  apply D__start_supervised. intros E. discriminate E.
Qed.

Lemma D_stop_supervised : keeps supervised D_stop.
Proof.
  intros w _. apply not_running_supervised.
  change (not_running (exec D_stop w)). rewrite D_stop_unfold.
  apply (keeps_exec not_running).
  { apply keeps_tryCatch; [apply nr_It_stop | intro; apply keeps_ret]. }
  apply (keeps_exec not_running); [apply nr_clearRetryTimer |].
  apply (keeps_exec not_running); [apply nr_cleanUp |].
  unfold exec, D_assign, bind, modify, tell, modify, not_running. simpl. discriminate.
Qed.

Lemma sup_scheduleRetry nth : keeps supervised (D__scheduleRetry nth).
Proof.
  intros w _. apply not_running_supervised, scheduleRetry_not_running.
Qed.
#[local] Hint Resolve sup_scheduleRetry : keeps.

Lemma D__start_tail_supervised nth r : keeps supervised (D__start_tail nth r).
Proof.
  destruct r as [[] | err].
  - intros w _ _.
    unfold D__start_tail, D_notify, D_assign, bind, get, fresh, modify, tell, modify.
    simpl. exists (next_id w, stopped (states meta)). split; [| reflexivity].
    apply in_app_iff. right. now left.
  - unfold D__start_tail, D_notify, D_assign, D_abort. sup_auto.
Qed.

Lemma supervised_step ev w : supervised w -> supervised (step ev w).
Proof.
  apply keeps_every_step; auto with keeps;
    auto using D_start_supervised, D_stop_supervised, D__start_tail_supervised,
      sup_It__start_tail, sup_It_start_tail.
  all: try (intros; sup_auto; fail).
  - intro. unfold It_waitForState, It_waitFor. sup_auto.
  - intros timer nth w' H _. unfold exec, bind, modify; simpl.
    apply D__start_supervised. exact H.
Qed.

Lemma reachable_supervised evs : supervised (run evs new_world).
Proof.
  apply keeps_run; [apply supervised_step |]. intros E. discriminate E.
Qed.

Lemma onDeath_retries reason w l :
  dead w = false -> timer_inv w ->
  In l (it_listeners w) -> snd l = stopped (states meta) ->
  retry_armed 1 w (exec (It__onDeath reason) w).
Proof.
  intros Hd Ht Hl Hs.
  set (st := stopped (states meta)) in *.
  set (w0 := broadcast st (StopReason reason) w).
  assert (H0 : retry_armed 1 w0 (exec (It_emit st) w0)).
  { apply emit_retries; [exact Hd | exact Ht | exists l; split; assumption]. }
  set (w1 := exec (It_emit st) w0) in *.
  unfold exec. rewrite onDeath_unfold. cbv zeta. fold st. fold w0. fold w1. simpl.
  destruct H0 as (A1 & A2 & A3 & d & A4 & (seen & A5) & A6).
  unfold retry_armed; simpl. repeat split; try assumption.
  eexists. split; [rewrite A4; unfold w0; simpl; rewrite <- !app_assoc; reflexivity |].
  split.
  - exists seen. simpl. right. apply in_app_iff. now left.
  - simpl. constructor; [auto |]. apply Forall_app. split; [exact A6 |].
    constructor; [auto |]. constructor; [auto |].
    apply Forall_app. split;
      [apply dispose_trace_not_retry | apply abort_trace_not_retry].
Qed.

(** ** Attempt numbers stay in range *)

Section Bounded.

Hypothesis Hmax : 1 <= maxAttempt.

Lemma in_range_one : in_range 1.
Proof. unfold in_range. lia. Qed.

Lemma bounded_tell e : numbered e -> keeps bounded (tell e).
Proof.
  intros He w (HL & HT & HP). split; [| split]; simpl; [| exact HT | exact HP].
  apply Forall_app. split; [exact HL | apply Forall_cons; [exact He | apply Forall_nil]].
Qed.

Lemma bounded_modify f :
  (forall w, log (f w) = log w /\ incl (timers (f w)) (timers w) /\
             pending (f w) = pending w) ->
  keeps bounded (modify f).
Proof.
  intros H w (HL & HT & HP). destruct (H w) as (E1 & E2 & E3).
  unfold modify; simpl. split; [rewrite E1; exact HL |]. split.
  - intros timer n Hin. apply (HT timer), E2, Hin.
  - rewrite E3. exact HP.
Qed.

Lemma bounded_fresh : keeps bounded fresh.
Proof. intros w H. exact H. Qed.

Ltac bd_leaf :=
  first
    [ apply bounded_tell; simpl; solve [exact I | assumption | auto]
    | apply bounded_modify; intro; simpl; repeat split;
      solve [apply incl_refl | apply incl_filter]
    | apply bounded_fresh ].

Ltac bd_auto :=
  repeat first [ keeps_step | solve [auto with keeps] | bd_leaf ].

Lemma bounded_D_notify ev arg :
  (forall seen, numbered (DNotify ev arg seen)) -> keeps bounded (D_notify ev arg).
Proof.
  intros H. unfold D_notify. apply keeps_bind; [apply keeps_get | intro w0].
  apply bounded_tell, H.
Qed.

Lemma bounded_D_assign s : keeps bounded (D_assign s).
Proof. unfold D_assign. bd_auto. Qed.

Lemma bounded_clearTimeout timer : keeps bounded (clearTimeout timer).
Proof. unfold clearTimeout. bd_auto. Qed.

Lemma bounded_clearRetryTimer : keeps bounded clearRetryTimer.
Proof. pose proof bounded_clearTimeout. unfold clearRetryTimer. bd_auto. Qed.

Lemma bounded_cleanUp : keeps bounded D__cleanUp.
Proof.
  pose proof bounded_clearRetryTimer. unfold D__cleanUp, D_dispose. bd_auto.
Qed.

Lemma bounded_setTimeout nth delay : in_range nth -> keeps bounded (setTimeout nth delay).
Proof.
  intros Hn w (HL & HT & HP).
  unfold setTimeout, bind, fresh, modify, tell, modify, ret; simpl.
  split; [| split]; simpl.
  - apply Forall_app. split; [exact HL | apply Forall_cons; [exact Hn | apply Forall_nil]].
  - intros timer n Hin. apply in_app_iff in Hin as [Hin | [[= _ <-] | []]];
      [apply (HT timer), Hin | exact Hn].
  - exact HP.
Qed.

Lemma bounded_scheduleRetry nth : in_range nth -> keeps bounded (D__scheduleRetry nth).
Proof.
  intros Hn.
  pose proof bounded_clearTimeout. pose proof (bounded_setTimeout nth retryDelay Hn).
  pose proof (bounded_D_assign DaemonStatus.RETRY_SCHEDULED).
  assert (keeps bounded
            (D_notify DaemonEvents.RETRY_SCHEDULED
               (EventArgs.RetryScheduled nth retryDelay)))
    by (apply bounded_D_notify; intro; exact Hn).
  unfold D__scheduleRetry. bd_auto.
Qed.

Lemma bounded_onStopped : keeps bounded D_onStopped.
Proof.
  pose proof bounded_cleanUp. pose proof (bounded_scheduleRetry 1 in_range_one).
  unfold D_onStopped. bd_auto.
Qed.

Lemma bounded_It_emit ev : keeps bounded (It_emit ev).
Proof. pose proof bounded_onStopped. unfold It_emit. bd_auto. Qed.

Lemma bounded_setState s x : keeps bounded (It__setState s x).
Proof. pose proof bounded_It_emit. unfold It__setState, It_notify. bd_auto. Qed.

Lemma bounded_onDeath reason : keeps bounded (It__onDeath reason).
Proof.
  pose proof bounded_setState.
  unfold It__onDeath, It_setObj, It_dispose, It_abort. bd_auto.
Qed.

Lemma bounded_Obj_emit obj ev args : keeps bounded (Obj_emit obj ev args).
Proof.
  pose proof bounded_onDeath.
  unfold Obj_emit, run_handler, It__onError, It_abortAll. bd_auto.
Qed.

Lemma bounded_It_stop : keeps bounded It_stop.
Proof.
  pose proof bounded_setState. pose proof bounded_Obj_emit.
  unfold It_stop, It__stop. bd_auto.
Qed.

Lemma bounded_start_head task : keeps bounded (It__start_head task).
Proof. pose proof bounded_setState. unfold It__start_head. bd_auto. Qed.

Lemma bounded_It_start caller :
  (forall n, caller = ByDaemon n -> in_range n) -> keeps bounded (It_start caller).
Proof.
  intros Hc w H. unfold It_start, bind, fresh.
  pose proof (bounded_start_head (next_id w) (set_next_id (S (next_id w)) w) H) as Hh.
  destruct (It__start_head (next_id w) (set_next_id (S (next_id w)) w)) as [r w'].
  simpl in *. destruct Hh as (HL & HT & HP).
  split; [exact HL | split; [exact HT |]]. simpl.
  intros t n Hin Ht. apply in_app_iff in Hin as [Hin | [<- | []]].
  - apply (HP t n Hin Ht).
  - apply Hc. exact Ht.
Qed.

Lemma bounded_It__start_tail r : keeps bounded (It__start_tail r).
Proof. pose proof bounded_setState. unfold It__start_tail, It_setObj, It_on. bd_auto. Qed.

Lemma bounded_It_start_tail r : keeps bounded (It_start_tail r).
Proof. pose proof bounded_setState. unfold It_start_tail, It_abort. bd_auto. Qed.

Lemma bounded_D__start nth : in_range nth -> keeps bounded (D__start nth).
Proof.
  intros Hn.
  pose proof bounded_clearRetryTimer. pose proof bounded_cleanUp.
  pose proof (bounded_D_assign DaemonStatus.STARTING).
  assert (keeps bounded (D_notify DaemonEvents.STARTING (EventArgs.Starting nth)))
    by (apply bounded_D_notify; intro; exact Hn).
  assert (keeps bounded (It_start (ByDaemon nth)))
    by (apply bounded_It_start; intros n [= <-]; exact Hn).
  unfold D__start. bd_auto.
Qed.

Lemma bounded_D__start_tail nth r : in_range nth -> keeps bounded (D__start_tail nth r).
Proof.
  intros Hn. pose proof bounded_It_stop.
  pose proof (bounded_D_assign DaemonStatus.RUNNING).
  pose proof (bounded_D_assign DaemonStatus.DEAD).
  assert (keeps bounded (D_notify DaemonEvents.RUNNING EventArgs.Running))
    by (apply bounded_D_notify; intro; exact I).
  destruct r as [[] | err]; unfold D__start_tail.
  - bd_auto.
  - apply keeps_bind; [apply keeps_get | intro w0].
    apply keeps_bind; [destruct (stoppable_now w0); bd_auto |]. intros _.
    destruct (Z.geb_spec nth maxAttempt) as [Hge | Hlt].
    + assert (keeps bounded
                (D_notify DaemonEvents.START_FAILED
                   (EventArgs.StartFailed
                      {| cause := err; nthAttempt := nth; retryIn := -1 |}))).
      { apply bounded_D_notify. intro. simpl. split; [exact Hn |]. left.
        unfold in_range in Hn. split; [reflexivity | lia]. }
      unfold D_abort. bd_auto.
    + assert (keeps bounded
                (D_notify DaemonEvents.START_FAILED
                   (EventArgs.StartFailed
                      {| cause := err; nthAttempt := nth; retryIn := retryDelay |}))).
      { apply bounded_D_notify. intro. simpl. split; [exact Hn |]. right.
        split; [reflexivity | exact Hlt]. }
      assert (keeps bounded (D__scheduleRetry (nth + 1))).
      { apply bounded_scheduleRetry. unfold in_range in *. lia. }
      bd_auto.
Qed.

Lemma bounded_pending w p :
  (forall t, In t p ->
     In (t_id t, t_caller t) (map (fun x => (t_id x, t_caller x)) (pending w))) ->
  bounded w -> bounded (set_pending p w).
Proof.
  intros Hsub (HL & HT & HP). split; [exact HL | split; [exact HT |]]. simpl.
  intros t n Hin Ht. apply Hsub in Hin.
  apply in_map_iff in Hin as (x & [= _ E] & Hx).
  apply (HP x n Hx). congruence.
Qed.

Lemma bounded_set_stage task stage w : bounded w -> bounded (set_stage task stage w).
Proof.
  intros H. unfold set_stage. apply bounded_pending; [| exact H].
  intros t Ht. apply in_map_iff in Ht as (x & <- & Hx).
  apply in_map_iff. exists x. split; [| exact Hx].
  destruct (Nat.eqb (t_id x) task); reflexivity.
Qed.

Lemma bounded_remove_task task w : bounded w -> bounded (remove_task task w).
Proof.
  intros H. unfold remove_task. apply bounded_pending; [| exact H].
  intros t Ht. apply filter_In in Ht as [Ht _].
  apply (in_map (fun x => (t_id x, t_caller x))), Ht.
Qed.

Lemma bounded_step ev w : bounded w -> bounded (step ev w).
Proof.
  intros H. destruct ev; simpl.
  - unfold exec, D_start. apply keeps_bind; [apply bounded_D_assign | intro | exact H].
    apply bounded_D__start, in_range_one.
  - pose proof (bounded_D_assign DaemonStatus.DEAD). pose proof bounded_cleanUp.
    pose proof bounded_clearRetryTimer. pose proof bounded_It_stop.
    revert w H. change (keeps bounded D_stop). unfold D_stop. bd_auto.
  - apply bounded_It_start; [| exact H]. intros n E. discriminate E.
  - pose proof bounded_It_stop. revert w H.
    change (keeps bounded (tryCatch It_stop (fun e => tell (ItThrown e)))). bd_auto.
  - revert w H. change (keeps bounded (It_waitForState dstState)).
    unfold It_waitForState, It_waitFor. bd_auto.
  - destruct (find_task task w) as [[id c [| r0 | r0]] |]; simpl; try exact H.
    pose proof (bounded_It__start_tail r w H) as H1.
    destruct (It__start_tail r w) as [r' w']; simpl in *.
    apply bounded_set_stage, H1.
  - destruct (find_task task w) as [[id c [| r0 | r0]] |] eqn:Ef; simpl; try exact H.
    + pose proof (bounded_It_start_tail r0 w H) as H1.
      destruct (It_start_tail r0 w) as [r' w']; simpl in *.
      apply bounded_set_stage, H1.
    + destruct c as [nth |].
      * apply bounded_D__start_tail; [| apply bounded_remove_task, H].
        destruct H as (_ & _ & HP).
        apply (HP _ nth (find_task_In _ _ _ Ef)). reflexivity.
      * apply (bounded_tell (ItSettled task r0) I). apply bounded_remove_task, H.
  - unfold find_timer.
    destruct (find (fun x => Nat.eqb (fst x) timer) (timers w)) as [[t n] |] eqn:Ef;
      simpl; [| exact H].
    assert (Hn : in_range n).
    { destruct H as (_ & HT & _). apply find_some in Ef as [Hin _].
      apply (HT t n Hin). }
    unfold exec. apply keeps_bind; [| intro; apply bounded_D__start, Hn |].
    + apply bounded_modify. intro. simpl. repeat split. apply incl_refl.
    + destruct H as (HL & HT & HP). unfold remove_timer.
      split; [exact HL | split; [| exact HP]]. simpl.
      intros t' n' Hin. apply filter_In in Hin as [Hin _]. apply (HT t' n' Hin).
  - apply bounded_Obj_emit, H.
Qed.

Lemma reachable_bounded evs : bounded (run evs new_world).
Proof.
  apply keeps_run; [apply bounded_step |].
  split; [constructor |]. split; [intros timer n [] | intros t n []].
Qed.

End Bounded.

(** ** Worlds in which nothing is left to happen *)

Lemma quiescent_step ev w :
  pending w = [] -> timers w = [] -> obj_listeners w = [] ->
  spontaneous ev -> step ev w = w.
Proof.
  intros Hp Ht Ho Hev. destruct ev; simpl in Hev; try contradiction; simpl.
  - unfold find_task. rewrite Hp. reflexivity.
  - unfold find_task. rewrite Hp. reflexivity.
  - unfold find_timer. rewrite Ht. reflexivity.
  - unfold exec, Obj_emit, bind, get. rewrite Ho. reflexivity.
Qed.

Lemma quiescent_run evs w :
  pending w = [] -> timers w = [] -> obj_listeners w = [] ->
  Forall spontaneous evs -> run evs w = w.
Proof.
  intros Hp Ht Ho H. unfold run. induction H as [| ev evs Hev _ IH]; simpl.
  - reflexivity.
  - rewrite (quiescent_step ev w Hp Ht Ho Hev). exact IH.
Qed.

(** * The properties *)

(** C6.  At most one retry timer is live at any time, and the [_retryTimer]
    field names it.  In any world the two objects can reach: [start()],
    and [_start] whenever the daemon is not dead, leave no timer alive when
    they begin the attempt; [_scheduleRetry] leaves exactly the timer it
    arms; [_cleanUp] and [stop()] leave none and clear the field. *)
Theorem at_most_one_retry_timer (evs : list Event) (nth : Z) :
  let w := run evs new_world in
  (List.length (timers w) <= 1)%nat /\
  map fst (timers w) =
    match d_retryTimer w with Some timer => [timer] | None => [] end /\
  timers (exec D_start w) = [] /\
  (dead w = true \/ timers (exec (D__start nth) w) = []) /\
  (timers (exec (D__scheduleRetry nth) w) = [(next_id w, nth)] /\
   d_retryTimer (exec (D__scheduleRetry nth) w) = Some (next_id w)) /\
  (timers (exec D__cleanUp w) = [] /\ d_retryTimer (exec D__cleanUp w) = None) /\
  (timers (exec D_stop w) = [] /\ d_retryTimer (exec D_stop w) = None).
Proof.
  intros w. destruct (reachable_inv evs) as [Ht Hl]. fold w in Ht, Hl.
  repeat split.
  - pose proof Ht as H. unfold timer_inv in H.
    rewrite <- (length_map fst), H. destruct (d_retryTimer w); simpl; lia.
  - exact Ht.
  - unfold exec, D_start, D_assign, bind at 1 2, modify, tell, modify; simpl.
    apply (D__start_disarms 1); [exact Ht | exact Hl | reflexivity].
  - destruct (dead w) eqn:E; [now left | right].
    apply (D__start_disarms nth); assumption.
  - apply scheduleRetry_arms, Ht.
  - apply scheduleRetry_arms, Ht.
  - apply (cleanUp_disarms _ Ht Hl).
  - apply (cleanUp_disarms _ Ht Hl).
  - apply (D_stop_disarms _ Ht Hl).
  - apply (D_stop_disarms _ Ht Hl).
Qed.

(** C7.  When a death event fires on the live handle [obj], on which the
    start registered [_onDeath] for it, the Unreliable builds the death
    error from the handle and the raw arguments, broadcasts the transition
    to [stopped] with the stop reason, assigns the state, clears the
    handle, disposes every subscription and then aborts the waiters of
    each event of [abortOnDeath], in list order, with that error.  [L] is
    whatever the daemon's listener of the broadcast does. *)
Theorem death_event_handling
    (w : World) (obj : Handle) (d : string) (args : list Arg) (sub : Sub) :
  it_uObj w = Some obj ->
  listening obj d w = [sub] ->
  s_handler sub = OnDeath ->
  let err := UnreliableDeathError (deathErrorClass meta) (Some obj) args in
  let st := stopped (states meta) in
  let w' := step (Emit obj d args) w in
  (exists L,
     Forall daemon_effect L /\
     log w' =
       log w
       ++ [ItNotify st {| oldState := it_state w; extra := StopReason args |}
             (it_state w) (waiting_on st (it_waiters w))]
       ++ L
       ++ [ItAssign st; ItObj None]
       ++ map (fun s => ItDispose (s_id s)) (it_disposables w)
       ++ abort_trace (abortOnDeath (stateConf meta)) err
            (not_waiting_on st (it_waiters w))) /\
  it_state w' = st /\
  it_uObj w' = None /\
  it_disposables w' = [] /\
  (forall s, In s (it_disposables w) -> ~ In s (obj_listeners w')) /\
  (forall ev waiter,
     In ev (abortOnDeath (stateConf meta)) -> In (ev, waiter) (it_waiters w) ->
     ev <> st ->
     exists rejected, In (ItAbort ev err rejected) (log w') /\ In waiter rejected) /\
  (forall ev, In ev (abortOnDeath (stateConf meta)) ->
     waiting_on ev (it_waiters w') = []).
Proof.
  intros Hobj Hsub Hh err st w'.
  assert (E : w' = exec (It__onDeath args) w).
  { unfold w', step, exec, Obj_emit, bind at 1, get.
    fold (listening obj d w). rewrite Hsub. simpl. rewrite Hh. simpl.
    unfold bind. now destruct (It__onDeath args w) as [[[] | e] w1]. }
  clearbody w'. unfold exec in E. rewrite onDeath_unfold in E. simpl in E.
  fold st in E. rewrite Hobj in E. fold err in E.
  destruct (emit_frame st (broadcast st (StopReason args) w))
    as (F1 & F2 & F3 & F4 & F5 & F6 & L & FL & FD).
  set (w1 := exec (It_emit st) (broadcast st (StopReason args) w)) in *.
  simpl in F1, F2, F3, F4, F5, F6, FL.
  assert (Elog : log w' =
       log w
       ++ [ItNotify st {| oldState := it_state w; extra := StopReason args |}
             (it_state w) (waiting_on st (it_waiters w))]
       ++ L
       ++ [ItAssign st; ItObj None]
       ++ map (fun s => ItDispose (s_id s)) (it_disposables w)
       ++ abort_trace (abortOnDeath (stateConf meta)) err
            (not_waiting_on st (it_waiters w))).
  { rewrite E; simpl. rewrite FL, F3, F4. rewrite <- !app_assoc. reflexivity. }
  split; [exists L; split; assumption |].
  repeat split; try (rewrite E; reflexivity).
  - intros s Hs Hin. rewrite E in Hin; simpl in Hin.
    apply filter_In in Hin as [_ Hu].
    rewrite F3 in Hu. now rewrite (undisposed_sub_self _ _ Hs) in Hu.
  - intros ev waiter Hev Hw Hne.
    destruct (abort_trace_rejects (abortOnDeath (stateConf meta)) err
                (not_waiting_on st (it_waiters w)) ev waiter Hev) as (rej & H1 & H2).
    + unfold not_waiting_on. apply filter_In. split; [exact Hw |]. simpl.
      apply negb_true_iff, String.eqb_neq. exact Hne.
    + exists rej. split; [| exact H2].
      rewrite Elog. rewrite !in_app_iff. tauto.
  - intros ev Hev. rewrite E; simpl. rewrite waiting_on_after_aborts.
    replace (has (abortOnDeath (stateConf meta)) ev) with true; [reflexivity |].
    symmetry. apply existsb_exists. exists ev. split; [exact Hev | apply String.eqb_refl].
Qed.

(** C8.  When the creation hook of a pending [start()] fails with [err],
    [start] resumes by aborting the waiters of each event of
    [abortOnStartFailure], in order, with [err]; then it broadcasts the
    transition to [startFailed] with the error and the previous state and
    assigns the state; then it settles with the same [err], which a caller
    outside the daemon receives as the rejection of its call. *)
Theorem creation_failure_handling
    (w : World) (task : nat) (t : Task) (err : Error) :
  find_task task w = Some t ->
  t_stage t = AwaitCreate ->
  let sf := startFailed (states meta) in
  let events := abortOnStartFailure (stateConf meta) in
  let w' := step (Resume task) (step (Settle task (Throws err)) w) in
  (exists L,
     Forall daemon_effect L /\
     log w' =
       log w
       ++ abort_trace events err (it_waiters w)
       ++ [ItNotify sf {| oldState := it_state w; extra := StartFailureReason err |}
             (it_state w) (waiting_on sf (after_aborts events (it_waiters w)))]
       ++ L
       ++ [ItAssign sf]) /\
  it_state w' = sf /\
  (forall ev waiter,
     In ev events -> In (ev, waiter) (it_waiters w) ->
     exists rejected, In (ItAbort ev err rejected) (log w') /\ In waiter rejected) /\
  find_task task w' =
    Some {| t_id := t_id t; t_caller := t_caller t; t_stage := AwaitCaller (Throws err) |} /\
  (t_caller t = ByUser ->
   log (step (Resume task) w') = log w' ++ [ItSettled task (Throws err)]).
Proof.
  intros Hfind Hstage sf events w'.
  set (wa := set_stage task (AwaitStart (Throws err)) w).
  assert (E1 : step (Settle task (Throws err)) w = wa).
  { unfold step. rewrite Hfind, Hstage. reflexivity. }
  assert (Ha : find_task task wa =
               Some {| t_id := t_id t; t_caller := t_caller t;
                       t_stage := AwaitStart (Throws err) |})
    by (apply find_task_set_stage, Hfind).
  unfold w'. rewrite E1.
  destruct (resume_failed_start wa task _ err Ha eq_refl)
    as (H1 & H2 & _ & H3 & H4 & H5).
  repeat split; assumption.
Qed.

(** C9.  A [start()] whose precondition fails (the state is not startable,
    or a handle already exists) changes nothing at the call; when it
    resumes, the waiters of the [abortOnStartFailure] events are aborted
    with the assertion error, the state becomes [startFailed] whatever it
    was, and the caller receives the assertion error. *)
Theorem start_precondition_fault (w : World) :
  tasks_fresh w ->
  startable_now w = false \/ it_uObj w <> None ->
  let sf := startFailed (states meta) in
  let events := abortOnStartFailure (stateConf meta) in
  let task := next_id w in
  let w1 := step CallItStart w in
  let w2 := step (Resume task) w1 in
  exists message,
    let err := AssertionError message in
    (log w1 = log w /\ it_state w1 = it_state w /\ it_waiters w1 = it_waiters w) /\
    (exists L,
       Forall daemon_effect L /\
       log w2 =
         log w
         ++ abort_trace events err (it_waiters w)
         ++ [ItNotify sf {| oldState := it_state w; extra := StartFailureReason err |}
               (it_state w) (waiting_on sf (after_aborts events (it_waiters w)))]
         ++ L
         ++ [ItAssign sf]) /\
    it_state w2 = sf /\
    (forall ev waiter,
       In ev events -> In (ev, waiter) (it_waiters w) ->
       exists rejected, In (ItAbort ev err rejected) (log w2) /\ In waiter rejected) /\
    (forall ev, In ev events -> waiting_on ev (it_waiters w2) = []) /\
    log (step (Resume task) w2) = log w2 ++ [ItSettled task (Throws err)].
Proof.
  intros Hfresh Hpre sf events task w1 w2.
  set (message :=
         if startable_now w then "Invalid state" else "Not startable").
  exists message. cbv zeta.
  assert (E1 : w1 =
            set_pending
              (pending (set_next_id (S (next_id w)) w)
               ++ [{| t_id := task; t_caller := ByUser;
                      t_stage := AwaitStart (Throws (AssertionError message)) |}])
              (set_next_id (S (next_id w)) w)).
  { unfold w1, step, exec, It_start, bind at 1, fresh, It__start_head, bind at 1, get.
    change (startable_now (set_next_id (S (next_id w)) w)) with (startable_now w).
    change (it_uObj (set_next_id (S (next_id w)) w)) with (it_uObj w).
    unfold message. destruct (startable_now w) eqn:Es; simpl.
    - destruct Hpre as [? | Hobj]; [discriminate |].
      destruct (it_uObj w); [reflexivity | congruence].
    - reflexivity. }
  assert (Ha : find_task task w1 =
               Some {| t_id := task; t_caller := ByUser;
                       t_stage := AwaitStart (Throws (AssertionError message)) |}).
  { rewrite E1. unfold find_task; simpl.
    pose proof (find_task_new task ByUser
                  (AwaitStart (Throws (AssertionError message))) w Hfresh eq_refl) as H.
    exact H. }
  destruct (resume_failed_start w1 task _ (AssertionError message) Ha eq_refl)
    as (H1 & H2 & H3 & H4 & H5 & H6).
  fold w2 in H1, H2, H3, H4, H5, H6.
  assert (El : log w1 = log w) by (rewrite E1; reflexivity).
  assert (Es : it_state w1 = it_state w) by (rewrite E1; reflexivity).
  assert (Ew : it_waiters w1 = it_waiters w) by (rewrite E1; reflexivity).
  rewrite El, Es, Ew in *.
  repeat split; try assumption.
  - intros ev Hev. rewrite H3, waiting_on_not_waiting_on, waiting_on_after_aborts.
    fold events. rewrite (has_true _ _ Hev). now destruct (String.eqb ev _).
  - apply H6. reflexivity.
Qed.

(** C10.  [waitForState(s)] on an Unreliable already in state [s] returns
    [undefined] and changes nothing: no waiter is registered.  In any other
    state it registers one waiter of [s], and the next transition to [s]
    resolves that waiter with the payload of the transition. *)
Theorem waitForState_when_already_there (w : World) (s : string) :
  (it_state w = s /\ It_waitForState s w = (Returns Undefined, w)) \/
  (it_state w <> s /\
   let waiter := next_id w in
   let w' := exec (It_waitForState s) w in
   fst (It_waitForState s w) = Returns (Awaiting waiter) /\
   it_waiters w' = it_waiters w ++ [(s, waiter)] /\
   forall x : Extra,
   exists resolved,
     In (ItNotify s {| oldState := it_state w; extra := x |} (it_state w) resolved)
        (log (exec (It__setState s x) w')) /\
     In waiter resolved).
Proof.
  destruct (String.eqb_spec (it_state w) s) as [E | Hne].
  - left. split; [exact E |].
    unfold It_waitForState, bind, get. now rewrite (proj2 (String.eqb_eq _ _) E).
  - right. split; [exact Hne |]. cbv zeta.
    assert (E : It_waitForState s w =
                (Returns (Awaiting (next_id w)),
                 set_it_waiters (it_waiters w ++ [(s, next_id w)])
                   (set_next_id (S (next_id w)) w))).
    { unfold It_waitForState, bind at 1, get.
      rewrite (proj2 (String.eqb_neq _ _) Hne). reflexivity. }
    unfold exec. rewrite E. simpl.
    split; [reflexivity |]. split; [reflexivity |].
    intros x. rewrite setState_unfold; simpl.
    eexists. split.
    + apply in_app_iff. left.
      destruct (emit_frame s
                  (broadcast s x
                     (set_it_waiters (it_waiters w ++ [(s, next_id w)])
                        (set_next_id (S (next_id w)) w))))
        as (_ & _ & _ & _ & _ & _ & L & FL & _).
      rewrite FL. simpl. rewrite !in_app_iff. left. right. left. reflexivity.
    + unfold waiting_on. apply in_map_iff. exists (s, next_id w). split; [reflexivity |].
      apply filter_In. split; [| apply String.eqb_refl].
      apply in_app_iff. right. now left.
Qed.

(** C4.  When a start attempt that is not the last one ([nthAttempt] below
    [maxAttempt], daemon not dead) has failed, one and the same step
    broadcasts [start-failed] with [retryIn = retryDelay], broadcasts
    [retry-scheduled] for the next attempt, sets the status to
    [retry-scheduled] and arms the timer: nothing can run in between, and
    when the step ends the status is [retry-scheduled].  [pre] is what the
    best-effort [it.stop()] did, [clear] the cancelling of a dangling
    timer. *)
Theorem retry_scheduled_with_start_failed
    (w : World) (task : nat) (t : Task) (nth : Z) (err : Error) :
  find_task task w = Some t ->
  t_caller t = ByDaemon nth ->
  t_stage t = AwaitCaller (Throws err) ->
  nth < maxAttempt ->
  dead w = false ->
  let w' := step (Resume task) w in
  exists pre clear seen timer,
    log w' =
      log w ++ pre
      ++ [DNotify DaemonEvents.START_FAILED
            (EventArgs.StartFailed
               {| cause := err; nthAttempt := nth; retryIn := retryDelay |}) seen]
      ++ clear
      ++ [DNotify DaemonEvents.RETRY_SCHEDULED
            (EventArgs.RetryScheduled (nth + 1) retryDelay) seen;
          DAssign DaemonStatus.RETRY_SCHEDULED;
          SetTimeout timer (nth + 1) retryDelay] /\
    (clear = [] \/ exists old, clear = [ClearTimeout old]) /\
    d_state w' = DaemonStatus.RETRY_SCHEDULED /\
    d_retryTimer w' = Some timer /\
    In (timer, nth + 1) (timers w').
Proof.
  intros Hfind Hc Hs Hlt Hd w'.
  destruct t as [id c st]; simpl in Hc, Hs; subst c st.
  assert (E : exists w1 pre,
             log w1 = log w ++ pre /\ dead w1 = false /\
             w' = exec
                    (D_notify DaemonEvents.START_FAILED
                       (EventArgs.StartFailed
                          {| cause := err; nthAttempt := nth; retryIn := retryDelay |}) ;;
                     D__scheduleRetry (nth + 1)) w1).
  { unfold w', step. rewrite Hfind. cbn [t_stage t_caller]. unfold exec.
    destruct (catch_block_unfold nth err (remove_task task w))
      as (w1 & E & [pre Hpre] & Halive & _).
    rewrite E. clear E. unfold give_up_or_retry.
    replace (nth >=? maxAttempt) with false
      by (symmetry; rewrite Z.geb_leb; apply Z.leb_gt; lia).
    unfold bind at 1, get.
    specialize (Halive Hd). unfold alive in Halive. rewrite Halive.
    exists w1, pre. repeat split; assumption. }
  clearbody w'. destruct E as (w1 & pre & Hpre & Halive & ->).
  unfold exec, D_notify, D__scheduleRetry, bind, get, tell, modify; simpl.
  destruct (d_retryTimer w1) as [old |] eqn:Et; simpl.
  - exists pre, [ClearTimeout old], (d_state w1), (next_id w1).
    rewrite Hpre. rewrite <- !app_assoc. simpl.
    repeat split; eauto. apply in_app_iff. right. now left.
  - exists pre, [], (d_state w1), (next_id w1).
    rewrite Hpre. rewrite <- !app_assoc. simpl.
    repeat split; eauto. apply in_app_iff. right. now left.
Qed.

(** X21.  While the daemon is not dead and its [stopped] callback is
    registered (as [_start] leaves it once it has resumed after a
    successful [it.start()]), the death of the resource makes the daemon
    clean up and schedule a retry at attempt number 1:
    status [retry-scheduled], no disposable left, exactly one live timer,
    armed for attempt 1, a [retry-scheduled] broadcast for attempt 1 and
    for no other number; when that timer fires the daemon announces
    attempt 1.  Nothing in this depends on the attempt number of the start
    that succeeded. *)
Theorem death_after_running_retries_from_one
    (w : World) (l : nat * string) (reason : list Arg) :
  dead w = false ->
  timer_inv w ->
  In l (it_listeners w) ->
  snd l = stopped (states meta) ->
  let w' := exec (It__onDeath reason) w in
  retry_armed 1 w w' /\
  forall timer, d_retryTimer w' = Some timer ->
    exists seen d,
      log (step (TimerFires timer) w') = log w' ++ d /\
      In (DNotify DaemonEvents.STARTING (EventArgs.Starting 1) seen) d.
Proof.
  intros Hd Ht Hl Hs w'.
  set (st := stopped (states meta)) in *.
  set (w0 := broadcast st (StopReason reason) w).
  assert (H0 : retry_armed 1 w0 (exec (It_emit st) w0)).
  { apply emit_retries; [exact Hd | exact Ht | exists l; split; assumption]. }
  set (w1 := exec (It_emit st) w0) in *.
  assert (E : w' =
     set_log
       (log w1 ++ [ItAssign st; ItObj None]
        ++ map (fun s => ItDispose (s_id s)) (it_disposables w1)
        ++ abort_trace (abortOnDeath (stateConf meta))
             (UnreliableDeathError (deathErrorClass meta) (it_uObj w) reason)
             (it_waiters w1))
       (set_it_waiters (after_aborts (abortOnDeath (stateConf meta)) (it_waiters w1))
          (set_it_disposables []
             (set_obj_listeners
                (filter (undisposed_sub (it_disposables w1)) (obj_listeners w1))
                (set_it_uObj None (set_it_state st w1)))))).
  { unfold w', exec. rewrite onDeath_unfold. reflexivity. }
  clearbody w'.
  assert (Harmed : retry_armed 1 w w').
  { destruct H0 as (A1 & A2 & A3 & d & A4 & (seen & A5) & A6).
    rewrite E. unfold retry_armed; simpl. repeat split; try assumption.
    eexists. split; [rewrite A4; unfold w0; simpl; rewrite <- !app_assoc; reflexivity |].
    split.
    - exists seen. simpl. right. apply in_app_iff. now left.
    - simpl. constructor; [auto |]. apply Forall_app. split; [exact A6 |].
      constructor; [auto |]. constructor; [auto |].
      apply Forall_app. split;
        [apply dispose_trace_not_retry | apply abort_trace_not_retry]. }
  split; [exact Harmed |].
  intros timer Htimer.
  destruct Harmed as (A1 & _ & (timer' & A2 & A3) & _).
  rewrite A2 in Htimer. injection Htimer as ->.
  unfold step, find_timer. rewrite A3; simpl. rewrite Nat.eqb_refl; simpl.
  unfold exec, bind at 1, modify.
  set (w2 := set_d_retryTimer None (remove_timer timer w')).
  assert (Ha2 : alive w2) by (unfold alive, dead, w2; simpl; now rewrite A1).
  destruct (D__start_announces 1 w2 Ha2) as (seen & d & E1 & E2).
  exists seen, d. split; [exact E1 | exact E2].
Qed.


(** C3, as the code has it.  In every step, from every world: each
    broadcast that announces a Daemon status or an Unreliable state is
    made first, and the assignment of that value to the field behind the
    getter is the next thing the object does, in the same step; a listener
    that reads the getter while the broadcast runs reads the value
    assigned last before it (for the Unreliable, the [oldState] of the
    payload); and when the step ends the two fields hold the values
    assigned last. *)
Theorem broadcast_then_assignment (ev : Event) (w : World) :
  exists L,
    log (step ev w) = log w ++ L /\
    d_paired None L = true /\
    it_paired None L = true /\
    reads_current (d_state w) (it_state w) L /\
    d_state (step ev w) = last_status (d_state w) L /\
    it_state (step ev w) = last_state (it_state w) L.
Proof. exact (paired_step ev w). Qed.

(** ** Further properties of the code *)

(** X1.  Dead at rest is final.  Once the daemon is dead and nothing of it
    is left in the runtime (no live timer, no [stopped] callback on the
    Unreliable, no start attempt in flight), no sequence of events without
    a new [Daemon.start()] changes its status or makes it broadcast
    anything: the Unreliable may be started, stopped and waited for by
    hand, its handle may emit, stale timers may fire, [stop()] may be
    called again. *)
Theorem dead_at_rest_is_final (evs : list Event) (w : World) :
  given_up w ->
  ~ In CallDaemonStart evs ->
  let w' := run evs w in
  d_state w' = DaemonStatus.DEAD /\
  broadcasts (log w') = broadcasts (log w) /\
  given_up w'.
Proof.
  intros Hg Hn w'.
  destruct (silent_run (broadcasts (log w)) evs w Hn (conj Hg eq_refl))
    as [Hg' Hb].
  fold w' in Hg', Hb. split; [| split; assumption].
  destruct Hg' as (Hd & _). unfold dead in Hd.
  destruct (d_state w'); simpl in Hd; congruence.
Qed.

(** X2.  A start whose creation hook returned the handle [obj] leaves
    [obj] as the live handle and, for every event of [deathEvents], an
    [_onDeath] listener on [obj] whose disposable the Unreliable holds. *)
Theorem successful_start_watches_death
    (w : World) (obj : Handle) (d : string) :
  In d (deathEvents meta) ->
  let w' := exec (It__start_tail (Returns obj)) w in
  it_uObj w' = Some obj /\ death_watched obj d w'.
Proof.
  intros Hd w'. destruct (start_watches_death obj d w Hd) as [H1 H2].
  split; assumption.
Qed.

(** X3.  When [it.start()] has returned, [Daemon._start] broadcasts
    [running], sets the status to [running] and registers its one-shot
    [stopped] callback on the Unreliable, keeping the disposable; it does
    so whatever the status was when it resumed. *)
Theorem successful_attempt_registers_callback (nth : Z) (w : World) :
  let w' := exec (D__start_tail nth (Returns tt)) w in
  let l := (next_id w, stopped (states meta)) in
  d_state w' = DaemonStatus.RUNNING /\
  it_listeners w' = it_listeners w ++ [l] /\
  d_disposables w' = d_disposables w ++ [l] /\
  log w' =
    log w ++ [DNotify DaemonEvents.RUNNING EventArgs.Running (d_state w);
              DAssign DaemonStatus.RUNNING;
              DOnce (next_id w) (stopped (states meta))].
Proof.
  intros w' l. unfold w', l, exec, D__start_tail, D_notify, D_assign, bind,
    get, fresh, modify, tell, modify. simpl.
  rewrite <- !app_assoc. repeat split.
Qed.

(** X4.  [Unreliable.stop()] in a state that is not stoppable, or with no
    handle, throws the assertion error (the message names the state) and
    changes nothing: unlike a failed [start()], it broadcasts nothing and
    the state stays as it is.  [Daemon.stop()] swallows that error, so on
    such a resource it touches no field of the Unreliable. *)
Theorem stop_precondition_fault (w : World) :
  stoppable_now w = false \/ it_uObj w = None ->
  let message :=
    if stoppable_now w then "Invalid state"
    else ("Cannot stop in state: " ++ it_state w)%string in
  It_stop w = (Throws (AssertionError message), w) /\
  step CallItStop w = set_log (log w ++ [ItThrown (AssertionError message)]) w /\
  it_frame w (exec D_stop w).
Proof.
  intros Hpre message.
  assert (E : forall w', it_state w' = it_state w -> it_uObj w' = it_uObj w ->
                It_stop w' = (Throws (AssertionError message), w')).
  { intros w' Es Eo. unfold It_stop, bind at 1, get, message, stoppable_now.
    rewrite Es, Eo. fold (stoppable_now w).
    destruct (stoppable_now w); simpl.
    - destruct Hpre as [? | ->]; [discriminate | reflexivity].
    - reflexivity. }
  split; [apply E; reflexivity |]. split.
  - unfold step, exec, tryCatch. rewrite (E w eq_refl eq_refl). reflexivity.
  - assert (Na : never_throws (D_assign DaemonStatus.DEAD))
      by (unfold D_assign, tell; nt_auto).
    assert (Nc : never_throws clearRetryTimer)
      by (unfold clearRetryTimer, clearTimeout, tell; nt_auto).
    unfold D_stop.
    destruct (exec_bind (D_assign DaemonStatus.DEAD)
                (fun _ => D__cleanUp ;; clearRetryTimer ;;
                          tryCatch It_stop (fun _ => ret tt)) w Na) as [[] ->].
    set (wa := exec (D_assign DaemonStatus.DEAD) w).
    destruct (exec_bind D__cleanUp
                (fun _ => clearRetryTimer ;; tryCatch It_stop (fun _ => ret tt))
                wa nt_cleanUp) as [[] ->].
    set (wb := exec D__cleanUp wa).
    destruct (exec_bind clearRetryTimer
                (fun _ => tryCatch It_stop (fun _ => ret tt)) wb Nc) as [[] ->].
    set (wc := exec clearRetryTimer wb).
    assert (F : it_frame w wc).
    { apply (keeps_exec (it_frame w)).
      { unfold clearRetryTimer, clearTimeout. it_frame_auto. }
      apply (keeps_exec (it_frame w)); [apply it_frame_cleanUp |].
      apply (keeps_exec (it_frame w)); [| apply it_frame_refl].
      unfold D_assign. it_frame_auto. }
    unfold exec, tryCatch.
    destruct F as (Fs & Fo & F). rewrite (E wc Fs Fo). simpl.
    split; [exact Fs | split; [exact Fo | exact F]].
Qed.

(** X5.  [Unreliable.stop()] with a [_stop()] hook that makes the handle
    emit a death event (as a process killed synchronously does), when the
    listeners of that event on the handle are [_onDeath] and at most
    [_onError], with no method of [eventHandlers] bound to it: by the time
    [stop()] returns the death has been handled.  The state is [stopped],
    the handle is released, no subscription is left, the call has not
    thrown, and [waitForState(stopped)] now answers at once. *)
Theorem stop_reaches_stopped
    (w : World) (obj : Handle) (d : string) (args : list Arg) :
  stopHook = StopEmits d args ->
  stoppable_now w = true ->
  it_uObj w = Some obj ->
  base_handled obj d w ->
  (exists sub, In sub (listening obj d w) /\ s_handler sub = OnDeath) ->
  let w' := exec It_stop w in
  fst (It_stop w) = Returns tt /\
  it_state w' = stopped (states meta) /\
  it_uObj w' = None /\
  it_disposables w' = [] /\
  (exists resolved L,
     log w' =
       log w
       ++ [ItNotify (stopping (states meta))
             {| oldState := it_state w; extra := NoExtra |} (it_state w) resolved]
       ++ L) /\
  It_waitForState (stopped (states meta)) w' = (Returns Undefined, w').
Proof.
  intros Hhook Hs Hobj _ Hsub. exact (It_stop_kills w obj d args Hhook Hs Hobj Hsub).
Qed.

(** X6.  [Daemon.stop()] broadcasts nothing and leaves the status [dead].
    When no start attempt of the daemon is in flight at the call, that is
    final: whatever happens afterwards short of a new [start()] (the
    resource dies, stale timers fire, the Unreliable is used by hand), the
    status stays [dead] and the daemon broadcasts nothing more; no retry
    is ever scheduled. *)
Theorem stop_without_attempt_in_flight (history later : list Event) :
  let w := run history new_world in
  user_only w ->
  ~ In CallDaemonStart later ->
  let w1 := step CallDaemonStop w in
  let w' := run later w1 in
  d_state w1 = DaemonStatus.DEAD /\
  broadcasts (log w1) = broadcasts (log w) /\
  timers w1 = [] /\
  d_state w' = DaemonStatus.DEAD /\
  broadcasts (log w') = broadcasts (log w) /\
  timers w' = [].
Proof.
  intros w Hu Hn w1 w'.
  destruct (reachable_inv history) as [Ht Hl]. fold w in Ht, Hl.
  pose proof (D_stop_silences w Ht Hl Hu) as H1.
  change (exec D_stop w) with w1 in H1.
  pose proof (silent_run _ later w1 Hn H1) as H2. fold w' in H2.
  assert (D : forall x, dead x = true -> d_state x = DaemonStatus.DEAD).
  { intros x Hx. unfold dead in Hx. destruct (d_state x); simpl in Hx; congruence. }
  destruct H1 as ((A1 & (_ & A2 & _) & _) & A3).
  destruct H2 as ((B1 & (_ & B2 & _) & _) & B3).
  repeat split; auto.
Qed.

(** X7.  The daemon never loses track of a [stopped] callback it has put
    on the Unreliable: in every world the two objects can reach, each
    callback still registered is among the daemon's disposables, so
    [_cleanUp()], [stop()] and the beginning of every attempt leave none
    registered, and a death is never answered by a stale callback. *)
Theorem stopped_callbacks_are_held (evs : list Event) (nth : Z) :
  let w := run evs new_world in
  (forall l, In l (it_listeners w) -> In (fst l) (map fst (d_disposables w))) /\
  (it_listeners (exec D__cleanUp w) = [] /\ d_disposables (exec D__cleanUp w) = []) /\
  it_listeners (exec D_stop w) = [] /\
  it_listeners (exec D_start w) = [] /\
  (dead w = true \/ it_listeners (exec (D__start nth) w) = []).
Proof.
  intros w. destruct (reachable_inv evs) as [Ht Hl]. fold w in Ht, Hl.
  split; [exact Hl |]. split; [| split; [| split]].
  - destruct (cleanUp_disarms _ Ht Hl) as ((H1 & _) & H2). split; assumption.
  - apply (D_stop_disarms _ Ht Hl).
  - unfold exec, D_start, D_assign, bind at 1 2, modify, tell, modify; simpl.
    apply (D__start_disarms 1); [exact Ht | exact Hl | reflexivity].
  - destruct (dead w) eqn:E; [now left | right].
    apply (D__start_disarms nth); assumption.
Qed.

(** X8.  The Unreliable never leaves one of its listeners behind.  In
    every world the two objects can reach, the listeners registered on
    handles through [on()] are exactly the disposables the Unreliable
    holds; while it has no handle none is registered; and a death
    removes them all. *)
Theorem subscriptions_never_leak (evs : list Event) (reason : list Arg) :
  let w := run evs new_world in
  obj_listeners w = it_disposables w /\
  (it_uObj w = None -> obj_listeners w = []) /\
  obj_listeners (exec (It__onDeath reason) w) = [].
Proof.
  intros w. pose proof (reachable_held evs) as H. fold w in H.
  pose proof (held_onDeath reason w H) as [H3 H4].
  destruct H as [H1 H2].
  split; [exact H1 |]. split.
  - intros E. rewrite H1. apply H2, E.
  - change (obj_listeners (exec (It__onDeath reason) w)
            = it_disposables (exec (It__onDeath reason) w)) in H3.
    rewrite H3. apply (onDeath_lays_to_rest reason w).
Qed.

(** X9.  [Daemon.start()] always begins at attempt 1.  In whatever
    reachable state it is called (running, a retry scheduled for a later
    attempt, dead), the daemon goes through [init], cancels the scheduled
    retry, drops its [stopped] callback, broadcasts [starting] for attempt
    1 (a listener of that broadcast reads the status [init]) and no other
    broadcast, sets the status to [starting], and suspends in one new call
    of [it.start()] made for attempt 1. *)
Theorem start_begins_at_attempt_one (evs : list Event) :
  let w := run evs new_world in
  let w' := step CallDaemonStart w in
  d_state w' = DaemonStatus.STARTING /\
  timers w' = [] /\ d_retryTimer w' = None /\
  it_listeners w' = [] /\ d_disposables w' = [] /\
  (exists c rest,
     Forall cleanup_effect c /\ broadcasts rest = [] /\
     log w' =
       log w ++ [DAssign DaemonStatus.INIT] ++ c
       ++ [DNotify DaemonEvents.STARTING (EventArgs.Starting 1) DaemonStatus.INIT;
           DAssign DaemonStatus.STARTING]
       ++ rest) /\
  broadcasts (log w') =
    broadcasts (log w) ++ [(DaemonEvents.STARTING, EventArgs.Starting 1)] /\
  exists stage,
    pending w' =
    pending w ++ [{| t_id := next_id w; t_caller := ByDaemon 1; t_stage := stage |}].
Proof.
  intros w w'. destruct (reachable_inv evs) as [Ht Hl]. fold w in Ht, Hl.
  destruct (D_start_spec w Ht Hl)
    as (stage & w1 & c & rest & E & H1 & H2 & H3 & H4 & H5 & H6 & H7 & H8 & _).
  change (step CallDaemonStart w) with (exec D_start w) in w'.
  unfold w'. rewrite E. simpl.
  repeat split; try assumption.
  - exists c, rest. repeat split; assumption.
  - rewrite H8, !broadcasts_app, (broadcasts_cleanup _ H6), H7. simpl.
    reflexivity.
  - exists stage. reflexivity.
Qed.

(** X10.  An attempt that succeeds.  [Daemon.start()] on a startable
    Unreliable with no handle, then a creation hook that returns [obj]:
    the daemon broadcasts [starting] for attempt 1 and then [running], and
    nothing else; the status goes [starting] then [running]; the
    Unreliable is [running] with [obj] as its handle, watched for every
    death event; the daemon holds exactly one [stopped] callback, no timer
    is armed, and the call of [it.start()] is no longer pending. *)
Theorem attempt_succeeds (w : World) (obj : Handle) :
  timer_inv w -> listeners_inv w -> tasks_fresh w ->
  startable_now w = true -> it_uObj w = None ->
  let task := next_id w in
  let w1 := step CallDaemonStart w in
  let w4 := run [Settle task (Returns obj); Resume task; Resume task] w1 in
  (d_state w1 = DaemonStatus.STARTING /\ it_state w1 = starting (states meta)) /\
  d_state w4 = DaemonStatus.RUNNING /\
  it_state w4 = running (states meta) /\
  it_uObj w4 = Some obj /\
  broadcasts (log w4) =
    broadcasts (log w)
    ++ [(DaemonEvents.STARTING, EventArgs.Starting 1);
        (DaemonEvents.RUNNING, EventArgs.Running)] /\
  (exists id,
     it_listeners w4 = [(id, stopped (states meta))] /\
     d_disposables w4 = [(id, stopped (states meta))]) /\
  timers w4 = [] /\ d_retryTimer w4 = None /\
  pending w4 = pending w /\
  (forall d, In d (deathEvents meta) -> death_watched obj d w4).
Proof.
  intros Ht Hl Hf Hs Ho task w1 w4.
  destruct (D_start_spec w Ht Hl)
    as (stage & wd & c & rest & E & H1 & H2 & H3 & H4 & H5 & H6 & H7 & H8 & Hok).
  destruct (Hok Hs Ho) as (-> & K1 & K2 & K3).
  change (step CallDaemonStart w) with (exec D_start w) in w1.
  set (t0 := {| t_id := task; t_caller := ByDaemon 1; t_stage := AwaitCreate |}) in *.
  assert (Hlt : forall x, In x (pending w) -> (t_id x < task)%nat) by exact Hf.
  assert (P1 : pending w1 = pending w ++ [t0]) by (unfold w1; rewrite E; reflexivity).
  assert (F1 : find_task task w1 = Some t0)
    by (apply (find_task_last task w1 (pending w) t0 P1 eq_refl Hlt)).
  (* the creation hook returns *)
  set (wS := exec (It__start_tail (Returns obj)) w1).
  set (w2 := set_stage task (AwaitStart (Returns obj)) wS).
  assert (E2 : step (Settle task (Returns obj)) w1 = w2).
  { unfold step. rewrite F1. cbn [t_stage t0]. rewrite start_tail_returns. reflexivity. }
  assert (L1 : it_listeners w1 = []) by (unfold w1; rewrite E; exact H1).
  assert (FS : d_frame w1 wS).
  { apply (keeps_exec (d_frame w1)); [apply d_frame_It__start_tail |].
    apply d_frame_refl, L1. }
  destruct FS as (S1 & S2 & S3 & S4 & S5 & S6 & L & S7 & S8).
  pose proof (start_tail_running obj w1) as R1. fold wS in R1.
  assert (FSt : find_task task wS = Some t0).
  { rewrite (find_task_pending task w1 wS S6). exact F1. }
  pose proof (find_task_set_stage task (AwaitStart (Returns obj)) wS t0 FSt) as F2.
  fold w2 in F2. cbn [t_id t_caller t0] in F2.
  (* [Unreliable.start] resumes *)
  set (w3 := set_stage task (AwaitCaller (Returns tt)) w2).
  assert (E3 : step (Resume task) w2 = w3).
  { unfold step. rewrite F2. reflexivity. }
  pose proof (find_task_set_stage task (AwaitCaller (Returns tt)) w2 _ F2) as F3.
  fold w3 in F3. cbn [t_id t_caller] in F3.
  (* [Daemon._start] resumes *)
  assert (E4 : w4 = exec (D__start_tail 1 (Returns tt)) (remove_task task w3)).
  { unfold w4, run. cbn [fold_left]. rewrite E2, E3.
    unfold step. rewrite F3. reflexivity. }
  assert (P3 : pending (remove_task task w3) = pending w).
  { unfold remove_task, w3, w2, set_stage. cbn [pending set_pending].
    rewrite S6, P1, map_map.
    apply remove_last_task; [| | reflexivity | exact Hlt].
    - intros x. destruct (Nat.eqb (t_id x) task) eqn:Ex; simpl; rewrite ?Ex; reflexivity.
    - intros x Hx. apply Nat.eqb_neq in Hx. rewrite Hx. simpl. now rewrite Hx. }
  assert (Ew1 : forall d, In d (deathEvents meta) -> death_watched obj d wS /\ it_uObj wS = Some obj)
    by (intros d Hd; apply (start_watches_death obj d w1 Hd)).
  assert (Uo : it_uObj wS = Some obj).
  { unfold wS, exec, It__start_tail.
    destruct (exec_bind (It_setObj (Some obj))
                (fun _ =>
                   It__setState (running (states meta)) NoExtra ;;
                   It_on obj "error" OnError ;;
                   forEach (deathEvents meta) (fun e => It_on obj e OnDeath) ;;
                   forEach (eventHandlers meta)
                     (fun eh => It_on obj (fst eh) (Method (snd eh))) ;;
                   ret obj) w1) as [[] Eb].
    { unfold It_setObj, tell. nt_auto. }
    unfold exec in Eb. rewrite Eb.
    apply (keeps_exec (fun w' => it_uObj w' = Some obj)); [| reflexivity].
    assert (Hst : forall s x, keeps (fun w' => it_uObj w' = Some obj) (It__setState s x)).
    { intros s x w' H. rewrite setState_unfold. cbv zeta; simpl.
      destruct (emit_frame s (broadcast s x w')) as (_ & Fo & _).
      rewrite Fo. exact H. }
    unfold It_on. keeps_fields. }
  split.
  { unfold w1. rewrite E. split; [exact H5 | exact K1]. }
  set (wr := remove_task task w3) in *.
  assert (Q1 : it_listeners wr = []) by exact S1.
  assert (Q2 : d_disposables wr = []).
  { change (d_disposables wS = []). rewrite S4. unfold w1. rewrite E. exact H4. }
  assert (Q3 : timers wr = []).
  { change (timers wS = []). rewrite S5. unfold w1. rewrite E. exact H2. }
  assert (Q4 : d_retryTimer wr = None).
  { change (d_retryTimer wS = None). rewrite S3. unfold w1. rewrite E. exact H3. }
  assert (Q5 : d_state wr = DaemonStatus.STARTING).
  { change (d_state wS = DaemonStatus.STARTING). rewrite S2. unfold w1. rewrite E.
    exact H5. }
  assert (Q6 : broadcasts (log wr) =
               broadcasts (log w) ++ [(DaemonEvents.STARTING, EventArgs.Starting 1)]).
  { change (broadcasts (log wS) =
            broadcasts (log w) ++ [(DaemonEvents.STARTING, EventArgs.Starting 1)]).
    rewrite S7, broadcasts_app, S8, app_nil_r.
    assert (Lw : log w1 = log wd) by (unfold w1; rewrite E; reflexivity).
    rewrite Lw, H8, !broadcasts_app, (broadcasts_cleanup _ H6), H7. reflexivity. }
  assert (Q7 : it_state wr = running (states meta)) by exact R1.
  assert (Q8 : it_uObj wr = Some obj) by exact Uo.
  assert (Q9 : forall d, death_watched obj d wS -> death_watched obj d wr)
    by (intros d Hd; exact Hd).
  rewrite E4. clearbody wr.
  assert (Q10 : forall d,
            death_watched obj d wr ->
            death_watched obj d (exec (D__start_tail 1 (Returns tt)) wr))
    by (intros d Hd; exact Hd).
  unfold exec in *.
  revert Q10.
  unfold D__start_tail, D_notify, D_assign, bind, get, fresh, modify, tell, modify.
  simpl. intros Q10.
  rewrite Q1, Q2, Q3, Q4, Q7, Q8, P3.
  repeat split.
  - rewrite !broadcasts_app, Q6. simpl. rewrite !app_nil_r, <- app_assoc. reflexivity.
  - eexists. split; reflexivity.
  - intros d Hd. apply Q10, Q9. apply (Ew1 d Hd).
Qed.

(** X11.  A start attempt that fails after the daemon was stopped.  When
    [it.start()] rejects and the daemon is dead with nothing else of it in
    flight, the catch block of [_start] schedules no retry and the status
    stays [dead].  If the attempt was not the last one allowed, nothing is
    broadcast; if it was the last one ([nthAttempt >= maxAttempt]),
    [start-failed] with [retryIn = -1] is still broadcast, although
    [stop()] had been called. *)
Theorem failed_attempt_after_stop
    (w : World) (task : nat) (t : Task) (nth : Z) (err : Error) :
  find_task task w = Some t ->
  t_caller t = ByDaemon nth ->
  t_stage t = AwaitCaller (Throws err) ->
  given_up (remove_task task w) ->
  let w' := step (Resume task) w in
  d_state w' = DaemonStatus.DEAD /\
  timers w' = [] /\
  broadcasts (log w') =
    broadcasts (log w)
    ++ (if nth >=? maxAttempt
        then [(DaemonEvents.START_FAILED,
               EventArgs.StartFailed
                 {| cause := err; nthAttempt := nth; retryIn := -1 |})]
        else []) /\
  given_up w'.
Proof.
  intros Hfind Hc Hs Hg w'.
  assert (E : w' = exec (D__start_tail nth (Throws err)) (remove_task task w)).
  { unfold w', step. rewrite Hfind, Hs, Hc. reflexivity. }
  set (wr := remove_task task w) in *.
  assert (Hsil : silent (broadcasts (log w)) wr) by (split; [exact Hg | reflexivity]).
  destruct (catch_block_keeps (silent (broadcasts (log w))) nth err wr
              (silent_It_stop _) Hsil) as (w1 & E1 & ((G1 & (G2 & G3 & G4) & G5) & G6)).
  assert (D : forall x, dead x = true -> d_state x = DaemonStatus.DEAD).
  { intros x Hx. unfold dead in Hx. destruct (d_state x); simpl in Hx; congruence. }
  rewrite E. unfold exec. rewrite E1. unfold give_up_or_retry.
  destruct (nth >=? maxAttempt).
  - unfold D_notify, D_assign, D_abort, bind, get, modify, tell, modify. simpl.
    repeat split; try assumption.
    rewrite !broadcasts_app, G6. simpl. now rewrite !app_nil_r.
  - unfold bind, get. rewrite G1. simpl.
    repeat split; try assumption.
    + apply D, G1.
    + rewrite G6. now rewrite app_nil_r.
Qed.

(** X12.  [Daemon.waitForDeath()] answers [undefined] at once, registering
    nothing, when the Unreliable is not stoppable (for instance while it
    is still starting) or is already [stopped]; otherwise it registers one
    waiter of the [stopped] state.  The next death resolves that waiter
    with the old state and the reason and leaves it registered nowhere; an
    [error] event of the handle that comes first rejects it. *)
Theorem waitForDeath_behaviour (w : World) :
  let st := stopped (states meta) in
  ((stoppable_now w = false \/ it_state w = st) /\
   D_waitForDeath w = (Returns Undefined, w)) \/
  (stoppable_now w = true /\ it_state w <> st /\
   let waiter := next_id w in
   let w' := exec D_waitForDeath w in
   fst (D_waitForDeath w) = Returns (Awaiting waiter) /\
   it_waiters w' = it_waiters w ++ [(st, waiter)] /\
   log w' = log w /\
   (forall reason,
    exists resolved,
      In (ItNotify st {| oldState := it_state w; extra := StopReason reason |}
            (it_state w) resolved)
         (log (exec (It__onDeath reason) w')) /\
      In waiter resolved /\
      ~ In (st, waiter) (it_waiters (exec (It__onDeath reason) w'))) /\
   (forall args,
    exists rejected,
      log (exec (It__onError args) w') =
        log w' ++ [ItAbortAll (EmittedError (hd_error args)) rejected] /\
      In waiter rejected)).
Proof.
  intros st.
  assert (Ew : D_waitForDeath w =
               if stoppable_now w then It_waitForState st w else (Returns Undefined, w)).
  { unfold D_waitForDeath, bind, get. now destruct (stoppable_now w). }
  rewrite Ew. unfold exec. rewrite Ew. clear Ew.
  destruct (stoppable_now w) eqn:Es; [| left; split; [now left | reflexivity]].
  destruct (String.eqb_spec (it_state w) st) as [E | Hne].
  - left. split; [now right |].
    unfold It_waitForState, bind, get.
    now rewrite (proj2 (String.eqb_eq _ _) E).
  - right. split; [reflexivity |]. split; [exact Hne |]. cbv zeta.
    assert (E : It_waitForState st w =
                (Returns (Awaiting (next_id w)),
                 set_it_waiters (it_waiters w ++ [(st, next_id w)])
                   (set_next_id (S (next_id w)) w))).
    { unfold It_waitForState, bind at 1, get.
      rewrite (proj2 (String.eqb_neq _ _) Hne). reflexivity. }
    rewrite E. simpl.
    split; [reflexivity |]. split; [reflexivity |]. split; [reflexivity |]. split.
    + intros reason. rewrite onDeath_unfold; cbv zeta; simpl. fold st.
      set (wb := broadcast st (StopReason reason)
                   (set_it_waiters (it_waiters w ++ [(st, next_id w)])
                      (set_next_id (S (next_id w)) w))).
      destruct (emit_frame st wb) as (_ & _ & _ & Fw & _ & _ & L & FL & _).
      eexists. split; [| split].
      * apply in_app_iff. left. rewrite FL. unfold wb; simpl.
        rewrite !in_app_iff. left. right. left. reflexivity.
      * unfold waiting_on. apply in_map_iff. exists (st, next_id w).
        split; [reflexivity |]. apply filter_In. split; [| apply String.eqb_refl].
        apply in_app_iff. right. now left.
      * intros Hin. apply after_aborts_incl in Hin. rewrite Fw in Hin.
        unfold wb in Hin; simpl in Hin. unfold not_waiting_on in Hin.
        apply filter_In in Hin as [_ Hin]. simpl in Hin.
        now rewrite String.eqb_refl in Hin.
    + intros args. eexists. split; [reflexivity |]. simpl.
      rewrite map_app, in_app_iff. right. now left.
Qed.

(** X13.  An [error] event of the handle is not a death.  When the handle
    emits an event whose only listener is [_onError], every waiter of the
    Unreliable, whatever state it waits for, is rejected with the emitted
    error, and nothing else happens: the state, the handle, the
    subscriptions and the daemon (status, timers, callbacks) are as
    before, and the daemon broadcasts nothing. *)
Theorem error_event_is_not_death
    (w : World) (obj : Handle) (ev : string) (args : list Arg) (sub : Sub) :
  listening obj ev w = [sub] ->
  s_handler sub = OnError ->
  let w' := step (Emit obj ev args) w in
  log w' =
    log w ++ [ItAbortAll (EmittedError (hd_error args)) (map snd (it_waiters w))] /\
  it_waiters w' = [] /\
  it_state w' = it_state w /\ it_uObj w' = it_uObj w /\
  obj_listeners w' = obj_listeners w /\ it_disposables w' = it_disposables w /\
  d_state w' = d_state w /\ timers w' = timers w /\
  it_listeners w' = it_listeners w /\
  broadcasts (log w') = broadcasts (log w).
Proof.
  intros Hsub Hh w'.
  assert (E : w' =
              set_log
                (log w ++ [ItAbortAll (EmittedError (hd_error args))
                             (map snd (it_waiters w))])
                (set_it_waiters [] w)).
  { unfold w', step, exec, Obj_emit, bind at 1, get.
    fold (listening obj ev w). rewrite Hsub. simpl. rewrite Hh. reflexivity. }
  rewrite E. simpl. repeat split.
  rewrite broadcasts_app. simpl. apply app_nil_r.
Qed.

(** X17.  [Unreliable.stop()] with a [_stop()] hook that does not kill at
    once.  The state is set to [stopping] before the hook is called, so
    when the hook returns without a death, or throws (as the base class's
    own [_stop] does), the Unreliable is left [stopping] with its handle
    and its subscriptions; an exception of the hook reaches the caller. *)
Theorem stop_hook_that_does_not_kill (w : World) (obj : Handle) :
  (stopHook = StopReturns \/ exists e, stopHook = StopThrows e) ->
  stoppable_now w = true ->
  it_uObj w = Some obj ->
  let w' := exec It_stop w in
  fst (It_stop w) =
    match stopHook with StopThrows e => Throws e | _ => Returns tt end /\
  it_state w' = stopping (states meta) /\
  it_uObj w' = Some obj /\
  it_disposables w' = it_disposables w /\
  obj_listeners w' = obj_listeners w /\
  exists L,
    Forall daemon_effect L /\
    log w' =
      log w
      ++ [ItNotify (stopping (states meta))
            {| oldState := it_state w; extra := NoExtra |} (it_state w)
            (waiting_on (stopping (states meta)) (it_waiters w))]
      ++ L ++ [ItAssign (stopping (states meta)); ItStopHook].
Proof.
  intros Hhook Hs Hobj w'.
  set (w1 := exec (It__setState (stopping (states meta)) NoExtra) w).
  set (w2 := set_log (log w1 ++ [ItStopHook]) w1).
  assert (E : It_stop w =
              (match stopHook with StopThrows e => Throws e | _ => Returns tt end, w2)).
  { unfold It_stop, bind at 1, get. rewrite Hs, Hobj. simpl.
    unfold bind at 1. simpl. unfold bind at 1. simpl.
    rewrite (bind_returns _ _ tt w (nt_unit _ w (nt_setState _ _))).
    fold w1. unfold It__stop, bind, tell, modify. fold w2.
    destruct Hhook as [-> | [e ->]]; reflexivity. }
  unfold w', exec. rewrite E. simpl.
  unfold w1, exec. rewrite setState_unfold. cbv zeta; simpl.
  destruct (emit_frame (stopping (states meta))
              (broadcast (stopping (states meta)) NoExtra w))
    as (_ & Fo & Fd & _ & Fl & _ & L & FL & HL).
  rewrite Fo, Fd, Fl, FL. simpl.
  repeat split; try assumption.
  exists L. split; [exact HL |]. rewrite <- !app_assoc. reflexivity.
Qed.

(** X18.  [Daemon.stop()] on a running resource whose [_stop()] hook kills
    at once, when the listeners of the emitted death event on the handle
    are [_onDeath] and at most [_onError], with no method of
    [eventHandlers] bound to it.  The daemon first drops its [stopped]
    callback and its timer, then stops the resource: afterwards the status
    is [dead], the Unreliable is [stopped] with no handle and no listener
    left on any handle, no timer is armed, and the daemon has broadcast
    nothing, in particular no [retry-scheduled] for the death it has just
    caused. *)
Theorem daemon_stop_stops_the_resource
    (evs : list Event) (obj : Handle) (d : string) (args : list Arg) :
  let w := run evs new_world in
  stopHook = StopEmits d args ->
  stoppable_now w = true ->
  it_uObj w = Some obj ->
  base_handled obj d w ->
  (exists sub, In sub (listening obj d w) /\ s_handler sub = OnDeath) ->
  let w' := step CallDaemonStop w in
  d_state w' = DaemonStatus.DEAD /\
  it_state w' = stopped (states meta) /\
  it_uObj w' = None /\
  obj_listeners w' = [] /\
  timers w' = [] /\ d_retryTimer w' = None /\ it_listeners w' = [] /\
  broadcasts (log w') = broadcasts (log w).
Proof.
  intros w Hhook Hs Hobj _ Hsub w'.
  destruct (reachable_inv evs) as [Ht Hl]. fold w in Ht, Hl.
  assert (Hheld : subscriptions_held w').
  { apply held_step. apply reachable_held. }
  change (step CallDaemonStop w) with (exec D_stop w) in *.
  unfold w' in *. rewrite D_stop_unfold in *.
  destruct (D_stop_prefix w Ht Hl) as ((P1 & P2 & P3) & P4 & P5 & F).
  set (wc := exec clearRetryTimer
               (exec D__cleanUp (exec (D_assign DaemonStatus.DEAD) w))) in *.
  destruct F as (Fs & Fo & _ & _ & Fl & _).
  assert (Hs' : stoppable_now wc = true)
    by (unfold stoppable_now in *; rewrite Fs; exact Hs).
  assert (Hobj' : it_uObj wc = Some obj) by (rewrite Fo; exact Hobj).
  assert (Hsub' : exists sub, In sub (listening obj d wc) /\ s_handler sub = OnDeath)
    by (unfold listening in *; rewrite Fl; exact Hsub).
  destruct (It_stop_kills wc obj d args Hhook Hs' Hobj' Hsub')
    as (R0 & R1 & R2 & R3 & _).
  assert (Et : exec (tryCatch It_stop (fun _ => ret tt)) wc = exec It_stop wc).
  { unfold exec, tryCatch. destruct (It_stop wc) as [[[] | e] wk]; simpl in *;
      [reflexivity | discriminate]. }
  rewrite Et in *.
  assert (Fd : d_frame wc (exec It_stop wc)).
  { apply (keeps_exec (d_frame wc)); [apply d_frame_It_stop | apply d_frame_refl, P1]. }
  destruct Fd as (D1 & D2 & D3 & _ & D5 & _ & L & D7 & D8).
  destruct Hheld as [K1 K2].
  repeat split; try congruence.
  rewrite D7, broadcasts_app, D8, app_nil_r. exact P5.
Qed.


(** X20.  Attempt numbers stay in range.  With [maxAttempt >= 1], whatever
    happens (successes, failures, deaths, calls of [start()] and [stop()]
    in any order), every attempt number the daemon ever announces, in
    [starting], [retry-scheduled] or [start-failed], every number a live
    timer is armed for and every number a suspended attempt carries lies
    between 1 and [maxAttempt]; and a [start-failed] carries
    [retryIn = -1] exactly on attempt [maxAttempt], [retryDelay] on the
    earlier ones. *)
Theorem attempt_numbers_stay_in_range (evs : list Event) :
  1 <= maxAttempt ->
  let w := run evs new_world in
  (forall ev n seen,
     In (DNotify ev (EventArgs.Starting n) seen) (log w) -> 1 <= n <= maxAttempt) /\
  (forall ev n delay seen,
     In (DNotify ev (EventArgs.RetryScheduled n delay) seen) (log w) ->
     1 <= n <= maxAttempt) /\
  (forall ev f seen,
     In (DNotify ev (EventArgs.StartFailed f) seen) (log w) ->
     1 <= nthAttempt f <= maxAttempt /\
     (retryIn f = -1 /\ nthAttempt f = maxAttempt \/
      retryIn f = retryDelay /\ nthAttempt f < maxAttempt)) /\
  (forall timer n, In (timer, n) (timers w) -> 1 <= n <= maxAttempt) /\
  (forall t n, In t (pending w) -> t_caller t = ByDaemon n -> 1 <= n <= maxAttempt).
Proof.
  intros Hmax w. destruct (reachable_bounded Hmax evs) as (HL & HT & HP).
  fold w in HL, HT, HP. rewrite Forall_forall in HL.
  split; [| split; [| split; [| split]]].
  - intros ev n seen Hin. exact (HL _ Hin).
  - intros ev n delay seen Hin. exact (HL _ Hin).
  - intros ev f seen Hin. exact (HL _ Hin).
  - exact HT.
  - exact HP.
Qed.

End Supervisor.

(** * The test suite's daemon: FakeProcess, three attempts, two seconds *)

Definition fp_step : Event -> World -> World :=
  step FakeProcess_meta FakeProcess_stop 3 2000.

Definition fp_run : list Event -> World -> World :=
  run FakeProcess_meta FakeProcess_stop 3 2000.

Definition fp_new : World := new_world FakeProcess_meta.

(** Attempt 1 has failed inside [it.start()]; the daemon has not resumed. *)
Definition fp_failed_once : World :=
  fp_run [CallDaemonStart; Settle 0 (Throws (HookError 0)); Resume 0] fp_new.

(** Attempt 1 failed, attempt 2 succeeded: the daemon is running handle 7. *)
Definition fp_running : World :=
  fp_run
    [CallDaemonStart; Settle 0 (Throws (HookError 0)); Resume 0; Resume 0;
     TimerFires 1; Settle 2 (Returns 7%nat); Resume 2; Resume 2]
    fp_new.

(** A FakeProcess started by hand, without a daemon, and two waiters. *)
Definition fp_alone : World :=
  fp_run
    [CallItStart; Settle 0 (Returns 7%nat); Resume 0; Resume 0;
     CallWaitForState "starting"; CallWaitForState "stopped"]
    fp_new.


(** C2 fails on the code.  [stop()] while attempt 1 is still inside
    [it.start()] sets the status to [dead]; when the creation then succeeds
    the daemon broadcasts [running] and sets the status to [running]; when
    the resource dies it schedules a retry, and the timer starts attempt 1:
    all without a call of [start()]. *)
Theorem stop_during_start_is_undone :
  let w1 := fp_run [CallDaemonStart; CallDaemonStop] fp_new in
  let w2 := fp_run [Settle 0 (Returns 7%nat); Resume 0; Resume 0] w1 in
  let w3 := fp_step (Emit 7%nat "exit" []) w2 in
  let w4 := fp_step (TimerFires 4) w3 in
  d_state w1 = DaemonStatus.DEAD /\
  d_state w2 = DaemonStatus.RUNNING /\
  d_state w3 = DaemonStatus.RETRY_SCHEDULED /\
  d_state w4 = DaemonStatus.STARTING /\
  broadcasts (log w4) =
    [(DaemonEvents.STARTING, EventArgs.Starting 1);
     (DaemonEvents.RUNNING, EventArgs.Running);
     (DaemonEvents.RETRY_SCHEDULED, EventArgs.RetryScheduled 1 2000);
     (DaemonEvents.STARTING, EventArgs.Starting 1)].
Proof. vm_compute. repeat split. Qed.

(** C3 fails as stated.  In the step of [daemon.start()] the listeners of
    the [starting] broadcast read status [init], and the listeners of the
    Unreliable's own [starting] broadcast read state [init]: the old
    values. *)
Lemma listener_reads_old_value :
  In (DNotify DaemonEvents.STARTING (EventArgs.Starting 1) DaemonStatus.INIT)
     (log (fp_step CallDaemonStart fp_new)) /\
  In (ItNotify "starting" {| oldState := "init"; extra := NoExtra |} "init" [])
     (log (fp_step CallDaemonStart fp_new)) /\
  ~ Forall reads_new (log (fp_step CallDaemonStart fp_new)).
Proof.
  assert (H1 : In (DNotify DaemonEvents.STARTING (EventArgs.Starting 1)
                     DaemonStatus.INIT)
                  (log (fp_step CallDaemonStart fp_new)))
    by (vm_compute; right; left; reflexivity).
  split; [exact H1 |].
  split; [vm_compute; do 3 right; left; reflexivity |].
  intros H. rewrite Forall_forall in H. specialize (H _ H1).
  vm_compute in H. discriminate.
Qed.

Lemma retry_scheduled_with_start_failed_witness :
  find_task 0 fp_failed_once =
    Some {| t_id := 0; t_caller := ByDaemon 1;
            t_stage := AwaitCaller (Throws (HookError 0)) |} /\
  1 < 3 /\
  dead fp_failed_once = false /\
  d_state (fp_step (Resume 0) fp_failed_once) = DaemonStatus.RETRY_SCHEDULED.
Proof.
  assert (H1 : find_task 0 fp_failed_once =
               Some {| t_id := 0; t_caller := ByDaemon 1;
                       t_stage := AwaitCaller (Throws (HookError 0)) |})
    by (vm_compute; reflexivity).
  assert (H2 : dead fp_failed_once = false) by (vm_compute; reflexivity).
  split; [exact H1 |]. split; [lia |]. split; [exact H2 |].
  destruct (retry_scheduled_with_start_failed FakeProcess_meta FakeProcess_stop 3 2000
              fp_failed_once 0 _ 1 (HookError 0) H1 eq_refl eq_refl)
    as (pre & clear & seen & timer & _ & _ & H & _); [lia | exact H2 |].
  exact H.
Defined.

Lemma death_after_running_retries_from_one_witness :
  dead fp_running = false /\
  timer_inv fp_running /\
  In (5%nat, "stopped") (it_listeners fp_running) /\
  retry_armed 2000 1 fp_running
    (exec (It__onDeath FakeProcess_meta 2000 []) fp_running).
Proof.
  assert (H1 : dead fp_running = false) by (vm_compute; reflexivity).
  assert (H2 : timer_inv fp_running) by (vm_compute; reflexivity).
  assert (H3 : In (5%nat, "stopped") (it_listeners fp_running))
    by (vm_compute; left; reflexivity).
  split; [exact H1 |]. split; [exact H2 |]. split; [exact H3 |].
  apply (death_after_running_retries_from_one FakeProcess_meta FakeProcess_stop 3 2000
           fp_running (5%nat, "stopped") [] H1 H2 H3 eq_refl).
Defined.

Lemma death_event_handling_witness :
  it_uObj fp_alone = Some 7%nat /\
  listening 7%nat "exit" fp_alone =
    [{| s_id := 2; s_obj := 7%nat; s_event := "exit"; s_handler := OnDeath |}] /\
  it_state (fp_step (Emit 7%nat "exit" [3%nat]) fp_alone) = "stopped" /\
  it_uObj (fp_step (Emit 7%nat "exit" [3%nat]) fp_alone) = None /\
  waiting_on "starting" (it_waiters (fp_step (Emit 7%nat "exit" [3%nat]) fp_alone)) = [].
Proof.
  assert (H1 : it_uObj fp_alone = Some 7%nat) by (vm_compute; reflexivity).
  assert (H2 : listening 7%nat "exit" fp_alone =
               [{| s_id := 2; s_obj := 7%nat; s_event := "exit";
                   s_handler := OnDeath |}])
    by (vm_compute; reflexivity).
  split; [exact H1 |]. split; [exact H2 |].
  destruct (death_event_handling FakeProcess_meta FakeProcess_stop 3 2000
              fp_alone 7%nat "exit" [3%nat] _ H1 H2 eq_refl)
    as (_ & E1 & E2 & _ & _ & _ & E3).
  split; [exact E1 |]. split; [exact E2 |].
  apply E3. left. reflexivity.
Defined.

Lemma creation_failure_handling_witness :
  find_task 0 (fp_step CallItStart fp_new) =
    Some {| t_id := 0; t_caller := ByUser; t_stage := AwaitCreate |} /\
  it_state
    (fp_step (Resume 0)
       (fp_step (Settle 0 (Throws (HookError 1))) (fp_step CallItStart fp_new)))
  = "start-failed".
Proof.
  assert (H1 : find_task 0 (fp_step CallItStart fp_new) =
               Some {| t_id := 0; t_caller := ByUser; t_stage := AwaitCreate |})
    by (vm_compute; reflexivity).
  split; [exact H1 |].
  destruct (creation_failure_handling FakeProcess_meta FakeProcess_stop 3 2000
              (fp_step CallItStart fp_new) 0 _ (HookError 1) H1 eq_refl)
    as (_ & H & _).
  exact H.
Defined.

Lemma start_precondition_fault_witness :
  tasks_fresh fp_alone /\
  startable_now FakeProcess_meta fp_alone = false /\
  it_state fp_alone = "running" /\
  it_state (fp_step (Resume (next_id fp_alone)) (fp_step CallItStart fp_alone))
  = "start-failed".
Proof.
  assert (Hf : tasks_fresh fp_alone) by (vm_compute; intros t []).
  assert (Hs : startable_now FakeProcess_meta fp_alone = false)
    by (vm_compute; reflexivity).
  split; [exact Hf |]. split; [exact Hs |]. split; [vm_compute; reflexivity |].
  destruct (start_precondition_fault FakeProcess_meta FakeProcess_stop 3 2000
              fp_alone Hf (or_introl Hs))
    as (message & _ & _ & H & _).
  exact H.
Defined.

(** The daemon after its three attempts have failed. *)
Definition fp_dead : World :=
  fp_run
    [CallDaemonStart; Settle 0 (Throws (HookError 0)); Resume 0; Resume 0;
     TimerFires 1; Settle 2 (Throws (HookError 0)); Resume 2; Resume 2;
     TimerFires 3; Settle 4 (Throws (HookError 0)); Resume 4; Resume 4]
    fp_new.

Lemma dead_at_rest_is_final_witness :
  d_state fp_dead = DaemonStatus.DEAD /\
  d_state
    (fp_run [CallItStart; Settle 5 (Returns 7%nat); Resume 5; Resume 5;
             Emit 7%nat "exit" []; CallDaemonStop; TimerFires 3]
       fp_dead) = DaemonStatus.DEAD.
Proof.
  assert (H1 : d_state fp_dead = DaemonStatus.DEAD) by (vm_compute; reflexivity).
  assert (H2 : given_up fp_dead).
  { assert (E1 : dead fp_dead = true) by (vm_compute; reflexivity).
    assert (E2 : it_listeners fp_dead = []) by (vm_compute; reflexivity).
    assert (E3 : timers fp_dead = []) by (vm_compute; reflexivity).
    assert (E4 : d_retryTimer fp_dead = None) by (vm_compute; reflexivity).
    assert (E5 : pending fp_dead = []) by (vm_compute; reflexivity).
    split; [exact E1 |]. split; [repeat split; assumption |].
    intros t Ht. rewrite E5 in Ht. destruct Ht. }
  split; [exact H1 |].
  refine (proj1 (dead_at_rest_is_final FakeProcess_meta FakeProcess_stop 3 2000
                   [CallItStart; Settle 5 (Returns 7%nat); Resume 5; Resume 5;
                    Emit 7%nat "exit" []; CallDaemonStop; TimerFires 3]
                   fp_dead H2 _)).
  intros H. simpl in H.
  repeat (destruct H as [H | H]; [discriminate H |]). exact H.
Defined.

Lemma successful_start_watches_death_witness :
  In "exit" (deathEvents FakeProcess_meta) /\
  it_uObj (exec (It__start_tail FakeProcess_meta 2000 (Returns 7%nat))
             (fp_step CallItStart fp_new)) = Some 7%nat /\
  death_watched 7%nat "exit"
    (exec (It__start_tail FakeProcess_meta 2000 (Returns 7%nat))
       (fp_step CallItStart fp_new)).
Proof.
  assert (H : In "exit" (deathEvents FakeProcess_meta)) by (left; reflexivity).
  split; [exact H |].
  exact (successful_start_watches_death FakeProcess_meta 2000
           (fp_step CallItStart fp_new) 7%nat "exit" H).
Defined.

(** The daemon was stopped while attempt 1 was inside [it.start()], and
    the creation then failed. *)
Definition fp_stopped_early : World :=
  fp_run
    [CallDaemonStart; CallDaemonStop; Settle 0 (Throws (HookError 0)); Resume 0]
    fp_new.


(** The events that bring the daemon to a running handle 7 (attempt 1
    fails, attempt 2 succeeds), and what may follow a [stop()]. *)
Definition fp_history : list Event :=
  [CallDaemonStart; Settle 0 (Throws (HookError 0)); Resume 0; Resume 0;
   TimerFires 1; Settle 2 (Returns 7%nat); Resume 2; Resume 2].

Definition fp_later : list Event :=
  [Emit 7%nat "exit" []; TimerFires 1; CallItStart].

Lemma stop_precondition_fault_witness :
  stoppable_now FakeProcess_meta fp_new = false /\
  it_frame fp_new (exec (D_stop FakeProcess_meta FakeProcess_stop 2000) fp_new).
Proof.
  assert (H : stoppable_now FakeProcess_meta fp_new = false)
    by (vm_compute; reflexivity).
  split; [exact H |].
  exact (proj2 (proj2 (stop_precondition_fault FakeProcess_meta FakeProcess_stop
                         3 2000 fp_new (or_introl H)))).
Defined.

Lemma stop_reaches_stopped_witness :
  stoppable_now FakeProcess_meta fp_alone = true /\
  it_uObj fp_alone = Some 7%nat /\
  it_state (exec (It_stop FakeProcess_meta FakeProcess_stop 2000) fp_alone)
    = stopped (states FakeProcess_meta) /\
  it_uObj (exec (It_stop FakeProcess_meta FakeProcess_stop 2000) fp_alone) = None.
Proof.
  assert (H1 : stoppable_now FakeProcess_meta fp_alone = true)
    by (vm_compute; reflexivity).
  assert (H2 : it_uObj fp_alone = Some 7%nat) by (vm_compute; reflexivity).
  assert (E : listening 7%nat "exit" fp_alone =
              [{| s_id := 2; s_obj := 7%nat; s_event := "exit";
                  s_handler := OnDeath |}])
    by (vm_compute; reflexivity).
  assert (H3 : exists sub,
            In sub (listening 7%nat "exit" fp_alone) /\ s_handler sub = OnDeath).
  { eexists. rewrite E. split; [left; reflexivity | reflexivity]. }
  assert (H4 : base_handled 7%nat "exit" fp_alone).
  { intros s Hs. rewrite E in Hs. destruct Hs as [<- | []]. left. reflexivity. }
  destruct (stop_reaches_stopped FakeProcess_meta FakeProcess_stop 2000
              fp_alone 7%nat "exit" [] eq_refl H1 H2 H4 H3) as (_ & E1 & E2 & _).
  split; [exact H1 |]. split; [exact H2 |]. split; [exact E1 | exact E2].
Defined.

Lemma stop_without_attempt_in_flight_witness :
  user_only
    (run FakeProcess_meta FakeProcess_stop 3 2000 fp_history
       (new_world FakeProcess_meta)) /\
  d_state
    (run FakeProcess_meta FakeProcess_stop 3 2000 fp_later
       (step FakeProcess_meta FakeProcess_stop 3 2000 CallDaemonStop
          (run FakeProcess_meta FakeProcess_stop 3 2000 fp_history
             (new_world FakeProcess_meta))))
  = DaemonStatus.DEAD.
Proof.
  assert (H1 : user_only
                 (run FakeProcess_meta FakeProcess_stop 3 2000 fp_history
                    (new_world FakeProcess_meta))).
  { assert (E : pending
                  (run FakeProcess_meta FakeProcess_stop 3 2000 fp_history
                     (new_world FakeProcess_meta)) = [])
      by (vm_compute; reflexivity).
    intros t Ht. rewrite E in Ht. destruct Ht. }
  assert (H2 : ~ In CallDaemonStart fp_later).
  { intros H. unfold fp_later in H. simpl in H.
    repeat (destruct H as [H | H]; [discriminate H |]). exact H. }
  split; [exact H1 |].
  destruct (stop_without_attempt_in_flight FakeProcess_meta FakeProcess_stop 3 2000
              fp_history fp_later H1 H2)
    as (_ & _ & _ & E & _).
  exact E.
Defined.

Lemma attempt_succeeds_witness :
  startable_now FakeProcess_meta fp_new = true /\
  d_state
    (fp_run [Settle 0 (Returns 7%nat); Resume 0; Resume 0]
       (fp_step CallDaemonStart fp_new)) = DaemonStatus.RUNNING.
Proof.
  assert (H1 : timer_inv fp_new) by (vm_compute; reflexivity).
  assert (H2 : listeners_inv fp_new) by (intros l Hl; destruct Hl).
  assert (H3 : tasks_fresh fp_new) by (intros t Hp; destruct Hp).
  assert (H4 : startable_now FakeProcess_meta fp_new = true)
    by (vm_compute; reflexivity).
  split; [exact H4 |].
  destruct (attempt_succeeds FakeProcess_meta FakeProcess_stop 3 2000 fp_new 7%nat
              H1 H2 H3 H4 eq_refl) as (_ & E & _).
  exact E.
Defined.

Lemma failed_attempt_after_stop_witness :
  find_task 0 fp_stopped_early =
    Some {| t_id := 0; t_caller := ByDaemon 1;
            t_stage := AwaitCaller (Throws (HookError 0)) |} /\
  given_up (remove_task 0 fp_stopped_early) /\
  d_state (fp_step (Resume 0) fp_stopped_early) = DaemonStatus.DEAD.
Proof.
  assert (H1 : find_task 0 fp_stopped_early =
               Some {| t_id := 0; t_caller := ByDaemon 1;
                       t_stage := AwaitCaller (Throws (HookError 0)) |})
    by (vm_compute; reflexivity).
  assert (H2 : given_up (remove_task 0 fp_stopped_early)).
  { assert (E1 : dead (remove_task 0 fp_stopped_early) = true)
      by (vm_compute; reflexivity).
    assert (E2 : it_listeners (remove_task 0 fp_stopped_early) = [])
      by (vm_compute; reflexivity).
    assert (E3 : timers (remove_task 0 fp_stopped_early) = [])
      by (vm_compute; reflexivity).
    assert (E4 : d_retryTimer (remove_task 0 fp_stopped_early) = None)
      by (vm_compute; reflexivity).
    assert (E5 : pending (remove_task 0 fp_stopped_early) = [])
      by (vm_compute; reflexivity).
    split; [exact E1 |]. split; [repeat split; assumption |].
    intros t Ht. rewrite E5 in Ht. destruct Ht. }
  split; [exact H1 |]. split; [exact H2 |].
  exact (proj1 (failed_attempt_after_stop FakeProcess_meta FakeProcess_stop 3 2000
                  fp_stopped_early 0%nat _ 1 (HookError 0) H1 eq_refl eq_refl H2)).
Defined.

Lemma error_event_is_not_death_witness :
  listening 7%nat "error" fp_alone =
    [{| s_id := 1; s_obj := 7%nat; s_event := "error"; s_handler := OnError |}] /\
  it_waiters (fp_step (Emit 7%nat "error" [9%nat]) fp_alone) = [] /\
  it_state (fp_step (Emit 7%nat "error" [9%nat]) fp_alone) = it_state fp_alone.
Proof.
  assert (H : listening 7%nat "error" fp_alone =
              [{| s_id := 1; s_obj := 7%nat; s_event := "error";
                  s_handler := OnError |}])
    by (vm_compute; reflexivity).
  split; [exact H |].
  destruct (error_event_is_not_death FakeProcess_meta FakeProcess_stop 3 2000
              fp_alone 7%nat "error" [9%nat] _ H eq_refl) as (_ & E1 & E2 & _).
  split; [exact E1 | exact E2].
Defined.

Lemma stop_hook_that_does_not_kill_witness :
  stoppable_now FakeProcess_meta fp_alone = true /\
  it_uObj fp_alone = Some 7%nat /\
  it_state (exec (It_stop FakeProcess_meta StopReturns 2000) fp_alone)
    = stopping (states FakeProcess_meta).
Proof.
  assert (H1 : stoppable_now FakeProcess_meta fp_alone = true)
    by (vm_compute; reflexivity).
  assert (H2 : it_uObj fp_alone = Some 7%nat) by (vm_compute; reflexivity).
  split; [exact H1 |]. split; [exact H2 |].
  destruct (stop_hook_that_does_not_kill FakeProcess_meta StopReturns 2000
              fp_alone 7%nat (or_introl eq_refl) H1 H2) as (_ & E & _).
  exact E.
Defined.

Lemma daemon_stop_stops_the_resource_witness :
  stoppable_now FakeProcess_meta
    (run FakeProcess_meta FakeProcess_stop 3 2000 fp_history
       (new_world FakeProcess_meta)) = true /\
  it_state
    (step FakeProcess_meta FakeProcess_stop 3 2000 CallDaemonStop
       (run FakeProcess_meta FakeProcess_stop 3 2000 fp_history
          (new_world FakeProcess_meta)))
  = stopped (states FakeProcess_meta).
Proof.
  assert (H1 : stoppable_now FakeProcess_meta
                 (run FakeProcess_meta FakeProcess_stop 3 2000 fp_history
                    (new_world FakeProcess_meta)) = true)
    by (vm_compute; reflexivity).
  assert (H2 : it_uObj
                 (run FakeProcess_meta FakeProcess_stop 3 2000 fp_history
                    (new_world FakeProcess_meta)) = Some 7%nat)
    by (vm_compute; reflexivity).
  assert (E : listening 7%nat "exit"
                (run FakeProcess_meta FakeProcess_stop 3 2000 fp_history
                   (new_world FakeProcess_meta)) =
              [{| s_id := 4; s_obj := 7%nat; s_event := "exit";
                  s_handler := OnDeath |}])
    by (vm_compute; reflexivity).
  assert (H3 : exists sub,
            In sub
              (listening 7%nat "exit"
                 (run FakeProcess_meta FakeProcess_stop 3 2000 fp_history
                    (new_world FakeProcess_meta))) /\
            s_handler sub = OnDeath).
  { eexists. rewrite E. split; [left; reflexivity | reflexivity]. }
  assert (H4 : base_handled 7%nat "exit"
                 (run FakeProcess_meta FakeProcess_stop 3 2000 fp_history
                    (new_world FakeProcess_meta))).
  { intros s Hs. rewrite E in Hs. destruct Hs as [<- | []]. left. reflexivity. }
  split; [exact H1 |].
  destruct (daemon_stop_stops_the_resource FakeProcess_meta FakeProcess_stop 3 2000
              fp_history 7%nat "exit" [] eq_refl H1 H2 H4 H3) as (_ & E1 & _).
  exact E1.
Defined.


Lemma attempt_numbers_stay_in_range_witness :
  1 <= 3 /\
  forall timer n,
    In (timer, n)
      (timers
         (run FakeProcess_meta FakeProcess_stop 3 2000 fp_history
            (new_world FakeProcess_meta))) ->
    1 <= n <= 3.
Proof.
  assert (H : 1 <= 3) by lia.
  split; [exact H |].
  destruct (attempt_numbers_stay_in_range FakeProcess_meta FakeProcess_stop 3 2000
              fp_history H) as (_ & _ & _ & E & _).
  exact E.
Defined.

(** The resource of a new daemon is created, and dies before the daemon
    has resumed from [await it.start()]: by the hand of a waiter of the
    [running] state that calls [it.stop()], or by an [exit] the handle
    emits in between. *)
Definition fp_missed_death : World :=
  fp_run
    [CallDaemonStart; Settle 0 (Returns 7%nat); Emit 7%nat "exit" [];
     Resume 0; Resume 0]
    fp_new.

Definition fp_missed_stop : World :=
  fp_run
    [CallDaemonStart; Settle 0 (Returns 7%nat); CallItStop; Resume 0; Resume 0]
    fp_new.

(** C5 fails on the code.  The Unreliable listens for the death of its
    handle as soon as the creation hook has returned; the daemon registers
    its [stopped] callback only when [_start] resumes from
    [await it.start()], two resumptions later.  A death in between is
    handled by the Unreliable (state [stopped], handle released) while the
    daemon is not dead, and the daemon never learns of it: it broadcasts
    [running], sets its status to [running], arms no timer, broadcasts no
    [retry-scheduled], and nothing is left that could make it act: no
    hook to settle, no call to resume, no timer, no listener on a handle. *)
Theorem death_before_daemon_resumes_is_missed :
  let w1 := fp_run [CallDaemonStart; Settle 0 (Returns 7%nat)] fp_new in
  let w2 := fp_step (Emit 7%nat "exit" []) w1 in
  (it_state w1 = "running" /\ it_uObj w1 = Some 7%nat /\
   d_state w1 = DaemonStatus.STARTING) /\
  (it_state w2 = "stopped" /\ it_uObj w2 = None /\
   d_state w2 = DaemonStatus.STARTING /\ timers w2 = []) /\
  (d_state fp_missed_death = DaemonStatus.RUNNING /\
   it_state fp_missed_death = "stopped" /\
   it_uObj fp_missed_death = None /\
   timers fp_missed_death = [] /\
   d_retryTimer fp_missed_death = None /\
   broadcasts (log fp_missed_death) =
     [(DaemonEvents.STARTING, EventArgs.Starting 1);
      (DaemonEvents.RUNNING, EventArgs.Running)]) /\
  (forall evs,
     Forall spontaneous evs ->
     run FakeProcess_meta FakeProcess_stop 3 2000 evs fp_missed_death
     = fp_missed_death) /\
  (d_state fp_missed_stop = DaemonStatus.RUNNING /\
   it_state fp_missed_stop = "stopped" /\
   timers fp_missed_stop = [] /\
   broadcasts (log fp_missed_stop) =
     [(DaemonEvents.STARTING, EventArgs.Starting 1);
      (DaemonEvents.RUNNING, EventArgs.Running)]).
Proof.
  assert (Hp : pending fp_missed_death = []) by (vm_compute; reflexivity).
  assert (Ht : timers fp_missed_death = []) by (vm_compute; reflexivity).
  assert (Ho : obj_listeners fp_missed_death = []) by (vm_compute; reflexivity).
  split; [vm_compute; repeat split |].
  split; [vm_compute; repeat split |].
  split; [vm_compute; repeat split |].
  split; [| vm_compute; repeat split].
  intros evs H.
  exact (quiescent_run FakeProcess_meta FakeProcess_stop 3 2000 evs
           fp_missed_death Hp Ht Ho H).
Qed.

(** * The build scripts *)

Lemma string_length_app a b :
  String.length (a ++ b)%string = (String.length a + String.length b)%nat.
Proof. induction a as [| c a IH]; simpl; [reflexivity | now rewrite IH]. Qed.

Lemma string_app_assoc a b c : ((a ++ b) ++ c = a ++ (b ++ c))%string.
Proof. induction a as [| x a IH]; simpl; [reflexivity | now rewrite IH]. Qed.

Lemma substring_all s : substring 0 (String.length s) s = s.
Proof. induction s as [| c s IH]; simpl; [reflexivity | now rewrite IH]. Qed.

Lemma substring_app_left a b : substring 0 (String.length a) (a ++ b)%string = a.
Proof.
  induction a as [| c a IH]; simpl; [now destruct b | now rewrite IH].
Qed.

Lemma substring_app_right a b :
  substring (String.length a) (String.length b) (a ++ b)%string = b.
Proof. induction a as [| c a IH]; simpl; [apply substring_all | exact IH]. Qed.

Lemma substring_split s : forall n,
  (n <= String.length s)%nat ->
  s = (substring 0 n s ++ substring n (String.length s - n) s)%string.
Proof.
  induction s as [| c s IH]; intros n Hn; simpl in Hn.
  - replace n with 0%nat by lia. reflexivity.
  - destruct n as [| n].
    + change (substring 0 0 (String c s)) with EmptyString.
      rewrite Nat.sub_0_r, substring_all. reflexivity.
    + simpl. f_equal. apply IH. lia.
Qed.

Lemma includes_app a b search :
  prefix search b = true -> includes (a ++ b)%string search = true.
Proof.
  intros H. induction a as [| c a IH]; cbn [append includes].
  - destruct b; cbn [includes]; rewrite H; reflexivity.
  - rewrite IH. apply orb_true_r.
Qed.

(** X14.  The modules of entry.ts are exactly the names [m] for which
    [m.ts] is a file of the source directory whose name does not contain
    [.test.]: stripping the extension loses nothing, so every entry point
    names a file that exists, and no test file ([a.test.ts]) is ever made
    an entry point or an export of the package. *)
Theorem mods_are_the_source_files (files : list string) (m : string) :
  (In m (mods files) <->
   In (m ++ ".ts")%string files /\ includes (m ++ ".ts")%string ".test." = false) /\
  (forall a, ~ In (a ++ ".test")%string (mods files)).
Proof.
  assert (Hchar : forall m0,
            In m0 (mods files) <->
            In (m0 ++ ".ts")%string files /\
            includes (m0 ++ ".ts")%string ".test." = false).
  { intros m0. unfold mods. rewrite in_map_iff. split.
    - intros (file & Hm & Hin). apply filter_In in Hin as [Hin Hp].
      apply andb_true_iff in Hp as [He Hi]. apply negb_true_iff in Hi.
      unfold endsWith in He. apply andb_true_iff in He as [Hlen Hsuf].
      apply Nat.leb_le in Hlen. apply String.eqb_eq in Hsuf.
      pose proof (substring_split file (String.length file - String.length ".ts")) as Hs.
      replace (String.length file - (String.length file - String.length ".ts"))%nat
        with (String.length ".ts") in Hs by lia.
      rewrite Hsuf, Hm in Hs.
      assert (E : file = (m0 ++ ".ts")%string) by (apply Hs; lia).
      rewrite <- E. split; assumption.
    - intros [Hin Hi]. exists (m0 ++ ".ts")%string.
      assert (El : (String.length (m0 ++ ".ts") - String.length ".ts")%nat
                   = String.length m0)
        by (rewrite string_length_app; lia).
      split.
      + rewrite El. apply substring_app_left.
      + apply filter_In. split; [exact Hin |].
        apply andb_true_iff. split; [| now rewrite Hi].
        unfold endsWith. apply andb_true_iff. split.
        * apply Nat.leb_le. rewrite string_length_app. lia.
        * rewrite El. rewrite substring_app_right. apply String.eqb_refl. }
  split; [apply Hchar |].
  intros a Hin. apply Hchar in Hin as [_ Hi].
  rewrite string_app_assoc in Hi.
  rewrite includes_app in Hi; [discriminate | reflexivity].
Qed.

Section PathsFacts.

Variable join : string -> string -> string.

Lemma modPath_relative b : startsWith (modPath join b) "./" = true.
Proof.
  unfold modPath. cbv zeta.
  destruct (startsWith (join "./build" b) "./") eqn:E; [exact E |].
  clear E. destruct (join "./build" b); reflexivity.
Qed.

Lemma target_relative m : relative (target join m).
Proof. repeat split; apply modPath_relative. Qed.

Lemma obj_set_In key v o kv :
  In kv (obj_set key v o) -> kv = (key, v) \/ In kv o.
Proof.
  induction o as [| [k x] o IH]; simpl.
  - intros [<- | []]. now left.
  - destruct (String.eqb_spec k key) as [-> | _]; simpl.
    + intros [<- | H]; [now left | right; now right].
    + intros [<- | H]; [right; now left |].
      destruct (IH H) as [-> | H']; [now left | right; now right].
Qed.

Lemma obj_set_keys key v o k :
  In k (map fst (obj_set key v o)) <-> k = key \/ In k (map fst o).
Proof.
  induction o as [| [k0 x] o IH]; simpl.
  - split; [intros [<- | []]; now left | intros [-> | []]; now left].
  - destruct (String.eqb_spec k0 key) as [-> | Hne]; simpl.
    + intuition (subst; auto).
    + rewrite IH. intuition (subst; auto).
Qed.

Lemma obj_set_NoDup key v o :
  NoDup (map fst o) -> NoDup (map fst (obj_set key v o)).
Proof.
  induction o as [| [k x] o IH]; simpl; intros H.
  - repeat constructor. intros [].
  - inversion H as [| ? ? Hnot Hnd]; subst.
    destruct (String.eqb_spec k key) as [-> | Hne]; simpl.
    + constructor; assumption.
    + constructor; [| apply IH, Hnd].
      rewrite obj_set_keys. intros [-> | Hin]; [congruence | contradiction].
Qed.

Ltac eqb_cases :=
  repeat match goal with
         | |- context [String.eqb ?a ?b] => destruct (String.eqb_spec a b)
         end;
  subst; simpl; try congruence; auto.

Lemma obj_get_set key v o k :
  obj_get k (obj_set key v o) = if String.eqb k key then Some v else obj_get k o.
Proof.
  unfold obj_get. induction o as [| [k0 x] o IH]; simpl.
  - eqb_cases.
  - destruct (String.eqb_spec k0 key) as [E | Hne]; simpl.
    + eqb_cases.
    + destruct (String.eqb_spec k0 k) as [E | Hne']; simpl; [| exact IH].
      eqb_cases.
Qed.

Lemma obj_get_delete key o k :
  obj_get k (obj_delete key o) = if String.eqb k key then None else obj_get k o.
Proof.
  unfold obj_get, obj_delete. induction o as [| [k0 x] o IH]; simpl.
  - now destruct (String.eqb k key).
  - destruct (String.eqb_spec k0 key) as [E | Hne]; simpl.
    + rewrite IH. eqb_cases.
    + destruct (String.eqb_spec k0 k) as [E | Hne']; simpl; [| exact IH].
      eqb_cases.
Qed.

Lemma collect_In ms : forall o kv,
  In kv (collect join ms o) -> In kv o \/ exists m, In m ms /\ kv = (("./" ++ m)%string, target join m).
Proof.
  induction ms as [| a ms IH]; intros o kv H; simpl in *; [now left |].
  destruct (IH _ _ H) as [H1 | (m & Hm & ->)].
  - destruct (obj_set_In _ _ _ _ H1) as [-> | H2]; [| now left].
    right. exists a. split; [now left | reflexivity].
  - right. exists m. split; [now right | reflexivity].
Qed.

Lemma collect_keys ms : forall o k,
  In k (map fst (collect join ms o)) <->
  In k (map fst o) \/ exists m, In m ms /\ k = ("./" ++ m)%string.
Proof.
  induction ms as [| a ms IH]; intros o k; simpl.
  - split; [now left | intros [H | (m & [] & _)]; exact H].
  - rewrite IH, obj_set_keys. split.
    + intros [[-> | H] | (m & Hm & ->)].
      * right. exists a. split; [now left | reflexivity].
      * now left.
      * right. exists m. split; [now right | reflexivity].
    + intros [H | (m & [<- | Hm] & ->)].
      * left. now right.
      * left. now left.
      * right. exists m. split; [exact Hm | reflexivity].
Qed.

Lemma collect_NoDup ms : forall o,
  NoDup (map fst o) -> NoDup (map fst (collect join ms o)).
Proof.
  induction ms as [| a ms IH]; intros o H; simpl; [exact H |].
  apply IH, obj_set_NoDup, H.
Qed.

Lemma collect_get_other ms k : forall o,
  (forall m, In m ms -> k <> ("./" ++ m)%string) ->
  obj_get k (collect join ms o) = obj_get k o.
Proof.
  induction ms as [| a ms IH]; intros o H; simpl; [reflexivity |].
  rewrite IH by (intros m Hm; apply H; now right).
  rewrite obj_get_set.
  match goal with
  | |- context [String.eqb k ?b] => destruct (String.eqb_spec k b) as [E | _]
  end; [| reflexivity].
  exfalso. apply (H a); [now left | exact E].
Qed.

Lemma collect_get ms m : forall o,
  In m ms -> obj_get ("./" ++ m)%string (collect join ms o) = Some (target join m).
Proof.
  induction ms as [| a ms IH]; intros o Hin; [destruct Hin |]. simpl.
  destruct (in_dec string_dec m ms) as [Hm | Hm]; [apply IH, Hm |].
  destruct Hin as [-> | Hin]; [| contradiction].
  rewrite collect_get_other.
  - rewrite obj_get_set, String.eqb_refl. reflexivity.
  - intros m' Hm' E. injection E as E. congruence.
Qed.

(** X15.  Every target that gen-exports.ts writes into the [exports] of
    package.json starts with [./], whatever [path.join] returns and
    whatever the modules are called: [modPath] adds the prefix exactly
    when the joined path lacks it. *)
Theorem exports_are_relative (ms : list string) (key : string) (t : ExportTarget) :
  In (key, t) (main join ms) -> relative t.
Proof.
  change (main join ms) with (obj_delete "./index" (collect join ms [(".", root)])).
  unfold obj_delete. intros H. apply filter_In in H as [H _].
  apply collect_In in H as [[[= _ <-] | []] | (m & _ & [= _ ->])].
  - repeat split.
  - apply target_relative.
Qed.

(** X16.  The [exports] object that gen-exports.ts writes has one key per
    module and no other: [.] for the package root, which always points at
    the index files, and [./m] for every module [m] other than [index],
    pointing at the three build products of [m]; there is never a key
    [./index], and no key occurs twice. *)
Theorem exports_cover_the_modules (ms : list string) :
  let exports := main join ms in
  obj_get "." exports = Some root /\
  obj_get "./index" exports = None /\
  (forall m, In m ms -> m <> "index" ->
     obj_get ("./" ++ m)%string exports = Some (target join m)) /\
  (forall key,
     In key (map fst exports) <->
     key = "." \/ exists m, In m ms /\ m <> "index" /\ key = ("./" ++ m)%string) /\
  NoDup (map fst exports).
Proof.
  intros exports. unfold exports.
  change (main join ms) with (obj_delete "./index" (collect join ms [(".", root)])).
  assert (Hneq : forall m, "." <> ("./" ++ m)%string) by (intros m E; discriminate).
  split; [| split; [| split; [| split]]].
  - rewrite obj_get_delete. simpl.
    rewrite collect_get_other by (intros m _; apply Hneq). reflexivity.
  - rewrite obj_get_delete, String.eqb_refl. reflexivity.
  - intros m Hin Hne. rewrite obj_get_delete.
    destruct (String.eqb_spec ("./" ++ m)%string "./index") as [E | _].
    + injection E as E. contradiction.
    + apply collect_get, Hin.
  - intros key. unfold obj_delete.
    assert (Hk : forall l : Exports,
              In key (map fst (filter (fun kv => negb (String.eqb (fst kv) "./index")) l))
              <-> key <> "./index" /\ In key (map fst l)).
    { intros l. rewrite !in_map_iff. split.
      - intros ([k v] & <- & H). apply filter_In in H as [H1 H2]. simpl in *.
        apply negb_true_iff, String.eqb_neq in H2. split; [exact H2 |].
        exists (k, v). split; [reflexivity | exact H1].
      - intros (Hne & [k v] & <- & H). exists (k, v). split; [reflexivity |].
        apply filter_In. split; [exact H |]. simpl in *.
        apply negb_true_iff, String.eqb_neq. exact Hne. }
    rewrite Hk, collect_keys. simpl. split.
    + intros (Hne & [[<- | []] | (m & Hm & ->)]); [now left |].
      right. exists m. repeat split; [exact Hm |]. intros ->. now apply Hne.
    + intros [-> | (m & Hm & Hne & ->)].
      * split; [discriminate | left; now left].
      * split; [intros E; injection E as E; contradiction |].
        right. exists m. split; [exact Hm | reflexivity].
  - unfold obj_delete.
    assert (Hf : forall l : Exports,
              NoDup (map fst l) ->
              NoDup (map fst (filter (fun kv => negb (String.eqb (fst kv) "./index")) l))).
    { induction l as [| [k v] l IH]; simpl; intros H; [constructor |].
      inversion H as [| ? ? Hnot Hnd]; subst.
      destruct (negb (String.eqb k "./index")); simpl; [| apply IH, Hnd].
      constructor; [| apply IH, Hnd].
      intros Hin. apply Hnot. apply in_map_iff in Hin as (kv & <- & Hkv).
      apply filter_In in Hkv as [Hkv _]. apply in_map, Hkv. }
    apply Hf, collect_NoDup. simpl. repeat constructor. intros [].
Qed.

End PathsFacts.

(** A [path.join] that only concatenates, for the example below. *)
Definition plain_join (a b : string) : string := (a ++ "/" ++ b)%string.

Lemma exports_are_relative_witness :
  In ("./Daemon", target plain_join "Daemon") (main plain_join ["Daemon"; "index"]) /\
  startsWith (types (target plain_join "Daemon")) "./" = true.
Proof.
  assert (H : In ("./Daemon", target plain_join "Daemon")
                (main plain_join ["Daemon"; "index"]))
    by (vm_compute; right; left; reflexivity).
  split; [exact H |].
  exact (proj1 (exports_are_relative plain_join ["Daemon"; "index"] "./Daemon" _ H)).
Defined.
